(** * Voice-Autopilot front end: the Autopilot page

    A shallow embedding of [Frontend/src/pages/Autopilot/index.jsx]: the
    plain-text reply renderer, the action-preview registry, the analyze /
    confirm / reschedule handlers and the recording handlers, together
    with the properties the specification states about them.

    JavaScript strings are sequences of UTF-16 code units ([list N]);
    JSON-shaped data is the inductive [jsval]; objects used as maps are
    stdpp [gmap]s; the component's [useState] cells form the record
    [state]; asynchronous handlers are split at their [await] points and
    run by the transition function [step] over a [world] that holds the
    calls in flight. *)

From stdpp Require Import gmap strings list fin_maps pretty.
From Stdlib Require Import NArith ZArith Lia Ascii.

#[local] Set Warnings "-register-all".
#[local] Open Scope N_scope.

(** ** JavaScript strings *)

Module JsString.

(** A string literal of the source whose characters are all ASCII. *)
Fixpoint lit (s : string) : list N :=
  match s with
  | EmptyString => []
  | String a s' => N_of_ascii a :: lit s'
  end.

(** ECMAScript [WhiteSpace] and [LineTerminator] code units, the ones
    [String.prototype.trim] strips. *)
Definition isWhiteSpace (c : N) : bool :=
  (c =? 9) || (c =? 10) || (c =? 11) || (c =? 12) || (c =? 13) || (c =? 32)
  || (c =? 160) || (c =? 5760) || ((8192 <=? c) && (c <=? 8202))
  || (c =? 8232) || (c =? 8233) || (c =? 8239) || (c =? 8287)
  || (c =? 12288) || (c =? 65279).

Fixpoint trimStart (s : list N) : list N :=
  match s with
  | [] => []
  | c :: s' => if isWhiteSpace c then trimStart s' else s
  end.

Fixpoint trimEnd (s : list N) : list N :=
  match s with
  | [] => []
  | c :: s' =>
      match trimEnd s' with
      | [] => if isWhiteSpace c then [] else [c]
      | r => c :: r
      end
  end.

(** [str.trim()] *)
Definition trim (s : list N) : list N := trimEnd (trimStart s).

Fixpoint isPrefix (p s : list N) : bool :=
  match p, s with
  | [], _ => true
  | a :: p', b :: s' => (a =? b) && isPrefix p' s'
  | _ :: _, [] => false
  end.

(** [str.split(sep)] for a non-empty separator string: the leftmost
    occurrences of [sep], not overlapping, cut the string. [skip] counts
    the code units of a matched separator that are still to be passed. *)
Fixpoint split_skip (sep : list N) (skip : nat) (s : list N) : list (list N) :=
  match s with
  | [] => [[]]
  | c :: s' =>
      match skip with
      | S k => split_skip sep k s'
      | O =>
          if isPrefix sep s then [] :: split_skip sep (length sep - 1) s'
          else match split_skip sep 0 s' with
               | p :: ps => (c :: p) :: ps
               | [] => [[c]]
               end
      end
  end.

Definition split (sep s : list N) : list (list N) := split_skip sep 0 s.

(** [arr.join(sep)] on an array of strings. *)
Fixpoint join (sep : list N) (l : list (list N)) : list N :=
  match l with
  | [] => []
  | x :: l' =>
      match l' with
      | [] => x
      | _ :: _ => x ++ sep ++ join sep l'
      end
  end.

(** [str.replace(/c/g, r)] for a pattern that is one literal character. *)
Definition replace_g (c : N) (r : list N) (s : list N) : list N :=
  flat_map (fun x => if x =? c then r else [x]) s.

End JsString.

Import JsString.

(** ** The plain-text reply renderer *)

Definition escapeHtml (str : list N) : list N :=
  replace_g 39 (lit "&#039;")
    (replace_g 34 (lit "&quot;")
       (replace_g 62 (lit "&gt;")
          (replace_g 60 (lit "&lt;")
             (replace_g 38 (lit "&amp;") str)))).

Definition formatPlainTextAsHtml (text : list N) : list N :=
  match text with
  | [] => []
  | _ :: _ =>
      concat
        (map (fun block =>
                lit "<p>"
                ++ join (lit "<br/>") (map escapeHtml (split [10] block))
                ++ lit "</p>")
             (split [10; 10] (trim text)))
  end.

(** ** JSON-shaped JavaScript values

    Responses of the backend and the objects the component builds from
    them. Numbers are carried as integers, [VNum z] standing for the
    Number nearest to [z]: the handlers only copy them, print them and
    test them for truthiness. *)

Inductive jsval :=
| VUndef
| VNull
| VBool (b : bool)
| VNum (z : Z)
| VStr (s : list N)
| VArr (l : list jsval)
| VObj (m : gmap string jsval).

Module Js.

Definition truthy (v : jsval) : bool :=
  match v with
  | VUndef | VNull => false
  | VBool b => b
  | VNum z => negb (z =? 0)%Z
  | VStr [] => false
  | VStr (_ :: _) => true
  | VArr _ | VObj _ => true
  end.

Definition nullish (v : jsval) : bool :=
  match v with
  | VUndef | VNull => true
  | _ => false
  end.

(** [a || b] *)
Definition or_else (a b : jsval) : jsval := if truthy a then a else b.

(** [a ?? b] *)
Definition coalesce (a b : jsval) : jsval := if nullish a then b else a.

(** The properties of an array or a string that a spread copies: one
    per index, named by the index in decimal. *)
Definition indexed (l : list jsval) : gmap string jsval :=
  list_to_map (imap (fun i x => (pretty i, x)) l).

(** The own enumerable properties of a value: what [{...v}] copies and
    what [Object.entries(v)] lists. *)
Definition own_props (v : jsval) : gmap string jsval :=
  match v with
  | VObj m => m
  | VArr l => indexed l
  | VStr s => indexed (map (fun c => VStr [c]) s)
  | _ => ∅
  end.

(** Reading the data property [k] of a value that is not nullish. *)
Definition prop (v : jsval) (k : string) : jsval :=
  default VUndef (own_props v !! k).

(** [v.k]: [None] is the [TypeError] raised on [undefined] and [null]. *)
Definition get (v : jsval) (k : string) : option jsval :=
  if nullish v then None else Some (prop v k).

(** [v?.k] *)
Definition get_opt (v : jsval) (k : string) : jsval :=
  if nullish v then VUndef else prop v k.

(** [v === "s"] *)
Definition is_str (v : jsval) (s : list N) : bool :=
  match v with
  | VStr s' => bool_decide (s' = s)
  | _ => false
  end.

(** The Number nearest to the integer [m >= 0], ties to even: an
    integer of at most 53 bits is a Number, a longer one keeps its 53
    leading bits. A result of [2^1024] or more stands for [Infinity]. *)
Definition nearestNumber (m : Z) : Z :=
  let e := (Z.log2 m - 52)%Z in
  if (e <=? 0)%Z then m
  else
    let q := Z.shiftr m e in
    let r := Z.land m (Z.ones e) in
    let half := Z.shiftl 1 (e - 1) in
    let q' :=
      if (r <? half)%Z then q
      else if (half <? r)%Z then (q + 1)%Z
      else if Z.even q then q else (q + 1)%Z in
    Z.shiftl q' e.

(** The multiple of [10^(n-k)] that is read back as the Number [x] of
    [n] digits: the nearer one to [x] when the one below and the one
    above both are, the one with the even quotient when they are as
    near. *)
Definition roundTrip (x : Z) (k : nat) : option Z :=
  let n := String.length (pretty x) in
  let u := (10 ^ Z.of_nat (n - k))%Z in
  let lo := (x / u * u)%Z in
  let hi := (lo + u)%Z in
  match (nearestNumber lo =? x)%Z, (nearestNumber hi =? x)%Z with
  | true, true =>
      Some (if (x - lo <? hi - x)%Z then lo
            else if (hi - x <? x - lo)%Z then hi
            else if Z.even (x / u) then lo else hi)
  | true, false => Some lo
  | false, true => Some hi
  | false, false => None
  end.

(** The decimal with the fewest significant digits that is read back
    as the Number [x]; 17 digits always are enough. *)
Definition shortest (x : Z) : Z :=
  default x (list_find is_Some (map (roundTrip x) (seq 1 17)) ≫= snd).

Fixpoint dropZeros (l : list N) : list N :=
  match l with
  | 48 :: l' => dropZeros l'
  | _ => l
  end.

(** [d.ddde+n] for the integer [c]. *)
Definition exponential (c : Z) : list N :=
  let ds := lit (pretty c) in
  let e := lit (pretty (Z.of_nat (length ds - 1))) in
  match reverse (dropZeros (reverse ds)) with
  | [] => ds
  | [d] => d :: lit "e+" ++ e
  | d :: frac => d :: lit "." ++ frac ++ lit "e+" ++ e
  end.

(** [Number::toString] on the Number an integer denotes: the shortest
    decimal that is read back as that Number, in full below [10^21]
    and in exponent form from there on. *)
Definition numberToString (z : Z) : list N :=
  let x := nearestNumber (Z.abs z) in
  let c := shortest x in
  (if (z <? 0)%Z then lit "-" else [])
  ++ (if (2 ^ 1024 <=? x)%Z then lit "Infinity"
      else if (c <? 10 ^ 21)%Z then lit (pretty c)
      else exponential c).

#[global] Arguments numberToString : simpl never.

(** The string a template literal inserts for [${v}]. *)
Fixpoint toString (v : jsval) : list N :=
  match v with
  | VUndef => lit "undefined"
  | VNull => lit "null"
  | VBool true => lit "true"
  | VBool false => lit "false"
  | VNum z => numberToString z
  | VStr s => s
  | VArr l =>
      join (lit ",")
        (map (fun x => match x with
                       | VUndef | VNull => []
                       | _ => toString x
                       end) l)
  | VObj _ => lit "[object Object]"
  end.

(** [v.trim()]: only strings have the method. *)
Definition trim_val (v : jsval) : option (list N) :=
  match v with
  | VStr s => Some (trim s)
  | _ => None
  end.

End Js.

Import Js.

(** ** The component state

    One field per [useState] cell of [Autopilot], and [lang] from the
    language context. A value of [state] is also what a handler closure
    sees: the cells as they were in the render that created it. *)

Inductive Lang := zh | en.

Inductive Mode := Text | Audio.

Record state := {
  lang : Lang;
  inputText : list N;
  isRecording : bool;
  isProcessing : bool;
  isConfirming : bool;
  runResult : jsval;
  confirmResult : jsval;
  actionChecks : gmap nat bool;
  editedActions : list jsval;
  replyDraft : jsval;
  rescheduleInputs : gmap nat (list N);
  rescheduleLoading : gmap nat bool;
  rescheduleRecordingIndex : option nat;
}.

Definition setInputText (x : list N) (st : state) : state :=
  {| lang := lang st;
     inputText := x;
     isRecording := isRecording st;
     isProcessing := isProcessing st;
     isConfirming := isConfirming st;
     runResult := runResult st;
     confirmResult := confirmResult st;
     actionChecks := actionChecks st;
     editedActions := editedActions st;
     replyDraft := replyDraft st;
     rescheduleInputs := rescheduleInputs st;
     rescheduleLoading := rescheduleLoading st;
     rescheduleRecordingIndex := rescheduleRecordingIndex st |}.

Definition setIsRecording (x : bool) (st : state) : state :=
  {| lang := lang st;
     inputText := inputText st;
     isRecording := x;
     isProcessing := isProcessing st;
     isConfirming := isConfirming st;
     runResult := runResult st;
     confirmResult := confirmResult st;
     actionChecks := actionChecks st;
     editedActions := editedActions st;
     replyDraft := replyDraft st;
     rescheduleInputs := rescheduleInputs st;
     rescheduleLoading := rescheduleLoading st;
     rescheduleRecordingIndex := rescheduleRecordingIndex st |}.

Definition setIsProcessing (x : bool) (st : state) : state :=
  {| lang := lang st;
     inputText := inputText st;
     isRecording := isRecording st;
     isProcessing := x;
     isConfirming := isConfirming st;
     runResult := runResult st;
     confirmResult := confirmResult st;
     actionChecks := actionChecks st;
     editedActions := editedActions st;
     replyDraft := replyDraft st;
     rescheduleInputs := rescheduleInputs st;
     rescheduleLoading := rescheduleLoading st;
     rescheduleRecordingIndex := rescheduleRecordingIndex st |}.

Definition setIsConfirming (x : bool) (st : state) : state :=
  {| lang := lang st;
     inputText := inputText st;
     isRecording := isRecording st;
     isProcessing := isProcessing st;
     isConfirming := x;
     runResult := runResult st;
     confirmResult := confirmResult st;
     actionChecks := actionChecks st;
     editedActions := editedActions st;
     replyDraft := replyDraft st;
     rescheduleInputs := rescheduleInputs st;
     rescheduleLoading := rescheduleLoading st;
     rescheduleRecordingIndex := rescheduleRecordingIndex st |}.

Definition setRunResult (x : jsval) (st : state) : state :=
  {| lang := lang st;
     inputText := inputText st;
     isRecording := isRecording st;
     isProcessing := isProcessing st;
     isConfirming := isConfirming st;
     runResult := x;
     confirmResult := confirmResult st;
     actionChecks := actionChecks st;
     editedActions := editedActions st;
     replyDraft := replyDraft st;
     rescheduleInputs := rescheduleInputs st;
     rescheduleLoading := rescheduleLoading st;
     rescheduleRecordingIndex := rescheduleRecordingIndex st |}.

Definition setConfirmResult (x : jsval) (st : state) : state :=
  {| lang := lang st;
     inputText := inputText st;
     isRecording := isRecording st;
     isProcessing := isProcessing st;
     isConfirming := isConfirming st;
     runResult := runResult st;
     confirmResult := x;
     actionChecks := actionChecks st;
     editedActions := editedActions st;
     replyDraft := replyDraft st;
     rescheduleInputs := rescheduleInputs st;
     rescheduleLoading := rescheduleLoading st;
     rescheduleRecordingIndex := rescheduleRecordingIndex st |}.

Definition setActionChecks (x : gmap nat bool) (st : state) : state :=
  {| lang := lang st;
     inputText := inputText st;
     isRecording := isRecording st;
     isProcessing := isProcessing st;
     isConfirming := isConfirming st;
     runResult := runResult st;
     confirmResult := confirmResult st;
     actionChecks := x;
     editedActions := editedActions st;
     replyDraft := replyDraft st;
     rescheduleInputs := rescheduleInputs st;
     rescheduleLoading := rescheduleLoading st;
     rescheduleRecordingIndex := rescheduleRecordingIndex st |}.

Definition setEditedActions (x : list jsval) (st : state) : state :=
  {| lang := lang st;
     inputText := inputText st;
     isRecording := isRecording st;
     isProcessing := isProcessing st;
     isConfirming := isConfirming st;
     runResult := runResult st;
     confirmResult := confirmResult st;
     actionChecks := actionChecks st;
     editedActions := x;
     replyDraft := replyDraft st;
     rescheduleInputs := rescheduleInputs st;
     rescheduleLoading := rescheduleLoading st;
     rescheduleRecordingIndex := rescheduleRecordingIndex st |}.

Definition setReplyDraft (x : jsval) (st : state) : state :=
  {| lang := lang st;
     inputText := inputText st;
     isRecording := isRecording st;
     isProcessing := isProcessing st;
     isConfirming := isConfirming st;
     runResult := runResult st;
     confirmResult := confirmResult st;
     actionChecks := actionChecks st;
     editedActions := editedActions st;
     replyDraft := x;
     rescheduleInputs := rescheduleInputs st;
     rescheduleLoading := rescheduleLoading st;
     rescheduleRecordingIndex := rescheduleRecordingIndex st |}.

Definition setRescheduleInputs (x : gmap nat (list N)) (st : state) : state :=
  {| lang := lang st;
     inputText := inputText st;
     isRecording := isRecording st;
     isProcessing := isProcessing st;
     isConfirming := isConfirming st;
     runResult := runResult st;
     confirmResult := confirmResult st;
     actionChecks := actionChecks st;
     editedActions := editedActions st;
     replyDraft := replyDraft st;
     rescheduleInputs := x;
     rescheduleLoading := rescheduleLoading st;
     rescheduleRecordingIndex := rescheduleRecordingIndex st |}.

Definition setRescheduleLoading (x : gmap nat bool) (st : state) : state :=
  {| lang := lang st;
     inputText := inputText st;
     isRecording := isRecording st;
     isProcessing := isProcessing st;
     isConfirming := isConfirming st;
     runResult := runResult st;
     confirmResult := confirmResult st;
     actionChecks := actionChecks st;
     editedActions := editedActions st;
     replyDraft := replyDraft st;
     rescheduleInputs := rescheduleInputs st;
     rescheduleLoading := x;
     rescheduleRecordingIndex := rescheduleRecordingIndex st |}.

Definition setRescheduleRecordingIndex (x : option nat) (st : state) : state :=
  {| lang := lang st;
     inputText := inputText st;
     isRecording := isRecording st;
     isProcessing := isProcessing st;
     isConfirming := isConfirming st;
     runResult := runResult st;
     confirmResult := confirmResult st;
     actionChecks := actionChecks st;
     editedActions := editedActions st;
     replyDraft := replyDraft st;
     rescheduleInputs := rescheduleInputs st;
     rescheduleLoading := rescheduleLoading st;
     rescheduleRecordingIndex := x |}.

Definition initial (l : Lang) : state :=
  {| lang := l; inputText := []; isRecording := false; isProcessing := false;
     isConfirming := false; runResult := VNull; confirmResult := VNull;
     actionChecks := ∅; editedActions := []; replyDraft := VObj ∅;
     rescheduleInputs := ∅; rescheduleLoading := ∅;
     rescheduleRecordingIndex := None |}.

(** ** What a handler does besides updating the state *)

Inductive notice :=
| runError
| confirmError
| confirmCalendarFailed
| confirmSuccess
| rescheduleError
| browserNotSupported
| micDenied.

Inductive effect :=
| Post (url : string) (body : jsval)
| Notify (n : notice).

(** A place where audio is recorded: the main input or the reschedule
    controls of one result. *)
Inductive site := primary | at_index (i : nat).

(** A suspended handler: the promise it awaits and what its closure
    holds. [AwaitRun after] is [handleRun] waiting for [/autopilot/run];
    [after] is the index of the [handleReschedule] call that awaits this
    [handleRun], if one does. *)
Inductive pending :=
| AwaitRun (after : option nat)
| AwaitConfirm
| AwaitAdjust (index : nat) (bodyText : jsval) (snap : state)
| AwaitMedia (s : site) (snap : state)
| AwaitReader (s : site) (snap : state).

Record out := {
  next : state;
  effects : list effect;
  spawned : list pending
}.

Definition quiet (st : state) : out :=
  {| next := st; effects := []; spawned := [] |}.

Definition localeOf (l : Lang) : jsval :=
  match l with
  | zh => VStr (lit "zh")
  | en => VStr (lit "en")
  end.

Definition modeOf (m : Mode) : jsval :=
  match m with
  | Text => VStr (lit "text")
  | Audio => VStr (lit "audio")
  end.

(** [res?.data || res || {}] *)
Definition dataOf (res : jsval) : jsval :=
  or_else (or_else (get_opt res "data") res) (VObj ∅).

(** ** Analyze: [handleRun]

    [snap] is the render whose [handleRun] is called, [st] the state the
    setters act on. *)

Definition runBody (snap : state) (mode : Mode) (audioB64 overrideText : jsval) : jsval :=
  let body : gmap string jsval :=
    <["locale" := localeOf (lang snap)]> (<["mode" := modeOf mode]> ∅) in
  match mode with
  | Audio => VObj (<["audio_base64" := audioB64]> body)
  | Text => VObj (<["text" := coalesce overrideText (VStr (inputText snap))]> body)
  end.

Definition handleRun (snap : state) (mode : Mode) (audioB64 overrideText : jsval)
    (st : state) : out :=
  {| next := setConfirmResult VNull (setRunResult VNull (setIsProcessing true st));
     effects := [Post "/autopilot/run" (runBody snap mode audioB64 overrideText)];
     spawned := [AwaitRun None] |}.

(** [checks[i] = true] for every index of the preview list. *)
Definition allChecked (l : list jsval) : gmap nat bool :=
  list_to_map (imap (fun i _ => (i, true)) l).

(** The rest of [handleRun] once the request has settled: [Some res] is
    the value it resolved with, [None] a rejection. A truthy
    [actions_preview] that is no array has no [forEach]: the [TypeError]
    lands in the [catch] after the first two setters have run. *)
Definition handleRun_settled (r : option jsval) (st : state) : state * list effect :=
  match r with
  | None => (setIsProcessing false st, [Notify runError])
  | Some res =>
      let data := dataOf res in
      let st := setReplyDraft (or_else (prop data "reply_draft") (VObj ∅))
                  (setRunResult data st) in
      match or_else (prop data "actions_preview") (VArr []) with
      | VArr l =>
          (setIsProcessing false
             (setEditedActions l (setActionChecks (allChecked l) st)), [])
      | _ => (setIsProcessing false st, [Notify runError])
      end
  end.

(** ** Confirm: [handleConfirm] *)

Definition enabledAt (st : state) (i : nat) : bool :=
  default false (actionChecks st !! i).

(** [{ ...a, confirmed: !!actionChecks[i], skip: !actionChecks[i] }] *)
Definition confirmEntry (st : state) (i : nat) (a : jsval) : jsval :=
  VObj (<["skip" := VBool (negb (enabledAt st i))]>
          (<["confirmed" := VBool (enabledAt st i)]> (own_props a))).

Definition serializeForConfirmation (st : state) : list jsval :=
  imap (confirmEntry st) (editedActions st).

Definition handleConfirm (st : state) : out :=
  if truthy (get_opt (runResult st) "run_id") then
    {| next := setIsConfirming true st;
       effects :=
         [Post "/autopilot/confirm"
            (VObj (<["actions" := VArr (serializeForConfirmation st)]>
                     (<["run_id" := prop (runResult st) "run_id"]> ∅)))];
       spawned := [AwaitConfirm] |}
  else quiet st.

(** [results.some(r => r.action_type === "create_meeting" &&
    (r.status === "failed" || r.status === "blocked"))]; [None] is the
    [TypeError] of reading a property of a nullish element. *)
Fixpoint calendarFailed (results : list jsval) : option bool :=
  match results with
  | [] => Some false
  | r :: rest =>
      match get r "action_type" with
      | None => None
      | Some ty =>
          if is_str ty (lit "create_meeting")
             && (is_str (prop r "status") (lit "failed")
                 || is_str (prop r "status") (lit "blocked"))
          then Some true
          else calendarFailed rest
      end
  end.

Definition handleConfirm_settled (r : option jsval) (st : state) : state * list effect :=
  match r with
  | None => (setIsConfirming false st, [Notify confirmError])
  | Some res =>
      let data := dataOf res in
      let st := setConfirmResult data st in
      match or_else (get_opt data "results") (VArr []) with
      | VArr l =>
          match calendarFailed l with
          | Some true => (setIsConfirming false st, [Notify confirmCalendarFailed])
          | Some false => (setIsConfirming false st, [Notify confirmSuccess])
          | None => (setIsConfirming false st, [Notify confirmError])
          end
      | _ => (setIsConfirming false st, [Notify confirmError])
      end
  end.

(** ** The action-preview registry *)

(** The checkbox of action [i]:
    [setActionChecks((prev) => ({ ...prev, [i]: e.target.checked }))] *)
Definition toggle (i : nat) (checked : bool) (st : state) : state :=
  setActionChecks (<[i := checked]> (actionChecks st)) st.

(** The updater of [handleActionPayloadEdit] applied to [prev]; [None] is
    the [TypeError] of [copy[index].payload] when [copy[index]] is
    [undefined] or [null]. *)
Definition handleActionPayloadEdit (index : nat) (field : string) (value : jsval)
    (prev : list jsval) : option (list jsval) :=
  let at_index := default VUndef (prev !! index) in
  match get at_index "payload" with
  | None => None
  | Some payload =>
      Some (<[index :=
                VObj (<["payload" := VObj (<[field := value]> (own_props payload))]>
                        (own_props at_index))]> prev)
  end.

(** ** Reschedule recovery *)

(** [appendToAnalyzeInput(text)]: the merged input it returns, and the
    state after its [setInputText]. [inputText] is the one of the
    closure. *)
Definition appendToAnalyzeInput (snap : state) (line : list N) (st : state)
    : list N * state :=
  match line with
  | [] => ([], st)
  | _ :: _ =>
      let merged :=
        match inputText snap with
        | [] => line
        | _ :: _ => inputText snap ++ [10] ++ line
        end in
      (merged, setInputText merged st)
  end.

Definition timezone : list N := lit "America/Toronto".

Definition defaultTitle (l : Lang) : list N :=
  match l with
  | zh => [26085; 31243; 23433; 25490]
  | en => lit "Meeting"
  end.

(** The two template literals of [buildRescheduleLine], before [trim]. *)
Definition rescheduleTemplate (l : Lang) (title date start end_ tz : list N) : list N :=
  match l with
  | zh =>
      [25913; 26399; 26356; 26032; 65306; 23558; 12300] ++ title
      ++ [12301; 35843; 25972; 20026; 32] ++ date ++ [32] ++ start ++ [45] ++ end_
      ++ [65288; 26102; 21306; 65306] ++ tz ++ [65289; 12290]
  | en =>
      lit "Reschedule update: move " ++ [34] ++ title ++ [34] ++ lit " to "
      ++ date ++ [32] ++ start ++ [45] ++ end_
      ++ lit " (Timezone: " ++ tz ++ lit ")."
  end.

(** [buildRescheduleLine(action, rawText)]; [rawText] is not used by the
    source either. *)
Definition buildRescheduleLine (l : Lang) (action : jsval) (rawText : list N) : list N :=
  let payload := or_else (get_opt action "payload") (VObj ∅) in
  let title := or_else (prop payload "title") (VStr (defaultTitle l)) in
  let date := or_else (prop payload "date") (VStr []) in
  let start := or_else (prop payload "start_time") (VStr []) in
  let end_ := or_else (prop payload "end_time") (VStr []) in
  trim (rescheduleTemplate l (toString title) (toString date) (toString start)
          (toString end_) timezone).

(** The buffer shown for index [i]: [rescheduleInputs[i] || ""]. *)
Definition draftAt (st : state) (i : nat) : list N :=
  default [] (rescheduleInputs st !! i).

Definition loadingAt (st : state) (i : nat) : bool :=
  default false (rescheduleLoading st !! i).

Definition setLoadingAt (i : nat) (b : bool) (st : state) : state :=
  setRescheduleLoading (<[i := b]> (rescheduleLoading st)) st.

(** [handleReschedule(index, mode, audioB64)] up to its [await]. *)
Definition handleReschedule (snap : state) (index : nat) (mode : Mode)
    (audioB64 : jsval) (st : state) : out :=
  let action := default VUndef (editedActions snap !! index) in
  if truthy action then
    let base : gmap string jsval :=
      <["action" := action]>
        (<["locale" := localeOf (lang snap)]> (<["mode" := modeOf mode]> ∅)) in
    let bodyText :=
      match mode with
      | Audio => VUndef
      | Text => VStr (trim (draftAt snap index))
      end in
    let body :=
      match mode with
      | Audio => <["audio_base64" := audioB64]> base
      | Text => <["text" := bodyText]> base
      end in
    {| next := setLoadingAt index true st;
       effects := [Post "/autopilot/adjust-time" (VObj body)];
       spawned := [AwaitAdjust index bodyText snap] |}
  else quiet st.

(** The line [handleReschedule] resolves from the response: [None] is
    the [TypeError] of calling [trim] on a value that is no string. *)
Definition normalizedLine (l : Lang) (data bodyText : jsval) : option (list N) :=
  match trim_val (or_else (or_else (prop data "user_text") bodyText) (VStr [])) with
  | None => None
  | Some rawText =>
      Some (if truthy (prop data "action")
            then buildRescheduleLine l (prop data "action") rawText
            else rawText)
  end.

Definition awaitedBy (index : nat) (p : pending) : pending :=
  match p with
  | AwaitRun _ => AwaitRun (Some index)
  | _ => p
  end.

(** The rest of [handleReschedule] once [/autopilot/adjust-time] has
    settled. When a line was resolved the handler is suspended again, on
    [handleRun]; its [finally] runs when that call settles. *)
Definition handleReschedule_settled (snap : state) (index : nat) (bodyText : jsval)
    (r : option jsval) (st : state) : out :=
  match r with
  | None =>
      {| next := setLoadingAt index false st;
         effects := [Notify rescheduleError]; spawned := [] |}
  | Some res =>
      match normalizedLine (lang snap) (dataOf res) bodyText with
      | None =>
          {| next := setLoadingAt index false st;
             effects := [Notify rescheduleError]; spawned := [] |}
      | Some [] => quiet (setLoadingAt index false st)
      | Some line =>
          let '(nextInput, st1) := appendToAnalyzeInput snap line st in
          let st2 := setRescheduleInputs (<[index := []]> (rescheduleInputs st1)) st1 in
          let o := handleRun snap Text VNull (VStr nextInput) st2 in
          {| next := next o; effects := effects o;
             spawned := map (awaitedBy index) (spawned o) |}
      end
  end.

(** ** The page as a transition system

    Besides the rendered [state] the page has its two refs, the
    [MediaRecorder]s that are recording, and the promises not settled
    yet. Every promise and every recorder gets the next number of one
    counter, so numbers order them by the time they were issued. *)

Record world := {
  ui : state;
  mediaDevices : bool;
  mediaRecorderRef : option nat;
  rescheduleRecorderRef : option nat;
  recorders : list (nat * (site * state));
  inflight : list (nat * pending);
  issued : nat;
  log : list effect
}.

Definition boot (l : Lang) (devices : bool) : world :=
  {| ui := initial l; mediaDevices := devices; mediaRecorderRef := None;
     rescheduleRecorderRef := None; recorders := []; inflight := [];
     issued := 0%nat; log := [] |}.

Definition with_ui (f : state -> state) (w : world) : world :=
  {| ui := f (ui w); mediaDevices := mediaDevices w;
     mediaRecorderRef := mediaRecorderRef w;
     rescheduleRecorderRef := rescheduleRecorderRef w;
     recorders := recorders w; inflight := inflight w; issued := issued w;
     log := log w |}.

Definition emit (es : list effect) (w : world) : world :=
  {| ui := ui w; mediaDevices := mediaDevices w;
     mediaRecorderRef := mediaRecorderRef w;
     rescheduleRecorderRef := rescheduleRecorderRef w;
     recorders := recorders w; inflight := inflight w; issued := issued w;
     log := log w ++ es |}.

Definition suspend (p : pending) (w : world) : world :=
  {| ui := ui w; mediaDevices := mediaDevices w;
     mediaRecorderRef := mediaRecorderRef w;
     rescheduleRecorderRef := rescheduleRecorderRef w;
     recorders := recorders w; inflight := inflight w ++ [(issued w, p)];
     issued := S (issued w); log := log w |}.

Definition set_refs (m r : option nat) (rs : list (nat * (site * state)))
    (w : world) : world :=
  {| ui := ui w; mediaDevices := mediaDevices w; mediaRecorderRef := m;
     rescheduleRecorderRef := r; recorders := rs; inflight := inflight w;
     issued := issued w; log := log w |}.

Definition set_inflight (ps : list (nat * pending)) (w : world) : world :=
  {| ui := ui w; mediaDevices := mediaDevices w;
     mediaRecorderRef := mediaRecorderRef w;
     rescheduleRecorderRef := rescheduleRecorderRef w;
     recorders := recorders w; inflight := ps; issued := issued w;
     log := log w |}.

Definition bump (w : world) : world :=
  {| ui := ui w; mediaDevices := mediaDevices w;
     mediaRecorderRef := mediaRecorderRef w;
     rescheduleRecorderRef := rescheduleRecorderRef w;
     recorders := recorders w; inflight := inflight w;
     issued := S (issued w); log := log w |}.

(** Run the synchronous part of a handler. *)
Definition commit (o : out) (w : world) : world :=
  foldl (fun w p => suspend p w) (emit (effects o) (with_ui (fun _ => next o) w))
    (spawned o).

Definition commit_settled (r : state * list effect) (w : world) : world :=
  emit r.2 (with_ui (fun _ => r.1) w).

Fixpoint lookup_id {A} (id : nat) (l : list (nat * A)) : option A :=
  match l with
  | [] => None
  | (k, x) :: l' => if Nat.eqb k id then Some x else lookup_id id l'
  end.

Fixpoint remove_id {A} (id : nat) (l : list (nat * A)) : list (nat * A) :=
  match l with
  | [] => []
  | (k, x) :: l' => if Nat.eqb k id then l' else (k, x) :: remove_id id l'
  end.

(** *** Recording *)

Definition handleStartRecording (w : world) : world :=
  if mediaDevices w then suspend (AwaitMedia primary (ui w)) w
  else emit [Notify browserNotSupported] w.

Definition handleRescheduleStartRecording (index : nat) (w : world) : world :=
  if mediaDevices w then suspend (AwaitMedia (at_index index) (ui w)) w
  else emit [Notify browserNotSupported] w.

(** The rest of both start handlers once [getUserMedia] has settled:
    [granted] tells whether it resolved with a stream. *)
Definition startRecording_settled (s : site) (snap : state) (granted : bool)
    (w : world) : world :=
  if granted then
    let id := issued w in
    let rs := recorders w ++ [(id, (s, snap))] in
    let w := bump w in
    match s with
    | primary =>
        with_ui (setIsRecording true)
          (set_refs (Some id) (rescheduleRecorderRef w) rs w)
    | at_index i =>
        with_ui (setRescheduleRecordingIndex (Some i))
          (set_refs (mediaRecorderRef w) (Some id) rs w)
    end
  else emit [Notify micDenied] w.

(** [recorder.stop()]: the recorder leaves the recording state and its
    [onstop] starts the [FileReader]. *)
Definition stopRecorder (id : nat) (w : world) : world :=
  match lookup_id id (recorders w) with
  | Some (s, snap) =>
      suspend (AwaitReader s snap)
        (set_refs (mediaRecorderRef w) (rescheduleRecorderRef w)
           (remove_id id (recorders w)) w)
  | None => w
  end.

Definition handleStopRecording (w : world) : world :=
  match mediaRecorderRef w with
  | Some id =>
      let w := stopRecorder id w in
      with_ui (setIsRecording false)
        (set_refs None (rescheduleRecorderRef w) (recorders w) w)
  | None => w
  end.

Definition handleRescheduleStopRecording (w : world) : world :=
  match rescheduleRecorderRef w with
  | Some id =>
      let w := stopRecorder id w in
      with_ui (setRescheduleRecordingIndex None)
        (set_refs (mediaRecorderRef w) None (recorders w) w)
  | None => w
  end.

(** [reader.onloadend] of a stopped recorder: the continuation of the
    site, called from the closure of the render that started it. *)
Definition reader_settled (s : site) (snap : state) (b64 : jsval) (w : world) : world :=
  match s with
  | primary => commit (handleRun snap Audio b64 VNull (ui w)) w
  | at_index i => commit (handleReschedule snap i Audio b64 (ui w)) w
  end.

(** *** What the rendered page lets the user do *)

Definition resultsShown (st : state) : bool :=
  truthy (runResult st) && negb (isProcessing st).

Definition anyChecked (st : state) : bool :=
  existsb snd (map_to_list (actionChecks st)).

(** The reschedule controls of result [i] are rendered. *)
Definition rescheduleShown (st : state) (i : nat) : bool :=
  resultsShown st && truthy (confirmResult st)
  && match prop (confirmResult st) "results" with
     | VArr l =>
         match l !! i with
         | Some r =>
             is_str (prop r "status") (lit "blocked")
             && is_str (prop r "action_type") (lit "create_meeting")
         | None => false
         end
     | _ => false
     end.

Definition nonBlank (s : list N) : bool :=
  match trim s with
  | [] => false
  | _ :: _ => true
  end.

(** What happens to the page: the user acts on a control, or a promise
    settles. [api.postAPI], [getUserMedia] and the [FileReader] are
    outside the page; [Settle id (Some v)] says that promise [id]
    resolved with [v], [Settle id None] that it was rejected. *)
Inductive event :=
| TypeInput (value : list N)
| ClickAnalyze
| ClickRecord
| ClickConfirm
| Tick (i : nat) (checked : bool)
| EditField (i : nat) (k : string) (value : list N)
| TypeReschedule (i : nat) (value : list N)
| EnterReschedule (i : nat)
| ClickReschedule (i : nat)
| ClickRescheduleRecord (i : nat)
| Settle (id : nat) (r : option jsval).

Definition guard (b : bool) (w : world) : option world :=
  if b then Some w else None.

(** A promise settles: the handler suspended on it runs on. *)
Definition resume (p : pending) (r : option jsval) (w : world) : world :=
  match p with
  | AwaitRun after =>
      let w := commit_settled (handleRun_settled r (ui w)) w in
      match after with
      | Some index => with_ui (setLoadingAt index false) w
      | None => w
      end
  | AwaitConfirm => commit_settled (handleConfirm_settled r (ui w)) w
  | AwaitAdjust index bodyText snap =>
      commit (handleReschedule_settled snap index bodyText r (ui w)) w
  | AwaitMedia s snap =>
      startRecording_settled s snap (bool_decide (is_Some r)) w
  | AwaitReader s snap =>
      match r with
      | Some b64 => reader_settled s snap b64 w
      | None => w
      end
  end.

(** One event of the page. [None]: the control is not rendered or is
    disabled in this state, the promise is not in flight, or the updater
    of a payload edit raised. *)
Definition step (e : event) (w : world) : option world :=
  let st := ui w in
  match e with
  | TypeInput value =>
      guard (negb (isProcessing st)) (with_ui (setInputText value) w)
  | ClickAnalyze =>
      guard (nonBlank (inputText st) && negb (isProcessing st))
        (commit (handleRun st Text VNull VNull st) w)
  | ClickRecord =>
      guard (negb (isProcessing st))
        (if isRecording st then handleStopRecording w else handleStartRecording w)
  | ClickConfirm =>
      guard (resultsShown st && anyChecked st && negb (isConfirming st))
        (commit (handleConfirm st) w)
  | Tick i checked =>
      guard (resultsShown st && bool_decide (i < length (editedActions st))%nat)
        (with_ui (toggle i checked) w)
  | EditField i k value =>
      match editedActions st !! i with
      | Some a =>
          if resultsShown st
             && bool_decide (k ∈ dom (own_props (or_else (prop a "payload") (VObj ∅))))
          then
            match handleActionPayloadEdit i k (VStr value) (editedActions st) with
            | Some l => Some (with_ui (setEditedActions l) w)
            | None => None
            end
          else None
      | None => None
      end
  | TypeReschedule i value =>
      guard (rescheduleShown st i && negb (loadingAt st i))
        (with_ui (fun st => setRescheduleInputs (<[i := value]> (rescheduleInputs st)) st) w)
  | EnterReschedule i =>
      guard (rescheduleShown st i && negb (loadingAt st i))
        (if nonBlank (draftAt st i)
         then commit (handleReschedule st i Text VNull st) w
         else w)
  | ClickReschedule i =>
      guard (rescheduleShown st i && nonBlank (draftAt st i) && negb (loadingAt st i))
        (commit (handleReschedule st i Text VNull st) w)
  | ClickRescheduleRecord i =>
      guard (rescheduleShown st i && negb (loadingAt st i))
        (if bool_decide (rescheduleRecordingIndex st = Some i)
         then handleRescheduleStopRecording w
         else handleRescheduleStartRecording i w)
  | Settle id r =>
      match lookup_id id (inflight w) with
      | Some p => Some (resume p r (set_inflight (remove_id id (inflight w)) w))
      | None => None
      end
  end.

(** Run a list of events from a world; [None] as soon as one of them is
    not possible. *)
Fixpoint run (es : list event) (w : world) : option world :=
  match es with
  | [] => Some w
  | e :: es' =>
      match step e w with
      | Some w' => run es' w'
      | None => None
      end
  end.

Definition reachable (w : world) : Prop :=
  exists l devices es, run es (boot l devices) = Some w.

(** ** Vocabulary of the properties *)

(** *** Rendered HTML *)

(** The five characters [escapeHtml] replaces. *)
Definition special (c : N) : bool :=
  (c =? 38) || (c =? 60) || (c =? 62) || (c =? 34) || (c =? 39).

(** The entity of a special character; any other character stands for
    itself. *)
Definition entity (c : N) : list N :=
  if c =? 38 then lit "&amp;"
  else if c =? 60 then lit "&lt;"
  else if c =? 62 then lit "&gt;"
  else if c =? 34 then lit "&quot;"
  else if c =? 39 then lit "&#039;"
  else [c].

Definition wrappers : list (list N) := [lit "<p>"; lit "</p>"; lit "<br/>"].

(** Text made of characters that are not special, entities, and the
    three wrapper tags: every [<] and [>] in it belongs to a wrapper,
    every [&] starts an entity, and it has no quote. *)
Inductive Rendered : list N -> Prop :=
| Rendered_nil : Rendered []
| Rendered_char c s : special c = false -> Rendered s -> Rendered (c :: s)
| Rendered_entity c s : special c = true -> Rendered s -> Rendered (entity c ++ s)
| Rendered_tag t s : t ∈ wrappers -> Rendered s -> Rendered (t ++ s).

(** One paragraph of the output, from the lines of a block. *)
Definition paragraph (lines : list (list N)) : list N :=
  lit "<p>" ++ join (lit "<br/>") (map (flat_map entity) lines) ++ lit "</p>".

(** *** Calls on the action-preview registry *)

Inductive call :=
| Toggle (index : nat) (enabled : bool)
| EditPayloadField (index : nat) (field : string) (value : jsval).

Definition call_index (c : call) : nat :=
  match c with
  | Toggle i _ => i
  | EditPayloadField i _ _ => i
  end.

Definition apply_call (c : call) (st : state) : option state :=
  match c with
  | Toggle i b => Some (toggle i b st)
  | EditPayloadField i f v =>
      match handleActionPayloadEdit i f v (editedActions st) with
      | Some l => Some (setEditedActions l st)
      | None => None
      end
  end.

Fixpoint apply_calls (cs : list call) (st : state) : option state :=
  match cs with
  | [] => Some st
  | c :: cs' =>
      match apply_call c st with
      | Some st' => apply_calls cs' st'
      | None => None
      end
  end.

Definition toggles (i : nat) (c : call) : bool :=
  match c with
  | Toggle j _ => bool_decide (j = i)
  | EditPayloadField _ _ _ => false
  end.

Definition edits (i : nat) (c : call) : bool :=
  match c with
  | Toggle _ _ => false
  | EditPayloadField j _ _ => bool_decide (j = i)
  end.

Definition edits_field (i : nat) (f : string) (c : call) : bool :=
  match c with
  | Toggle _ _ => false
  | EditPayloadField j g _ => bool_decide (j = i) && bool_decide (g = f)
  end.

(** The cells of the state that are not the registry. *)
Definition same_elsewhere (st st' : state) : Prop :=
  lang st' = lang st /\ inputText st' = inputText st
  /\ isRecording st' = isRecording st /\ isProcessing st' = isProcessing st
  /\ isConfirming st' = isConfirming st /\ runResult st' = runResult st
  /\ confirmResult st' = confirmResult st /\ replyDraft st' = replyDraft st
  /\ rescheduleInputs st' = rescheduleInputs st
  /\ rescheduleLoading st' = rescheduleLoading st
  /\ rescheduleRecordingIndex st' = rescheduleRecordingIndex st.

(** What the calls [cs] left alone on the way from [st] to [st']: the
    length of the list, the flag of every index no call toggled, the
    action of every index no call edited, and in every action each
    property other than [payload] and each payload field no call named. *)
Definition untouched (cs : list call) (st st' : state) : Prop :=
  length (editedActions st') = length (editedActions st)
  /\ (forall i, existsb (toggles i) cs = false ->
        actionChecks st' !! i = actionChecks st !! i)
  /\ (forall i, existsb (edits i) cs = false ->
        editedActions st' !! i = editedActions st !! i)
  /\ (forall i a a',
        editedActions st !! i = Some a -> editedActions st' !! i = Some a' ->
        (forall k, k <> "payload" -> own_props a' !! k = own_props a !! k)
        /\ (forall f, existsb (edits_field i f) cs = false ->
              own_props (prop a' "payload") !! f = own_props (prop a "payload") !! f))
  /\ same_elsewhere st st'.

(** *** Runs in which no analyze response carries a run id *)

Definition assigns_run_id (e : event) (w : world) : bool :=
  match e with
  | Settle id (Some res) =>
      match lookup_id id (inflight w) with
      | Some (AwaitRun _) => truthy (prop (dataOf res) "run_id")
      | _ => false
      end
  | _ => false
  end.

(** [run], stopping at an analyze response that carries a run id. *)
Fixpoint run_without_id (es : list event) (w : world) : option world :=
  match es with
  | [] => Some w
  | e :: es' =>
      if assigns_run_id e w then None
      else match step e w with
           | Some w' => run_without_id es' w'
           | None => None
           end
  end.

(** The worlds the page reaches before any successful analyze has
    assigned a run id. *)
Definition unassigned (w : world) : Prop :=
  exists l devices es, run_without_id es (boot l devices) = Some w.



(** The visible run has no id: [!runResult?.run_id]. *)
Definition no_run_id (st : state) : Prop :=
  truthy (get_opt (runResult st) "run_id") = false.

(** *** Recording sites *)

(** The sites whose [MediaRecorder] is recording. *)
Definition recordingSites (w : world) : list site :=
  map (fun r => r.2.1) (recorders w).

(** The numbers of the calls in flight are below the counter. *)
Definition numbered (w : world) : Prop :=
  Forall (fun p => (p.1 < issued w)%nat) (inflight w).

(** The requests a world has sent to [url], oldest first. *)
Definition posts (url : string) (w : world) : list jsval :=
  omap (fun e => match e with
                 | Post u body => if bool_decide (u = url) then Some body else None
                 | Notify _ => None
                 end) (log w).

(** *** The reschedule line *)

(** What the template inserts for the payload field [k] of the adjusted
    action: the field as a string, or [dflt] when it is missing or
    falsy. *)
Definition templateField (action : jsval) (k : string) (dflt : list N) : list N :=
  toString (or_else (prop (or_else (get_opt action "payload") (VObj ∅)) k) (VStr dflt)).

(** The raw text of a correction: [data.user_text || body.text || ""]. *)
Definition rawTextOf (data bodyText : jsval) : jsval :=
  or_else (or_else (prop data "user_text") bodyText) (VStr []).

(** The primary input with [line] appended, on a new line when the
    input is not empty. *)
Definition mergedInput (input line : list N) : list N :=
  match input with
  | [] => line
  | _ :: _ => input ++ [10] ++ line
  end.

(** The notices a world has shown, oldest first. *)
Definition notices (w : world) : list notice :=
  omap (fun e => match e with
                 | Notify n => Some n
                 | Post _ _ => None
                 end) (log w).

(** *** Scenarios *)

Definition obj (l : list (string * jsval)) : jsval := VObj (list_to_map l).

Definition str (s : string) : jsval := VStr (lit s).

Definition demoAction : jsval :=
  obj [("action_type", str "create_meeting"); ("confidence", VNum 1);
       ("preview", str "Demo next Tuesday 2pm");
       ("payload", obj [("title", str "Demo"); ("date", str "2026-02-10")])].

Definition demoRun (id : string) : jsval :=
  obj [("run_id", str id); ("actions_preview", VArr [demoAction])].

Definition demoBlocked : jsval :=
  obj [("results",
        VArr [obj [("action_type", str "create_meeting"); ("status", str "blocked")]])].

(** Analyze a typed request, confirm it, and get the meeting blocked. *)
Definition toBlocked : list event :=
  [TypeInput (lit "schedule a demo next Tuesday 2pm"); ClickAnalyze;
   Settle 0 (Some (demoRun "r1")); ClickConfirm; Settle 1 (Some demoBlocked)].

(** A draft typed for the blocked meeting, then a second analyze of the
    main input that succeeds. *)
Definition draftThenAnalyze : list event :=
  toBlocked
  ++ [TypeReschedule 0 (lit "move to 3pm");
      TypeInput (lit "schedule a demo next Friday 2pm"); ClickAnalyze;
      Settle 2 (Some (demoRun "r2"))].

(** A recording is stopped and, before its audio is read, the typed text
    is analyzed: call 3 is the text analyze, call 4 the audio analyze. *)
Definition twoAnalyzes : list event :=
  [TypeInput (lit "schedule a demo"); ClickRecord; Settle 0 (Some VUndef);
   ClickRecord; ClickAnalyze; Settle 2 (Some (str "UklGRg=="))].

(** The main input is recording when recording starts at the blocked
    meeting. *)
Definition twoRecordings : list event :=
  toBlocked
  ++ [ClickRecord; Settle 2 (Some VUndef);
      ClickRescheduleRecord 0; Settle 4 (Some VUndef)].

(** A correction is recorded for the blocked meeting, with a draft typed
    before, and the backend returns neither text nor action. *)
Definition emptyCorrection : list event :=
  toBlocked
  ++ [TypeReschedule 0 (lit "later"); ClickRescheduleRecord 0;
      Settle 2 (Some VUndef); ClickRescheduleRecord 0;
      Settle 4 (Some (str "UklGRg==")); Settle 5 (Some (obj []))].

(** The world in which the meeting is blocked and the main input is
    recording. *)
Definition recordingPrimary : world :=
  default (boot en true)
    (run (toBlocked ++ [ClickRecord; Settle 2 (Some VUndef)]) (boot en true)).

(** The state of the page once the run [r1] is shown. *)
Definition previewed : state :=
  setEditedActions [demoAction]
    (setActionChecks (allChecked [demoAction])
       (setRunResult (demoRun "r1")
          (setInputText (lit "schedule a demo next Tuesday 2pm") (initial en)))).

(** A second action, and the page with the demo action ticked and the
    second one unticked. *)
Definition slackAction : jsval :=
  obj [("action_type", str "send_slack_summary"); ("confidence", VNum 1);
       ("preview", str "Post the summary to the sales channel");
       ("payload", obj [("channel", str "sales")])].

Definition twoActions : state :=
  toggle 1 false
    (setEditedActions [demoAction; slackAction]
       (setActionChecks (allChecked [demoAction; slackAction])
          (setRunResult (demoRun "r1") (initial en)))).

(** An analyze response that has a preview and no run id, and the world
    that shows it. *)
Definition previewOnly : jsval := obj [("actions_preview", VArr [demoAction])].

Definition analyzedWithoutId : list event :=
  [TypeInput (lit "schedule a demo"); ClickAnalyze; Settle 0 (Some previewOnly)].

Definition noRunId : world :=
  default (boot en true) (run analyzedWithoutId (boot en true)).



(** The world with the text analyze 3 and the audio analyze 4 in
    flight. *)
Definition twoInFlight : world :=
  default (boot en true) (run twoAnalyzes (boot en true)).


(** A correction response with an adjusted action. *)
Definition adjustedTo3pm : jsval :=
  obj [("user_text", str "move to 3pm");
       ("action",
        obj [("action_type", str "create_meeting");
             ("payload",
              obj [("title", str "Demo"); ("date", str "2026-02-14");
                   ("start_time", str "15:00"); ("end_time", str "16:00")])])].

Definition lineTo3pm : list N :=
  lit "Reschedule update: move " ++ [34] ++ lit "Demo" ++ [34]
  ++ lit " to 2026-02-14 15:00-16:00 (Timezone: America/Toronto).".

(** *** Reading rendered text back *)

(** The text of which [s] is the escaped form: each of the five entities
    stands for its character. [skip] counts the code units of a matched
    entity that are still to be passed. *)
Fixpoint unescape_skip (skip : nat) (s : list N) : list N :=
  match s with
  | [] => []
  | c :: s' =>
      match skip with
      | S k => unescape_skip k s'
      | O =>
          if isPrefix (lit "&amp;") s then 38 :: unescape_skip 4 s'
          else if isPrefix (lit "&lt;") s then 60 :: unescape_skip 3 s'
          else if isPrefix (lit "&gt;") s then 62 :: unescape_skip 3 s'
          else if isPrefix (lit "&quot;") s then 34 :: unescape_skip 5 s'
          else if isPrefix (lit "&#039;") s then 39 :: unescape_skip 5 s'
          else c :: unescape_skip 0 s'
      end
  end.

Definition unescapeHtml (s : list N) : list N := unescape_skip 0 s.

(** No character of the string is one of the five [escapeHtml] replaces. *)
Definition plain (s : list N) : bool := forallb (fun c => negb (special c)) s.

(** Every character of the string is white space. *)
Definition blank (s : list N) : bool := forallb isWhiteSpace s.

(** *** The registry and the list of enabled flags *)

(** There is a flag for exactly the indices of the action list. *)
Definition aligned (st : state) : Prop :=
  forall i, is_Some (actionChecks st !! i) <-> (i < length (editedActions st))%nat.

(** The action edited in place: its payload gets [field := value]. *)
Definition edited (a : jsval) (field : string) (value : jsval) : jsval :=
  VObj (<["payload" := VObj (<[field := value]> (own_props (prop a "payload")))]>
          (own_props a)).

(** The two cells of the registry are the same in both states. *)
Definition same_registry (st st' : state) : Prop :=
  actionChecks st' = actionChecks st /\ editedActions st' = editedActions st.

(** *** Calls in flight *)

(** Some call in flight is of the kind [K]. *)
Definition waits (K : pending -> bool) (w : world) : bool :=
  existsb (fun p => K p.2) (inflight w).

Definition isRun (p : pending) : bool :=
  match p with
  | AwaitRun _ => true
  | _ => false
  end.

Definition isConfirm (p : pending) : bool :=
  match p with
  | AwaitConfirm => true
  | _ => false
  end.

(** The calls that keep the loading mark of index [i]: its correction
    request, and the analyze its [handleReschedule] waits for. *)
Definition loads (i : nat) (p : pending) : bool :=
  match p with
  | AwaitAdjust j _ _ => bool_decide (j = i)
  | AwaitRun (Some j) => bool_decide (j = i)
  | _ => false
  end.

(** The kinds of call the busy marks are about. *)
Definition tracked (K : pending -> bool) : Prop :=
  K = isRun \/ K = isConfirm \/ exists i, K = loads i.

(** Every busy mark of the page has a call in flight that will end it. *)
Definition busy_ok (w : world) : Prop :=
  (isProcessing (ui w) = true -> waits isRun w = true)
  /\ (isConfirming (ui w) = true -> waits isConfirm w = true)
  /\ (forall i, loadingAt (ui w) i = true -> waits (loads i) w = true).

(** *** Requests *)

(** What every request of the page satisfies: a confirm request names
    the run and carries a list of actions; a correction request carries
    the action it corrects and, in text mode, a trimmed text that is not
    empty; an analyze request in text mode carries a text that is not
    blank. *)
Definition well_sent (e : effect) : Prop :=
  match e with
  | Post url body =>
      (url = "/autopilot/confirm" ->
       truthy (prop body "run_id") = true /\ exists l, prop body "actions" = VArr l)
      /\ (url = "/autopilot/adjust-time" ->
          truthy (prop body "action") = true
          /\ (prop body "mode" = str "text" ->
              exists s, prop body "text" = VStr s /\ s <> [] /\ trim s = s))
      /\ (url = "/autopilot/run" ->
          prop body "mode" = str "text" ->
          exists s, prop body "text" = VStr s /\ nonBlank s = true)
  | Notify _ => True
  end.

Definition sent_ok (w : world) : Prop := Forall well_sent (log w).

(** *** Confirm results *)

(** A result that makes the calendar warning: a meeting that failed or
    is blocked. *)
Definition meetingFailed (r : jsval) : bool :=
  is_str (prop r "action_type") (lit "create_meeting")
  && (is_str (prop r "status") (lit "failed")
      || is_str (prop r "status") (lit "blocked")).

(** *** Recorders *)

(** How a step can change the recorders, the two refs and the two
    recording marks: not at all; a recorder starts, with the next
    number, and becomes the one of its site; or the recorder a ref names
    stops. *)
Inductive rec_move (w w' : world) : Prop :=
| rec_same :
    recorders w' = recorders w ->
    mediaRecorderRef w' = mediaRecorderRef w ->
    rescheduleRecorderRef w' = rescheduleRecorderRef w ->
    isRecording (ui w') = isRecording (ui w) ->
    rescheduleRecordingIndex (ui w') = rescheduleRecordingIndex (ui w) ->
    (issued w <= issued w')%nat ->
    rec_move w w'
| rec_start_primary snap :
    recorders w' = recorders w ++ [(issued w, (primary, snap))] ->
    mediaRecorderRef w' = Some (issued w) ->
    rescheduleRecorderRef w' = rescheduleRecorderRef w ->
    isRecording (ui w') = true ->
    rescheduleRecordingIndex (ui w') = rescheduleRecordingIndex (ui w) ->
    (issued w < issued w')%nat ->
    rec_move w w'
| rec_start_index i snap :
    recorders w' = recorders w ++ [(issued w, (at_index i, snap))] ->
    mediaRecorderRef w' = mediaRecorderRef w ->
    rescheduleRecorderRef w' = Some (issued w) ->
    isRecording (ui w') = isRecording (ui w) ->
    rescheduleRecordingIndex (ui w') = Some i ->
    (issued w < issued w')%nat ->
    rec_move w w'
| rec_stop_primary id :
    mediaRecorderRef w = Some id ->
    recorders w' = remove_id id (recorders w) ->
    mediaRecorderRef w' = None ->
    rescheduleRecorderRef w' = rescheduleRecorderRef w ->
    isRecording (ui w') = false ->
    rescheduleRecordingIndex (ui w') = rescheduleRecordingIndex (ui w) ->
    (issued w <= issued w')%nat ->
    rec_move w w'
| rec_stop_index id :
    rescheduleRecorderRef w = Some id ->
    recorders w' = remove_id id (recorders w) ->
    mediaRecorderRef w' = mediaRecorderRef w ->
    rescheduleRecorderRef w' = None ->
    isRecording (ui w') = isRecording (ui w) ->
    rescheduleRecordingIndex (ui w') = None ->
    (issued w <= issued w')%nat ->
    rec_move w w'.

(** The refs and the marks agree with the recorders: the recorders'
    numbers are below the counter; the main input is marked as recording
    exactly when its ref holds a recorder, and that recorder is
    recording for the main input; the reschedule ref holds a recorder
    exactly when an index is marked, and that recorder is recording for
    the marked index. *)
Definition recorders_ok (w : world) : Prop :=
  Forall (fun p => (p.1 < issued w)%nat) (recorders w)
  /\ (isRecording (ui w) = true <-> is_Some (mediaRecorderRef w))
  /\ (forall id, mediaRecorderRef w = Some id ->
        exists snap, lookup_id id (recorders w) = Some (primary, snap))
  /\ (forall id, rescheduleRecorderRef w = Some id ->
        exists i snap,
          lookup_id id (recorders w) = Some (at_index i, snap)
          /\ rescheduleRecordingIndex (ui w) = Some i)
  /\ (rescheduleRecorderRef w = None -> rescheduleRecordingIndex (ui w) = None).

(** A recorder that is recording and that neither ref names. *)
Definition orphan (id : nat) (w : world) : Prop :=
  is_Some (lookup_id id (recorders w))
  /\ mediaRecorderRef w <> Some id
  /\ rescheduleRecorderRef w <> Some id.

(** Two clicks on the record button before access is granted, then
    access is granted twice. *)
Definition doubleStart : world :=
  default (boot en true)
    (run [ClickRecord; ClickRecord; Settle 0 (Some VUndef); Settle 1 (Some VUndef)]
       (boot en true)).

(** *** User events *)

Definition is_settle (e : event) : bool :=
  match e with
  | Settle _ _ => true
  | _ => false
  end.

(** ** The language context

    [i18n/LanguageContext.jsx] and the table of [i18n/translations.js].
    Keys are names, as the properties of objects are. *)

Definition translations : jsval :=
  obj
   [("zh",
     obj
      [("nav",
        obj
         [("home",
           VStr
             [20027; 39029]);
          ("record",
           VStr
             [35760; 24405]);
          ("switchTo",
           VStr
             [69; 110; 103; 108; 105; 115; 104])]);
       ("home",
        obj
         [("startConversation",
           VStr
             [24320; 22987; 35821; 38899; 23545; 35805]);
          ("greeting",
           VStr
             [24744; 22909; 65292; 25105; 26159; 24744; 30340; 26085; 31243;
             21161; 25163; 65292; 20320; 35201; 35760; 24405; 20160; 20040;
             26085; 31243; 65311]);
          ("title",
           VStr
             [35821; 38899; 39537; 21160; 26085; 31243; 21161; 25163]);
          ("subtitle",
           VStr
             [28857; 20987; 19979; 26041; 25353; 38062; 24320; 22987; 35828;
             35805; 65292; 25105; 20250; 24110; 20320; 22312; 32; 71; 111;
             111; 103; 108; 101; 32; 26085; 21382; 37324; 21019; 24314;
             26085; 31243]);
          ("hintRecording",
           VStr
             [27491; 22312; 24405; 38899; 65292; 35831; 24320; 22987; 35828;
             20986; 20320; 30340; 26085; 31243; 38656; 27714; 8230]);
          ("hintIdle",
           VStr
             [28857; 20987; 8220; 24320; 22987; 24405; 38899; 8221; 65292;
             35828; 20986; 20363; 22914; 65306; 26126; 22825; 19978; 21320;
             21313; 28857; 21040; 21313; 19968; 28857; 21644; 20844; 21496;
             32; 67; 69; 79; 32; 20250; 35758]);
          ("stopRecording",
           VStr
             [20572; 27490; 24405; 38899]);
          ("startRecording",
           VStr
             [24320; 22987; 24405; 38899])]);
       ("record",
        obj
         [("title",
           VStr
             [35760; 24405; 39029; 38754])]);
       ("roles",
        obj
         [("ai",
           VStr
             [65; 73]);
          ("user",
           VStr
             [20320])]);
       ("errors",
        obj
         [("playAiAudio",
           VStr
             [25773; 25918; 32; 65; 73; 32; 35821; 38899; 22833; 36133]);
          ("processingFailed",
           VStr
             [22788; 29702; 35821; 38899; 22833; 36133; 65292; 35831; 31245;
             21518; 37325; 35797]);
          ("browserNotSupported",
           VStr
             [24403; 21069; 27983; 35272; 22120; 19981; 25903; 25345; 35821;
             38899; 24405; 21046]);
          ("micDenied",
           VStr
             [26080; 27861; 35775; 38382; 40614; 20811; 39118; 65292; 35831;
             26816; 26597; 26435; 38480; 35774; 32622])])]);
    ("en",
     obj
      [("nav",
        obj
         [("home",
           VStr
             [72; 111; 109; 101]);
          ("record",
           VStr
             [82; 101; 99; 111; 114; 100]);
          ("switchTo",
           VStr
             [20013; 25991])]);
       ("home",
        obj
         [("startConversation",
           VStr
             [83; 116; 97; 114; 116; 32; 86; 111; 105; 99; 101; 32; 67; 111;
             110; 118; 101; 114; 115; 97; 116; 105; 111; 110]);
          ("greeting",
           VStr
             [72; 105; 44; 32; 73; 39; 109; 32; 121; 111; 117; 114; 32; 115;
             99; 104; 101; 100; 117; 108; 101; 32; 97; 115; 115; 105; 115;
             116; 97; 110; 116; 46; 32; 87; 104; 97; 116; 32; 119; 111; 117;
             108; 100; 32; 121; 111; 117; 32; 108; 105; 107; 101; 32; 116;
             111; 32; 97; 100; 100; 63]);
          ("title",
           VStr
             [86; 111; 105; 99; 101; 45; 68; 114; 105; 118; 101; 110; 32; 83;
             99; 104; 101; 100; 117; 108; 101; 32; 65; 115; 115; 105; 115;
             116; 97; 110; 116]);
          ("subtitle",
           VStr
             [67; 108; 105; 99; 107; 32; 116; 104; 101; 32; 98; 117; 116;
             116; 111; 110; 32; 98; 101; 108; 111; 119; 32; 97; 110; 100; 32;
             115; 112; 101; 97; 107; 59; 32; 73; 39; 108; 108; 32; 99; 114;
             101; 97; 116; 101; 32; 101; 118; 101; 110; 116; 115; 32; 105;
             110; 32; 71; 111; 111; 103; 108; 101; 32; 67; 97; 108; 101; 110;
             100; 97; 114; 46]);
          ("hintRecording",
           VStr
             [82; 101; 99; 111; 114; 100; 105; 110; 103; 8230; 32; 112; 108;
             101; 97; 115; 101; 32; 115; 97; 121; 32; 121; 111; 117; 114; 32;
             115; 99; 104; 101; 100; 117; 108; 105; 110; 103; 32; 114; 101;
             113; 117; 101; 115; 116; 46]);
          ("hintIdle",
           VStr
             [67; 108; 105; 99; 107; 32; 8220; 83; 116; 97; 114; 116; 32; 82;
             101; 99; 111; 114; 100; 105; 110; 103; 8221; 32; 97; 110; 100;
             32; 115; 97; 121; 44; 32; 102; 111; 114; 32; 101; 120; 97; 109;
             112; 108; 101; 58; 32; 116; 111; 109; 111; 114; 114; 111; 119;
             32; 49; 48; 8211; 49; 49; 97; 109; 32; 119; 105; 116; 104; 32;
             116; 104; 101; 32; 67; 69; 79; 46]);
          ("stopRecording",
           VStr
             [83; 116; 111; 112; 32; 82; 101; 99; 111; 114; 100; 105; 110;
             103]);
          ("startRecording",
           VStr
             [83; 116; 97; 114; 116; 32; 82; 101; 99; 111; 114; 100; 105;
             110; 103])]);
       ("record",
        obj
         [("title",
           VStr
             [82; 101; 99; 111; 114; 100; 32; 80; 97; 103; 101])]);
       ("roles",
        obj
         [("ai",
           VStr
             [65; 73]);
          ("user",
           VStr
             [89; 111; 117])]);
       ("errors",
        obj
         [("playAiAudio",
           VStr
             [70; 97; 105; 108; 101; 100; 32; 116; 111; 32; 112; 108; 97;
             121; 32; 65; 73; 32; 97; 117; 100; 105; 111]);
          ("processingFailed",
           VStr
             [70; 97; 105; 108; 101; 100; 32; 116; 111; 32; 112; 114; 111;
             99; 101; 115; 115; 32; 97; 117; 100; 105; 111; 46; 32; 80; 108;
             101; 97; 115; 101; 32; 116; 114; 121; 32; 97; 103; 97; 105; 110;
             46]);
          ("browserNotSupported",
           VStr
             [89; 111; 117; 114; 32; 98; 114; 111; 119; 115; 101; 114; 32;
             100; 111; 101; 115; 32; 110; 111; 116; 32; 115; 117; 112; 112;
             111; 114; 116; 32; 97; 117; 100; 105; 111; 32; 114; 101; 99;
             111; 114; 100; 105; 110; 103]);
          ("micDenied",
           VStr
             [77; 105; 99; 114; 111; 112; 104; 111; 110; 101; 32; 97; 99; 99;
             101; 115; 115; 32; 100; 101; 110; 105; 101; 100; 46; 32; 80;
             108; 101; 97; 115; 101; 32; 99; 104; 101; 99; 107; 32; 112; 101;
             114; 109; 105; 115; 115; 105; 111; 110; 115; 46])])])].

(** The string the context holds for a language. *)
Definition langName (l : Lang) : string :=
  match l with
  | zh => "zh"
  | en => "en"
  end.

(** [key.split(".")] *)
Fixpoint splitDots (key : string) : list string :=
  match key with
  | EmptyString => [EmptyString]
  | String c key' =>
      if Ascii.eqb c "."%char then EmptyString :: splitDots key'
      else match splitDots key' with
           | p :: ps => String c p :: ps
           | [] => [String c EmptyString]
           end
  end.

(** The loop of [resolveKey]. A property an object only inherits is a
    function or a prototype, from which no string is reached: it is read
    as [undefined], which leaves the result of [t] the same. *)
Fixpoint walk (current : jsval) (parts : list string) : jsval :=
  match parts with
  | [] => current
  | part :: rest =>
      match current with
      | VObj _ | VArr _ => walk (prop current part) rest
      | _ => VUndef
      end
  end.

Definition resolveKey (table : jsval) (key : string) : jsval :=
  walk table (splitDots key).

(** [translations[lang] || translations.zh] *)
Definition tableOf (l : Lang) : jsval :=
  or_else (prop translations (langName l)) (prop translations "zh").

(** [t(key)] *)
Definition t (l : Lang) (key : string) : list N :=
  match resolveKey (tableOf l) key with
  | VStr s => s
  | _ => lit key
  end.

Fixpoint nodot (s : string) : bool :=
  match s with
  | EmptyString => true
  | String c s' => negb (Ascii.eqb c "."%char) && nodot s'
  end.

(** *** More scenarios *)

(** An analyze of the typed text is under way. *)
Definition analyzing : world :=
  default (boot en true)
    (run [TypeInput (lit "schedule a demo"); ClickAnalyze] (boot en true)).

(** The run [r1] is shown and its confirmation is under way. *)
Definition confirming : world :=
  default (boot en true) (run (take 4 toBlocked) (boot en true)).

(** A typed correction of the blocked meeting is under way. *)
Definition correcting : world :=
  default (boot en true)
    (run (toBlocked ++ [TypeReschedule 0 (lit " move to 3pm "); ClickReschedule 0])
       (boot en true)).

(** [doubleStart] after a click on the stop button. *)
Definition afterStop : world :=
  default (boot en true) (run [ClickRecord] doubleStart).

(** The first request a world has sent to [url]. *)
Definition firstPost (url : string) (w : world) : jsval :=
  default VUndef (head (posts url w)).

(** The section [errors] of the English table. *)
Definition enErrors : gmap string jsval := own_props (prop (tableOf en) "errors").

(** * Properties *)

(** ** Strings *)

Section StringFacts.

Implicit Types (s p sep : list N) (c : N).

Lemma isPrefix_app p s : isPrefix p s = true -> s = p ++ drop (length p) s.
Proof.
  revert s. induction p as [|a p IH]; intros [|b s]; simpl; try done.
  intros H. apply andb_true_iff in H as [Hab Hp].
  apply N.eqb_eq in Hab. subst b. f_equal. by apply IH.
Qed.

Lemma split_skip_nonempty sep k s : split_skip sep k s <> [].
Proof.
  revert k. induction s as [|c s IH]; intros k; simpl; [done|].
  destruct k; [|apply IH].
  destruct (isPrefix sep (c :: s)); [done|].
  by destruct (split_skip sep 0 s).
Qed.

Lemma join_cons_head sep c p ps : join sep ((c :: p) :: ps) = c :: join sep (p :: ps).
Proof. by destruct ps. Qed.

Lemma join_cons_sep sep ps : ps <> [] -> join sep ([] :: ps) = sep ++ join sep ps.
Proof. by destruct ps. Qed.

(** Joining the pieces of a split with the separator gives the string
    back. *)
Lemma join_split_skip sep k s :
  sep <> [] -> join sep (split_skip sep k s) = drop k s.
Proof.
  intros Hsep. revert k. induction s as [|c s IH]; intros k.
  - by destruct k.
  - destruct k as [|k]; [|apply IH].
    cbn [split_skip drop].
    destruct (isPrefix sep (c :: s)) eqn:Hp.
    + rewrite join_cons_sep by apply split_skip_nonempty.
      rewrite IH. apply isPrefix_app in Hp.
      destruct sep as [|a sep]; [done|].
      simpl in *. rewrite Nat.sub_0_r.
      injection Hp as -> Hs. by rewrite <- Hs.
    + specialize (IH 0%nat). rewrite drop_0 in IH.
      destruct (split_skip sep 0 s) as [|p ps] eqn:E.
      * by apply split_skip_nonempty in E.
      * by rewrite join_cons_head, IH.
Qed.

Lemma join_split sep s : sep <> [] -> join sep (split sep s) = s.
Proof. intros H. unfold split. by rewrite join_split_skip, drop_0. Qed.

Lemma trimStart_keeps c s : isWhiteSpace c = false -> trimStart (c :: s) = c :: s.
Proof. intros H. simpl. by rewrite H. Qed.

Lemma trimEnd_keeps s c : isWhiteSpace c = false -> trimEnd (s ++ [c]) = s ++ [c].
Proof.
  intros H. induction s as [|a s IH]; simpl.
  - by rewrite H.
  - rewrite IH. by destruct (s ++ [c]) eqn:E; [destruct s|].
Qed.

(** [trim] leaves a string alone whose first and last characters are
    no white space. *)
Lemma trim_framed a m b :
  isWhiteSpace a = false -> isWhiteSpace b = false ->
  trim (a :: m ++ [b]) = a :: m ++ [b].
Proof.
  intros Ha Hb. unfold trim. rewrite trimStart_keeps by done.
  by rewrite (app_comm_cons m [b] a), trimEnd_keeps.
Qed.

Lemma replace_g_flat_map c r (f : N -> list N) s :
  replace_g c r (flat_map f s) = flat_map (fun x => replace_g c r (f x)) s.
Proof.
  unfold replace_g. induction s as [|x s IH]; simpl; [done|].
  by rewrite flat_map_app, IH.
Qed.

(** The five replacements in a row come to one pass that puts the
    entity in the place of each special character. *)
Lemma escapeHtml_entities s : escapeHtml s = flat_map entity s.
Proof.
  unfold escapeHtml.
  unfold replace_g at 5.
  rewrite !replace_g_flat_map.
  apply flat_map_ext. intros x.
  unfold entity.
  destruct (N.eqb_spec x 38) as [->|H38]; [done|].
  destruct (N.eqb_spec x 60) as [->|H60]; [done|].
  destruct (N.eqb_spec x 62) as [->|H62]; [done|].
  destruct (N.eqb_spec x 34) as [->|H34]; [done|].
  destruct (N.eqb_spec x 39) as [->|H39]; [done|].
  unfold replace_g. simpl.
  apply N.eqb_neq in H60, H62, H34, H39.
  by rewrite H60; simpl; rewrite H62; simpl; rewrite H34; simpl; rewrite H39.
Qed.

End StringFacts.

(** ** The reply renderer *)

Lemma Rendered_app a b : Rendered a -> Rendered b -> Rendered (a ++ b).
Proof.
  induction 1 as [|c s Hc _ IH|c s Hc _ IH|t s Ht _ IH]; intros Hb; [done|..].
  - simpl. constructor; auto.
  - rewrite <- app_assoc. apply Rendered_entity; auto.
  - rewrite <- app_assoc. apply Rendered_tag; auto.
Qed.

Lemma Rendered_wrapper t : t ∈ wrappers -> Rendered t.
Proof.
  intros H. rewrite <- (app_nil_r t). by apply Rendered_tag; [|constructor].
Qed.

Lemma Rendered_entities s : Rendered (flat_map entity s).
Proof.
  induction s as [|c s IH]; simpl; [constructor|].
  destruct (special c) eqn:Hc.
  - by apply Rendered_entity.
  - assert (entity c = [c]) as ->; [|by constructor].
    unfold special in Hc. unfold entity.
    repeat (apply orb_false_iff in Hc as [Hc ?]).
    by repeat match goal with H : (_ =? _) = false |- _ => rewrite H; clear H end.
Qed.

Lemma Rendered_lines lines : Rendered (join (lit "<br/>") (map (flat_map entity) lines)).
Proof.
  induction lines as [|l lines IH]; [constructor|].
  cbn [map join]. destruct lines as [|l' lines].
  - apply Rendered_entities.
  - apply Rendered_app; [apply Rendered_entities|].
    apply Rendered_tag; [|exact IH].
    unfold wrappers. set_solver.
Qed.

Lemma Rendered_paragraph lines : Rendered (paragraph lines).
Proof.
  unfold paragraph.
  apply Rendered_tag; [unfold wrappers; set_solver|].
  apply Rendered_app; [apply Rendered_lines|].
  apply Rendered_wrapper. unfold wrappers. set_solver.
Qed.

Lemma Rendered_paragraphs blocks : Rendered (concat (map paragraph blocks)).
Proof.
  induction blocks as [|b blocks IH]; cbn [map concat]; [constructor|].
  apply Rendered_app; [apply Rendered_paragraph | exact IH].
Qed.

Lemma formatPlainTextAsHtml_paragraphs text :
  formatPlainTextAsHtml text =
    match text with
    | [] => []
    | _ :: _ => concat (map paragraph (map (split [10]) (split [10; 10] (trim text))))
    end.
Proof.
  destruct text as [|c text]; [done|].
  unfold formatPlainTextAsHtml. f_equal.
  rewrite (List.map_map (split [10]) paragraph). apply map_ext. intros block.
  unfold paragraph. do 3 f_equal.
  apply map_ext. intros line. apply escapeHtml_entities.
Qed.

(** C10. The plain-text reply renderer maps the empty string to the
    empty string. For every other input it trims the text, cuts it into
    blocks at blank lines and each block into lines (joining the lines
    and blocks back with their separators gives the trimmed text), and
    writes each block as one [<p>] paragraph whose lines are separated by
    [<br/>] and in which every occurrence of [&], [<], [>], the double
    quote and the single quote is replaced by its entity. The output
    consists of plain characters, entities and those wrapper tags only. *)
Theorem formatPlainTextAsHtml_escapes :
  formatPlainTextAsHtml [] = []
  /\ forall text,
       let blocks := map (split [10]) (split [10; 10] (trim text)) in
       join [10; 10] (map (join [10]) blocks) = trim text
       /\ formatPlainTextAsHtml text =
            match text with
            | [] => []
            | _ :: _ => concat (map paragraph blocks)
            end
       /\ Rendered (formatPlainTextAsHtml text).
Proof.
  split; [done|]. intros text blocks. split; [|split].
  - unfold blocks. rewrite (List.map_map (split [10]) (join [10])).
    rewrite (map_ext _ (fun x => x)), map_id.
    + by apply join_split.
    + intros block. by apply join_split.
  - apply formatPlainTextAsHtml_paragraphs.
  - rewrite formatPlainTextAsHtml_paragraphs.
    destruct text; [constructor | apply Rendered_paragraphs].
Qed.

(** ** The action-preview registry and confirmation *)

Lemma handleActionPayloadEdit_in_range i f v (prev : list jsval) a :
  prev !! i = Some a -> nullish a = false ->
  handleActionPayloadEdit i f v prev =
    Some (<[i := VObj (<["payload" := VObj (<[f := v]> (own_props (prop a "payload")))]>
                         (own_props a))]> prev).
Proof.
  intros Hi Ha. unfold handleActionPayloadEdit, get. rewrite Hi. simpl.
  by rewrite Ha.
Qed.

Lemma handleActionPayloadEdit_stale i f v (prev : list jsval) :
  (length prev <= i)%nat -> handleActionPayloadEdit i f v prev = None.
Proof.
  intros Hi. unfold handleActionPayloadEdit.
  by rewrite (lookup_ge_None_2 prev i Hi).
Qed.

(** C6. The list [handleConfirm] submits has one entry per action, in
    list order, disabled actions included: the entry of action [i] has
    the action's own properties, [confirmed] true exactly when the flag
    [actionChecks[i]] is set and [skip] true exactly when it is not.
    When the run has an id that list is what is posted to
    [/autopilot/confirm]. *)
Theorem serializeForConfirmation_entries st i a :
  editedActions st !! i = Some a ->
  length (serializeForConfirmation st) = length (editedActions st)
  /\ (exists m,
        serializeForConfirmation st !! i = Some (VObj m)
        /\ m !! "confirmed"
           = Some (VBool (bool_decide (actionChecks st !! i = Some true)))
        /\ m !! "skip"
           = Some (VBool (bool_decide (actionChecks st !! i <> Some true)))
        /\ forall k, k <> "confirmed" -> k <> "skip" -> m !! k = own_props a !! k)
  /\ (truthy (get_opt (runResult st) "run_id") = true ->
      exists body,
        effects (handleConfirm st) = [Post "/autopilot/confirm" (VObj body)]
        /\ body !! "actions" = Some (VArr (serializeForConfirmation st))).
Proof.
  intros Hi. unfold serializeForConfirmation. split; [apply length_imap|split].
  - eexists. rewrite list_lookup_imap, Hi. split; [reflexivity|].
    unfold enabledAt. split; [|split].
    + rewrite lookup_insert_ne, lookup_insert_eq by done.
      by destruct (actionChecks st !! i) as [[]|].
    + rewrite lookup_insert_eq. by destruct (actionChecks st !! i) as [[]|].
    + intros k Hc Hs. by rewrite !lookup_insert_ne.
  - intros Hrun. unfold handleConfirm. rewrite Hrun. simpl.
    eexists. split; [reflexivity|]. by rewrite lookup_insert_eq.
Qed.

(** C9. An edit whose index is past the end of the action list is not a
    silent no-op: [copy[index]] is [undefined], reading its [payload]
    raises, and the updater returns no list. *)
Theorem handleActionPayloadEdit_stale_index_raises :
  handleActionPayloadEdit 1 "title" (str "Demo v2") [demoAction] = None.
Proof. reflexivity. Qed.

Lemma same_elsewhere_refl st : same_elsewhere st st.
Proof. by repeat split. Qed.

Lemma same_elsewhere_trans st1 st2 st3 :
  same_elsewhere st1 st2 -> same_elsewhere st2 st3 -> same_elsewhere st1 st3.
Proof.
  unfold same_elsewhere. intros H1 H2.
  destruct H1 as (?&?&?&?&?&?&?&?&?&?&?), H2 as (?&?&?&?&?&?&?&?&?&?&?).
  repeat split; congruence.
Qed.

Lemma untouched_nil st : untouched [] st st.
Proof.
  repeat split; try done.
  - intros k _. congruence.
  - intros f _. congruence.
Qed.

Lemma untouched_toggle i b cs st st' :
  untouched cs (toggle i b st) st' -> untouched (Toggle i b :: cs) st st'.
Proof.
  intros (Hlen & Htog & Hed & Hfr & Hel). split; [exact Hlen|].
  split; [|split; [|split]].
  - intros j Hj. cbn [existsb toggles] in Hj.
    apply orb_false_iff in Hj as [Hij Hj].
    apply bool_decide_eq_false in Hij.
    rewrite (Htog j Hj). simpl. by rewrite lookup_insert_ne.
  - intros j Hj. cbn [existsb edits] in Hj. exact (Hed j Hj).
  - intros j a a' Ha Ha'. destruct (Hfr j a a' Ha Ha') as [Hk Hf].
    split; [exact Hk|]. intros f Hcs. exact (Hf f Hcs).
  - eapply same_elsewhere_trans; [|exact Hel]. by repeat split.
Qed.

Lemma untouched_edit i f v cs st st' a :
  editedActions st !! i = Some a ->
  untouched cs
    (setEditedActions
       (<[i := VObj (<["payload" := VObj (<[f := v]> (own_props (prop a "payload")))]>
                       (own_props a))]> (editedActions st)) st) st' ->
  untouched (EditPayloadField i f v :: cs) st st'.
Proof.
  intros Hi (Hlen & Htog & Hed & Hfr & Hel). simpl in *.
  rewrite length_insert in Hlen.
  assert (i < length (editedActions st))%nat as Hlt by by eapply lookup_lt_Some.
  split; [exact Hlen|]. split; [|split; [|split]].
  - intros j Hj. exact (Htog j Hj).
  - intros j Hj. cbn [existsb edits] in Hj.
    apply orb_false_iff in Hj as [Hij Hj].
    apply bool_decide_eq_false in Hij.
    rewrite (Hed j Hj). by apply list_lookup_insert_ne.
  - intros j b b' Hb Hb'. destruct (decide (i = j)) as [->|Hne].
    + assert (b = a) as -> by congruence.
      edestruct (Hfr j) as [Hk Hf]; [by apply list_lookup_insert_eq|exact Hb'|].
      split.
      * intros k Hkp. rewrite (Hk k Hkp). simpl. by rewrite lookup_insert_ne.
      * intros g Hg. cbn [existsb edits_field] in Hg.
        apply orb_false_iff in Hg as [Hjg Hg].
        rewrite (bool_decide_eq_true_2 (j = j)) in Hjg by done. simpl in Hjg.
        apply bool_decide_eq_false in Hjg.
        rewrite (Hf g Hg). unfold prop at 1. simpl.
        rewrite lookup_insert_eq. simpl. by rewrite lookup_insert_ne.
    + edestruct (Hfr j b b') as [Hk Hf];
        [by rewrite list_lookup_insert_ne|exact Hb'|].
      split; [exact Hk|]. intros g Hg. cbn [existsb] in Hg.
      apply orb_false_iff in Hg as [_ Hg]. exact (Hf g Hg).
  - eapply same_elsewhere_trans; [|exact Hel]. by repeat split.
Qed.

(** C7. Every sequence of [toggle] and [editPayloadField] calls whose
    indices are in range runs to the end, on a list of actions none of
    which is [null] or [undefined], and leaves the length of the list
    unchanged. Every flag no call toggled, every action no call edited,
    every property of an action other than its payload and every payload
    field no call named keep their values, and so does the rest of the
    state. *)
Theorem registry_calls_frame cs st :
  Forall (fun c => (call_index c < length (editedActions st))%nat) cs ->
  Forall (fun a => nullish a = false) (editedActions st) ->
  exists st', apply_calls cs st = Some st' /\ untouched cs st st'.
Proof.
  revert st. induction cs as [|c cs IH]; intros st Hrange Hobj.
  - exists st. split; [done|apply untouched_nil].
  - apply Forall_cons in Hrange as [Hc Hrange].
    destruct c as [i b|i f v]; cbn [apply_calls apply_call call_index] in *.
    + destruct (IH (toggle i b st)) as (st' & Hrun & Hun); [done|done|].
      exists st'. split; [done|]. by apply untouched_toggle.
    + destruct (lookup_lt_is_Some_2 _ _ Hc) as [a Ha].
      assert (nullish a = false) as Hna.
      { rewrite Forall_forall in Hobj. apply Hobj. by eapply list_elem_of_lookup_2. }
      rewrite (handleActionPayloadEdit_in_range _ _ _ _ _ Ha Hna).
      destruct (IH (setEditedActions
                      (<[i := VObj (<["payload" :=
                                        VObj (<[f := v]> (own_props (prop a "payload")))]>
                                      (own_props a))]> (editedActions st)) st))
        as (st' & Hrun & Hun).
      * simpl. by rewrite length_insert.
      * simpl. apply Forall_insert; done.
      * exists st'. split; [done|]. by eapply untouched_edit.
Qed.

(** ** The transition system *)

Lemma ui_suspends ps w : ui (foldl (fun w p => suspend p w) w ps) = ui w.
Proof. revert w. induction ps as [|p ps IH]; intros w; simpl; [done|by rewrite IH]. Qed.

Lemma log_suspends ps w : log (foldl (fun w p => suspend p w) w ps) = log w.
Proof. revert w. induction ps as [|p ps IH]; intros w; simpl; [done|by rewrite IH]. Qed.

Lemma recorders_suspends ps w :
  recorders (foldl (fun w p => suspend p w) w ps) = recorders w.
Proof. revert w. induction ps as [|p ps IH]; intros w; simpl; [done|by rewrite IH]. Qed.

Lemma ui_commit o w : ui (commit o w) = next o.
Proof. unfold commit. by rewrite ui_suspends. Qed.

Lemma log_commit o w : log (commit o w) = log w ++ effects o.
Proof. unfold commit. by rewrite log_suspends. Qed.

Lemma recorders_commit o w : recorders (commit o w) = recorders w.
Proof. unfold commit. by rewrite recorders_suspends. Qed.

Lemma commit_quiet w : commit (quiet (ui w)) w = w.
Proof. destruct w. unfold commit, emit, with_ui. simpl. by rewrite app_nil_r. Qed.

Lemma dataOf_not_nullish res : nullish (dataOf res) = false.
Proof.
  unfold dataOf, or_else.
  destruct (truthy (if truthy (get_opt res "data") then get_opt res "data" else res)) eqn:E;
    [|done].
  destruct (truthy (get_opt res "data")) eqn:E'.
  - by destruct (get_opt res "data").
  - by destruct res.
Qed.

(** ** Confirm without a run *)

Lemma handleConfirm_no_run_id st : no_run_id st -> handleConfirm st = quiet st.
Proof. unfold no_run_id, handleConfirm. by intros ->. Qed.

Lemma no_run_id_handleRun snap mode a o st : no_run_id (next (handleRun snap mode a o st)).
Proof. done. Qed.

Lemma no_run_id_handleReschedule snap i mode a st :
  no_run_id st -> no_run_id (next (handleReschedule snap i mode a st)).
Proof. unfold handleReschedule. by destruct (truthy _). Qed.

Lemma no_run_id_handleReschedule_settled snap i t r st :
  no_run_id st -> no_run_id (next (handleReschedule_settled snap i t r st)).
Proof.
  intros H. unfold handleReschedule_settled.
  destruct r as [res|]; [|done].
  destruct (normalizedLine _ _ _) as [[|c line]|]; done.
Qed.

Lemma no_run_id_handleConfirm_settled r st :
  no_run_id st -> no_run_id (handleConfirm_settled r st).1.
Proof.
  intros H. unfold handleConfirm_settled. destruct r as [res|]; [|done].
  destruct (or_else _ _); try done.
  by destruct (calendarFailed l) as [[]|].
Qed.

Lemma no_run_id_handleRun_settled r st :
  no_run_id st ->
  match r with
  | Some res => truthy (prop (dataOf res) "run_id") = false
  | None => True
  end ->
  no_run_id (handleRun_settled r st).1.
Proof.
  intros H Hr. unfold handleRun_settled. destruct r as [res|]; [|done].
  assert (no_run_id (setRunResult (dataOf res) st)) as Hd.
  { unfold no_run_id, get_opt. simpl. by rewrite dataOf_not_nullish. }
  by destruct (or_else (prop (dataOf res) "actions_preview") (VArr [])).
Qed.

Lemma guard_Some b w w' : guard b w = Some w' -> b = true /\ w' = w.
Proof. unfold guard. destruct b; [|done]. intros [= <-]. done. Qed.

Lemma ui_stopRecorder id w : ui (stopRecorder id w) = ui w.
Proof. unfold stopRecorder. by destruct (lookup_id id (recorders w)) as [[s snap]|]. Qed.

Lemma no_run_id_reader_settled s snap b64 w :
  no_run_id (ui w) -> no_run_id (ui (reader_settled s snap b64 w)).
Proof.
  intros H. destruct s as [|i]; unfold reader_settled; rewrite ui_commit.
  - apply no_run_id_handleRun.
  - by apply no_run_id_handleReschedule.
Qed.

Lemma no_run_id_resume p r w :
  no_run_id (ui w) ->
  match p, r with
  | AwaitRun _, Some res => truthy (prop (dataOf res) "run_id") = false
  | _, _ => True
  end ->
  no_run_id (ui (resume p r w)).
Proof.
  intros H Hr. destruct p as [after| |i t snap|s snap|s snap]; cbn [resume].
  - assert (no_run_id (ui (commit_settled (handleRun_settled r (ui w)) w))) as H'.
    { simpl. apply no_run_id_handleRun_settled; [done|]. by destruct r. }
    by destruct after.
  - by apply no_run_id_handleConfirm_settled.
  - rewrite ui_commit. by apply no_run_id_handleReschedule_settled.
  - unfold startRecording_settled. destruct (bool_decide _); [|done].
    by destruct s.
  - destruct r as [b64|]; [|done]. by apply no_run_id_reader_settled.
Qed.

(** A step that is no analyze response with a run id leaves the page
    without a run id. *)
Lemma step_no_run_id e w w' :
  no_run_id (ui w) -> assigns_run_id e w = false -> step e w = Some w' ->
  no_run_id (ui w').
Proof.
  intros H Ha Hs.
  destruct e as [v| | | |i b|i k v|i v|i|i|i|id r]; cbn [step] in Hs;
    try (apply guard_Some in Hs as [_ ->]).
  - done.
  - rewrite ui_commit. apply no_run_id_handleRun.
  - destruct (isRecording (ui w)).
    + unfold handleStopRecording. destruct (mediaRecorderRef w); [|done].
      unfold no_run_id. simpl. rewrite ui_stopRecorder. exact H.
    + unfold handleStartRecording. by destruct (mediaDevices w).
  - rewrite ui_commit. unfold handleConfirm. by destruct (truthy _).
  - done.
  - destruct (editedActions (ui w) !! i) as [a|]; [|done].
    destruct (_ && _); [|done].
    destruct (handleActionPayloadEdit _ _ _ _); [|done].
    by injection Hs as <-.
  - done.
  - destruct (nonBlank _); [|done].
    rewrite ui_commit. by apply no_run_id_handleReschedule.
  - rewrite ui_commit. by apply no_run_id_handleReschedule.
  - destruct (bool_decide _).
    + unfold handleRescheduleStopRecording. destruct (rescheduleRecorderRef w); [|done].
      unfold no_run_id. simpl. rewrite ui_stopRecorder. exact H.
    + unfold handleRescheduleStartRecording. by destruct (mediaDevices w).
  - cbn [assigns_run_id] in Ha.
    destruct (lookup_id id (inflight w)) as [p|]; [|done].
    injection Hs as <-. apply no_run_id_resume; [done|].
    destruct p, r; done.
Qed.

Lemma run_without_id_no_run_id es w w' :
  no_run_id (ui w) -> run_without_id es w = Some w' -> no_run_id (ui w').
Proof.
  revert w. induction es as [|e es IH]; intros w H Hr; simpl in Hr.
  - by injection Hr as <-.
  - destruct (assigns_run_id e w) eqn:Ha; [done|].
    destruct (step e w) as [w1|] eqn:Hs; [|done].
    eapply IH; [|exact Hr]. by eapply step_no_run_id.
Qed.

Lemma unassigned_no_run_id w : unassigned w -> no_run_id (ui w).
Proof.
  intros (l & d & es & Hr). by eapply run_without_id_no_run_id; [|exact Hr].
Qed.

(** C8 fails as the specification states it: with a preview on the page that
    came without a run id, a click on the confirm button is accepted
    and returns normally; nothing is raised, no notice is shown, no
    request is sent and the world is the same. *)
Lemma confirm_without_run_is_silent :
  exists w,
    run analyzedWithoutId (boot en true) = Some w
    /\ truthy (runResult (ui w)) = true
    /\ truthy (get_opt (runResult (ui w)) "run_id") = false
    /\ step ClickConfirm w = Some w
    /\ effects (handleConfirm (ui w)) = []
    /\ notices w = [].
Proof.
  eexists. split; [vm_compute; reflexivity|].
  split; [reflexivity|]. split; [vm_compute; reflexivity|].
  split; [vm_compute; reflexivity|]. split; [vm_compute; reflexivity|].
  reflexivity.
Qed.

(** C8, amended. As long as no analyze response has brought a run id,
    [handleConfirm] returns at its guard without failing: it sends no
    request, shows no notice, suspends on nothing and leaves the state
    as it is, so a click on the confirm button changes nothing on the
    page. *)
Theorem handleConfirm_without_run w :
  unassigned w ->
  handleConfirm (ui w) = quiet (ui w)
  /\ forall w', step ClickConfirm w = Some w' -> w' = w.
Proof.
  intros H. apply unassigned_no_run_id, handleConfirm_no_run_id in H.
  split; [exact H|]. intros w' Hs. cbn [step] in Hs.
  apply guard_Some in Hs as [_ ->]. rewrite H. apply commit_quiet.
Qed.

(** ** Analyze *)

Lemma allChecked_from k (l : list jsval) j :
  (k <= j < k + length l)%nat ->
  (list_to_map (imap (fun i _ => ((k + i)%nat, true)) l) : gmap nat bool) !! j = Some true.
Proof.
  revert k. induction l as [|x l IH]; intros k Hj; simpl in Hj; [lia|].
  rewrite imap_cons, list_to_map_cons, Nat.add_0_r.
  destruct (decide (k = j)) as [->|Hne].
  - apply lookup_insert_eq.
  - rewrite lookup_insert_ne by done.
    rewrite (imap_ext _ (fun i _ => ((S k + i)%nat, true))).
    + apply IH. lia.
    + intros i y _. simpl. f_equal. lia.
Qed.

Lemma allChecked_lookup (l : list jsval) i :
  (i < length l)%nat -> allChecked l !! i = Some true.
Proof. intros Hi. apply (allChecked_from 0). lia. Qed.

(** C5 fails as the specification states it: a draft typed for a blocked meeting
    is still in the draft map after a later analyze has succeeded. *)
Lemma analyze_keeps_reschedule_drafts :
  exists w,
    run draftThenAnalyze (boot en true) = Some w
    /\ runResult (ui w) = demoRun "r2"
    /\ editedActions (ui w) = [demoAction]
    /\ draftAt (ui w) 0 = lit "move to 3pm"
    /\ rescheduleInputs (ui w) <> ∅.
Proof.
  eexists. split; [vm_compute; reflexivity|].
  split; [vm_compute; reflexivity|]. split; [reflexivity|].
  split; [reflexivity|].
  intros H. apply (f_equal (fun m => m !! 0%nat)) in H. vm_compute in H. discriminate.
Qed.

(** C5, amended. After a successful analyze the action list is the
    preview list of the response and the enabled flag of every action is
    true, the processing indicator is cleared and no notice is shown.
    Neither issuing the call nor handling its response touches the
    reschedule drafts. *)
Theorem handleRun_success_enables_all snap mode a o res l st :
  or_else (prop (dataOf res) "actions_preview") (VArr []) = VArr l ->
  let sent := next (handleRun snap mode a o st) in
  let st' := (handleRun_settled (Some res) sent).1 in
  editedActions st' = l
  /\ (forall i, (i < length l)%nat -> enabledAt st' i = true)
  /\ isProcessing st' = false
  /\ (handleRun_settled (Some res) sent).2 = []
  /\ rescheduleInputs sent = rescheduleInputs st
  /\ rescheduleInputs st' = rescheduleInputs st.
Proof.
  intros Hl sent st'. unfold st', handleRun_settled. rewrite Hl. simpl.
  repeat split; try done.
  intros i Hi. unfold enabledAt. simpl. by rewrite allChecked_lookup.
Qed.



Lemma lookup_remove_id_ne {A} (i j : nat) (l : list (nat * A)) :
  i <> j -> lookup_id i (remove_id j l) = lookup_id i l.
Proof.
  intros Hij. induction l as [|[k x] l IH]; [done|]. simpl.
  destruct (Nat.eqb_spec k j) as [->|Hkj].
  - by rewrite (proj2 (Nat.eqb_neq j i)).
  - simpl. by rewrite IH.
Qed.

Lemma inflight_resume_run after r w :
  inflight (resume (AwaitRun after) r w) = inflight w.
Proof. by destruct after. Qed.

Lemma runResult_resume_run after res w :
  runResult (ui (resume (AwaitRun after) (Some res) w)) = dataOf res.
Proof.
  cbn [resume]. unfold commit_settled, handleRun_settled.
  by destruct after, (or_else (prop (dataOf res) "actions_preview") (VArr [])).
Qed.

(** Two analyze responses handled one after the other: the visible run
    is the second one handled. *)
Lemma run_two_responses w s s' p p' res res' :
  s <> s' ->
  lookup_id s (inflight w) = Some (AwaitRun p) ->
  lookup_id s' (inflight w) = Some (AwaitRun p') ->
  exists w', run [Settle s (Some res); Settle s' (Some res')] w = Some w'
             /\ runResult (ui w') = dataOf res'.
Proof.
  intros Hne Hs Hs'. eexists. cbn [run step]. rewrite Hs.
  rewrite inflight_resume_run. cbn [inflight set_inflight].
  rewrite lookup_remove_id_ne, Hs' by done.
  split; [reflexivity|]. apply runResult_resume_run.
Qed.

(** C1 fails as the specification states it: the text analyze is call 3, the audio
    analyze call 4; the response of call 3 arrives after the one of call
    4 and is the run on the page. *)
Lemma stale_analyze_response_applied :
  exists w w',
    run twoAnalyzes (boot en true) = Some w
    /\ inflight w = [(3, AwaitRun None); (4, AwaitRun None)]%nat
    /\ run [Settle 4 (Some (demoRun "r2")); Settle 3 (Some (demoRun "r1"))] w = Some w'
    /\ runResult (ui w') = demoRun "r1"
    /\ runResult (ui w') <> dataOf (demoRun "r2").
Proof.
  do 2 eexists. split; [vm_compute; reflexivity|].
  split; [reflexivity|]. split; [vm_compute; reflexivity|].
  split; [vm_compute; reflexivity|].
  intros H. apply (f_equal (fun v => prop v "run_id")) in H.
  vm_compute in H. discriminate.
Qed.

(** C1, amended. The handlers carry no sequence number: every analyze
    response is applied when it arrives. When the response of the older
    call [s1] arrives after the one of the newer call [s2], the visible
    run after both is the response of [s1]; when they arrive in the
    order of the calls it is the response of [s2]. *)
Theorem analyze_last_arrival_wins w s1 s2 p1 p2 res1 res2 :
  (s1 < s2)%nat ->
  lookup_id s1 (inflight w) = Some (AwaitRun p1) ->
  lookup_id s2 (inflight w) = Some (AwaitRun p2) ->
  (exists w', run [Settle s2 (Some res2); Settle s1 (Some res1)] w = Some w'
              /\ runResult (ui w') = dataOf res1)
  /\ (exists w', run [Settle s1 (Some res1); Settle s2 (Some res2)] w = Some w'
                 /\ runResult (ui w') = dataOf res2).
Proof.
  intros Hlt H1 H2. split.
  - eapply run_two_responses; [lia|done|done].
  - eapply run_two_responses; [lia|done|done].
Qed.

(** ** Recording *)

Lemma numbered_suspend p w : numbered w -> numbered (suspend p w).
Proof.
  unfold numbered. simpl. intros H. apply Forall_app. split.
  - eapply Forall_impl; [exact H|]. simpl. lia.
  - repeat constructor.
Qed.

Lemma numbered_suspends ps w :
  numbered w -> numbered (foldl (fun w p => suspend p w) w ps).
Proof.
  revert w. induction ps as [|p ps IH]; intros w H; simpl; [done|].
  by apply IH, numbered_suspend.
Qed.

Lemma numbered_commit o w : numbered w -> numbered (commit o w).
Proof. intros H. unfold commit. by apply numbered_suspends. Qed.

Lemma Forall_remove_id {A} (P : nat * A -> Prop) id l :
  Forall P l -> Forall P (remove_id id l).
Proof.
  induction 1 as [|[k x] l Hx Hl IH]; simpl; [done|].
  destruct (Nat.eqb k id); [done|by constructor].
Qed.

Lemma numbered_stopRecorder id w : numbered w -> numbered (stopRecorder id w).
Proof.
  intros H. unfold stopRecorder.
  destruct (lookup_id id (recorders w)) as [[s snap]|]; [|done].
  by apply numbered_suspend.
Qed.

Lemma numbered_bump w : numbered w -> numbered (bump w).
Proof. unfold numbered. simpl. intros H. eapply Forall_impl; [exact H|]. simpl. lia. Qed.

Lemma numbered_resume p r w : numbered w -> numbered (resume p r w).
Proof.
  intros H. destruct p as [after| |i t snap|s snap|s snap]; cbn [resume].
  - by destruct after.
  - done.
  - by apply numbered_commit.
  - unfold startRecording_settled. destruct (bool_decide _); [|done].
    apply numbered_bump in H. by destruct s.
  - destruct r as [b64|]; [|done]. destruct s; by apply numbered_commit.
Qed.

Lemma numbered_step e w w' : numbered w -> step e w = Some w' -> numbered w'.
Proof.
  intros H Hs.
  destruct e as [v| | | |i b|i k v|i v|i|i|i|id r]; cbn [step] in Hs;
    try (apply guard_Some in Hs as [_ ->]).
  - done.
  - by apply numbered_commit.
  - destruct (isRecording (ui w)).
    + unfold handleStopRecording. destruct (mediaRecorderRef w) as [id|]; [|done].
      by apply (numbered_stopRecorder id) in H.
    + unfold handleStartRecording. destruct (mediaDevices w); [|done].
      by apply numbered_suspend.
  - by apply numbered_commit.
  - done.
  - destruct (editedActions (ui w) !! i) as [a|]; [|done].
    destruct (_ && _); [|done].
    destruct (handleActionPayloadEdit _ _ _ _); [|done].
    by injection Hs as <-.
  - done.
  - destruct (nonBlank _); [|done]. by apply numbered_commit.
  - by apply numbered_commit.
  - destruct (bool_decide _).
    + unfold handleRescheduleStopRecording.
      destruct (rescheduleRecorderRef w) as [id|]; [|done].
      by apply (numbered_stopRecorder id) in H.
    + unfold handleRescheduleStartRecording. destruct (mediaDevices w); [|done].
      by apply numbered_suspend.
  - destruct (lookup_id id (inflight w)) as [p|]; [|done].
    injection Hs as <-. apply numbered_resume.
    unfold numbered in *. simpl. by apply Forall_remove_id.
Qed.

Lemma numbered_run es w w' : numbered w -> run es w = Some w' -> numbered w'.
Proof.
  revert w. induction es as [|e es IH]; intros w H Hr; simpl in Hr.
  - by injection Hr as <-.
  - destruct (step e w) as [w1|] eqn:Hs; [|done].
    eapply IH; [|exact Hr]. by eapply numbered_step.
Qed.

Lemma reachable_numbered w : reachable w -> numbered w.
Proof.
  intros (l & d & es & Hr). eapply numbered_run; [|exact Hr]. constructor.
Qed.

Lemma lookup_id_fresh {A} n (l : list (nat * A)) x :
  Forall (fun p => (p.1 < n)%nat) l -> lookup_id n (l ++ [(n, x)]) = Some x.
Proof.
  induction 1 as [|[k y] l Hk _ IH]; simpl.
  - by rewrite Nat.eqb_refl.
  - simpl in Hk. rewrite (proj2 (Nat.eqb_neq k n)) by lia. exact IH.
Qed.

(** C2 fails as the specification states it: with the main input recording,
    recording is started at the blocked meeting of index 0. Both
    recorders record, the page marks both sites, and the only notice
    shown is the one of the blocked confirmation. *)
Lemma two_sites_recording :
  exists w,
    run twoRecordings (boot en true) = Some w
    /\ recordingSites w = [primary; at_index 0]
    /\ isRecording (ui w) = true
    /\ rescheduleRecordingIndex (ui w) = Some 0%nat
    /\ notices w = [confirmCalendarFailed].
Proof. eexists. split; [vm_compute; reflexivity|]. by repeat split. Qed.

(** C2, amended. The recording sites are not arbitrated. When the record
    button of result [i] is shown and enabled and [i] is not marked as
    recording, a click on it fails only for want of the capture
    capability, with the notice [browserNotSupported], or because access
    is declined, with the notice [micDenied]. When access is granted a
    recorder for [i] starts next to whatever recorders are recording, [i]
    is marked as recording, the mark of the main input is as before and
    no notice is shown. *)
Theorem reschedule_recording_not_arbitrated w i :
  reachable w ->
  rescheduleShown (ui w) i = true ->
  loadingAt (ui w) i = false ->
  rescheduleRecordingIndex (ui w) <> Some i ->
  (mediaDevices w = false ->
   run [ClickRescheduleRecord i] w = Some (emit [Notify browserNotSupported] w))
  /\ (mediaDevices w = true ->
      forall r, exists w',
        run [ClickRescheduleRecord i; Settle (issued w) r] w = Some w'
        /\ match r with
           | Some _ =>
               recordingSites w' = recordingSites w ++ [at_index i]
               /\ rescheduleRecordingIndex (ui w') = Some i
               /\ isRecording (ui w') = isRecording (ui w)
               /\ log w' = log w
           | None =>
               recordingSites w' = recordingSites w
               /\ ui w' = ui w
               /\ log w' = log w ++ [Notify micDenied]
           end).
Proof.
  intros Hreach Hshown Hload Hidx. apply reachable_numbered in Hreach.
  assert (step (ClickRescheduleRecord i) w = Some (handleRescheduleStartRecording i w))
    as Hclick.
  { cbn [step]. rewrite Hshown, Hload. simpl.
    by rewrite bool_decide_eq_false_2. }
  split; intros Hdev.
  - cbn [run]. rewrite Hclick. unfold handleRescheduleStartRecording. by rewrite Hdev.
  - intros r. cbn [run]. rewrite Hclick.
    unfold handleRescheduleStartRecording. rewrite Hdev.
    cbn [step]. cbn [inflight suspend].
    rewrite (lookup_id_fresh _ _ _ Hreach).
    eexists. split; [reflexivity|].
    destruct r as [v|]; cbn [resume]; unfold startRecording_settled.
    + rewrite bool_decide_eq_true_2 by by eexists.
      unfold recordingSites. simpl. by rewrite map_app.
    + rewrite bool_decide_eq_false_2 by by intros [? ?].
      done.
Qed.

(** ** Reschedule recovery *)

Lemma trim_kept s a s1 s2 b :
  s = a :: s1 -> s = s2 ++ [b] ->
  isWhiteSpace a = false -> isWhiteSpace b = false -> trim s = s.
Proof.
  intros H1 H2 Ha Hb. unfold trim.
  rewrite H1, trimStart_keeps by done. rewrite <- H1, H2.
  by apply trimEnd_keeps.
Qed.

(** [trim] does nothing to either template: they begin and end with
    characters that are no white space. *)
Lemma trim_rescheduleTemplate l title date start end_ tz :
  trim (rescheduleTemplate l title date start end_ tz)
  = rescheduleTemplate l title date start end_ tz.
Proof.
  destruct l; unfold rescheduleTemplate.
  - eapply (trim_kept _ 25913 _ _ 12290); [reflexivity| |reflexivity|reflexivity].
    change [65289; 12290] with ([65289] ++ [12290]).
    rewrite !app_assoc. reflexivity.
  - eapply (trim_kept _ 82 _ _ 46); [reflexivity| |reflexivity|reflexivity].
    change (lit ").") with ([41] ++ [46]).
    rewrite !app_assoc. reflexivity.
Qed.

Lemma rescheduleTemplate_not_empty l title date start end_ tz :
  rescheduleTemplate l title date start end_ tz <> [].
Proof. by destruct l. Qed.

Lemma buildRescheduleLine_template l action rawText :
  buildRescheduleLine l action rawText
  = rescheduleTemplate l (templateField action "title" (defaultTitle l))
      (templateField action "date" []) (templateField action "start_time" [])
      (templateField action "end_time" []) timezone.
Proof. unfold buildRescheduleLine. apply trim_rescheduleTemplate. Qed.

(** C4 fails as the specification states it: a correction is recorded for the
    blocked meeting and the backend returns neither an action nor text.
    The resolved line is empty; nothing is appended to the input, the
    draft typed before is still there, and the only analyze request sent
    is the first one. *)
Lemma empty_correction_not_merged :
  exists w,
    run emptyCorrection (boot en true) = Some w
    /\ length (posts "/autopilot/adjust-time" w) = 1%nat
    /\ normalizedLine en (dataOf (obj [])) VUndef = Some []
    /\ inputText (ui w) = lit "schedule a demo next Tuesday 2pm"
    /\ draftAt (ui w) 0 = lit "later"
    /\ length (posts "/autopilot/run" w) = 1%nat
    /\ inflight w = [].
Proof. eexists. split; [vm_compute; reflexivity|]. by repeat split. Qed.

(** C4, amended. When the correction request has resolved and the line
    resolved from it is not empty: the line is the locale's template
    filled with the title, date, start and end time of the adjusted
    action and the fixed timezone if the response has an action, and the
    trimmed raw text otherwise. The line is appended to the primary
    input the handler was called with, on a new line if that input is
    not empty; the draft of the index is emptied; a text analyze of the
    merged input is sent, and the handler waits for it. When the line is
    empty the handler only ends the loading mark of the index. *)
Theorem handleReschedule_merges snap index bodyText res st line :
  normalizedLine (lang snap) (dataOf res) bodyText = Some line ->
  let action := prop (dataOf res) "action" in
  let merged := mergedInput (inputText snap) line in
  let o := handleReschedule_settled snap index bodyText (Some res) st in
  (if truthy action
   then line = rescheduleTemplate (lang snap)
                 (templateField action "title" (defaultTitle (lang snap)))
                 (templateField action "date" [])
                 (templateField action "start_time" [])
                 (templateField action "end_time" []) timezone
        /\ line <> []
   else trim_val (rawTextOf (dataOf res) bodyText) = Some line)
  /\ (line <> [] ->
      inputText (next o) = merged
      /\ draftAt (next o) index = []
      /\ (exists body,
            effects o = [Post "/autopilot/run" body]
            /\ prop body "mode" = str "text"
            /\ prop body "text" = VStr merged)
      /\ spawned o = [AwaitRun (Some index)])
  /\ (line = [] -> o = quiet (setLoadingAt index false st)).
Proof.
  intros Hline action merged o. split; [|split].
  - unfold normalizedLine in Hline. fold (rawTextOf (dataOf res) bodyText) in Hline.
    destruct (trim_val (rawTextOf (dataOf res) bodyText)) as [raw|]; [|done].
    injection Hline as <-. fold action.
    destruct (truthy action); [|done].
    rewrite buildRescheduleLine_template.
    split; [done|apply rescheduleTemplate_not_empty].
  - intros Hne. unfold o, handleReschedule_settled. rewrite Hline.
    destruct line as [|c line]; [done|].
    unfold appendToAnalyzeInput. fold (mergedInput (inputText snap) (c :: line)).
    fold merged. cbn [next effects spawned handleRun map awaitedBy].
    split; [done|]. split; [|split; [|done]].
    + unfold draftAt. simpl. by rewrite lookup_insert_eq.
    + eexists. split; [reflexivity|]. unfold runBody, prop. simpl. split.
      * by rewrite lookup_insert_ne, lookup_insert_ne, lookup_insert_eq.
      * by rewrite lookup_insert_eq.
  - intros ->. unfold o, handleReschedule_settled. by rewrite Hline.
Qed.

(** ** The properties on the scenarios *)

(** Of two actions, the ticked one is submitted as confirmed and the
    unticked one is still submitted, as skipped. *)
Lemma serializeForConfirmation_entries_demo :
  editedActions twoActions !! 0%nat = Some demoAction
  /\ editedActions twoActions !! 1%nat = Some slackAction
  /\ actionChecks twoActions !! 0%nat = Some true
  /\ actionChecks twoActions !! 1%nat = Some false
  /\ length (serializeForConfirmation twoActions) = 2%nat
  /\ (exists m,
        serializeForConfirmation twoActions !! 0%nat = Some (VObj m)
        /\ m !! "confirmed" = Some (VBool true)
        /\ m !! "skip" = Some (VBool false)
        /\ m !! "action_type" = Some (str "create_meeting"))
  /\ (exists m,
        serializeForConfirmation twoActions !! 1%nat = Some (VObj m)
        /\ m !! "confirmed" = Some (VBool false)
        /\ m !! "skip" = Some (VBool true)
        /\ m !! "action_type" = Some (str "send_slack_summary")).
Proof.
  split; [reflexivity|]. split; [reflexivity|].
  split; [vm_compute; reflexivity|]. split; [vm_compute; reflexivity|].
  destruct (serializeForConfirmation_entries twoActions 0 demoAction eq_refl)
    as (Hlen & (m0 & Hm0 & Hc0 & Hs0 & Hk0) & _).
  destruct (serializeForConfirmation_entries twoActions 1 slackAction eq_refl)
    as (_ & (m1 & Hm1 & Hc1 & Hs1 & Hk1) & _).
  split; [exact Hlen|]. split.
  - exists m0. split; [exact Hm0|]. split; [exact Hc0|]. split; [exact Hs0|].
    rewrite (Hk0 "action_type") by discriminate. vm_compute. reflexivity.
  - exists m1. split; [exact Hm1|]. split; [exact Hc1|]. split; [exact Hs1|].
    rewrite (Hk1 "action_type") by discriminate. vm_compute. reflexivity.
Defined.

(** Switching the demo action off and retitling it. *)
Lemma registry_calls_frame_demo :
  let cs := [Toggle 0 false; EditPayloadField 0 "title" (str "Demo v2")] in
  Forall (fun c => (call_index c < length (editedActions previewed))%nat) cs
  /\ Forall (fun a => nullish a = false) (editedActions previewed)
  /\ exists st', apply_calls cs previewed = Some st' /\ untouched cs previewed st'.
Proof.
  intros cs.
  assert (Forall (fun c => (call_index c < length (editedActions previewed))%nat) cs)
    as Hrange by (repeat (constructor; [simpl; lia|]); constructor).
  assert (Forall (fun a => nullish a = false) (editedActions previewed))
    as Hobj by (repeat (constructor; [reflexivity|]); constructor).
  split; [exact Hrange|]. split; [exact Hobj|].
  exact (registry_calls_frame cs previewed Hrange Hobj).
Defined.

(** A preview that came without a run id: the confirm button is there,
    and the click leaves the world as it is. *)
Lemma handleConfirm_without_run_demo :
  unassigned noRunId
  /\ handleConfirm (ui noRunId) = quiet (ui noRunId)
  /\ step ClickConfirm noRunId = Some noRunId.
Proof.
  assert (unassigned noRunId) as H.
  { exists en, true, analyzedWithoutId. vm_compute. reflexivity. }
  destruct (handleConfirm_without_run noRunId H) as [Hq Hs].
  split; [exact H|]. split; [exact Hq|].
  assert (exists w', step ClickConfirm noRunId = Some w') as [w' Hw]
    by (eexists; vm_compute; reflexivity).
  rewrite Hw. f_equal. exact (Hs w' Hw).
Defined.


(** The second analyze of the demo succeeds. *)
Lemma handleRun_success_enables_all_demo :
  let st := setRescheduleInputs {[ 0%nat := lit "move to 3pm" ]} previewed in
  let sent := next (handleRun st Text VNull VNull st) in
  let st' := (handleRun_settled (Some (demoRun "r2")) sent).1 in
  or_else (prop (dataOf (demoRun "r2")) "actions_preview") (VArr []) = VArr [demoAction]
  /\ editedActions st' = [demoAction]
  /\ enabledAt st' 0 = true
  /\ draftAt st' 0 = lit "move to 3pm".
Proof.
  intros st sent st'.
  assert (or_else (prop (dataOf (demoRun "r2")) "actions_preview") (VArr [])
          = VArr [demoAction]) as Hl by (vm_compute; reflexivity).
  destruct (handleRun_success_enables_all st Text VNull VNull (demoRun "r2")
              [demoAction] st Hl) as (Hed & Hen & _ & _ & _ & Hdr).
  split; [exact Hl|]. split; [exact Hed|]. split.
  - apply Hen. simpl. lia.
  - unfold draftAt. fold sent in Hdr. fold st' in Hdr. rewrite Hdr. reflexivity.
Defined.

(** Calls 3 and 4 answered in either order. *)
Lemma analyze_last_arrival_wins_demo :
  (3 < 4)%nat
  /\ lookup_id 3 (inflight twoInFlight) = Some (AwaitRun None)
  /\ lookup_id 4 (inflight twoInFlight) = Some (AwaitRun None)
  /\ (exists w',
        run [Settle 4 (Some (demoRun "r2")); Settle 3 (Some (demoRun "r1"))] twoInFlight
        = Some w'
        /\ runResult (ui w') = dataOf (demoRun "r1"))
  /\ (exists w',
        run [Settle 3 (Some (demoRun "r1")); Settle 4 (Some (demoRun "r2"))] twoInFlight
        = Some w'
        /\ runResult (ui w') = dataOf (demoRun "r2")).
Proof.
  assert (3 < 4)%nat as Hlt by lia.
  assert (lookup_id 3 (inflight twoInFlight) = Some (AwaitRun None)) as H3
    by (vm_compute; reflexivity).
  assert (lookup_id 4 (inflight twoInFlight) = Some (AwaitRun None)) as H4
    by (vm_compute; reflexivity).
  split; [exact Hlt|]. split; [exact H3|]. split; [exact H4|].
  exact (analyze_last_arrival_wins twoInFlight 3 4 None None (demoRun "r1")
           (demoRun "r2") Hlt H3 H4).
Defined.

(** Recording at the blocked meeting while the main input records. *)
Lemma reschedule_recording_not_arbitrated_demo :
  reachable recordingPrimary
  /\ rescheduleShown (ui recordingPrimary) 0 = true
  /\ loadingAt (ui recordingPrimary) 0 = false
  /\ rescheduleRecordingIndex (ui recordingPrimary) <> Some 0%nat
  /\ mediaDevices recordingPrimary = true
  /\ recordingSites recordingPrimary = [primary]
  /\ exists w',
       run [ClickRescheduleRecord 0; Settle (issued recordingPrimary) (Some VUndef)]
         recordingPrimary = Some w'
       /\ recordingSites w' = recordingSites recordingPrimary ++ [at_index 0].
Proof.
  assert (reachable recordingPrimary) as Hr.
  { exists en, true, (toBlocked ++ [ClickRecord; Settle 2 (Some VUndef)]).
    vm_compute. reflexivity. }
  assert (rescheduleShown (ui recordingPrimary) 0 = true) as Hs
    by (vm_compute; reflexivity).
  assert (loadingAt (ui recordingPrimary) 0 = false) as Hl
    by (vm_compute; reflexivity).
  assert (rescheduleRecordingIndex (ui recordingPrimary) <> Some 0%nat) as Hi
    by (vm_compute; discriminate).
  assert (mediaDevices recordingPrimary = true) as Hd by (vm_compute; reflexivity).
  split; [exact Hr|]. split; [exact Hs|]. split; [exact Hl|]. split; [exact Hi|].
  split; [exact Hd|]. split; [vm_compute; reflexivity|].
  destruct (reschedule_recording_not_arbitrated recordingPrimary 0 Hr Hs Hl Hi)
    as [_ Hgrant].
  destruct (Hgrant Hd (Some VUndef)) as (w' & Hrun & Hsites & _).
  exists w'. split; [exact Hrun|exact Hsites].
Defined.

(** The correction of the demo to 3pm. *)
Lemma handleReschedule_merges_demo :
  let o := handleReschedule_settled previewed 0 (str "move to 3pm")
             (Some adjustedTo3pm) previewed in
  normalizedLine (lang previewed) (dataOf adjustedTo3pm) (str "move to 3pm")
  = Some lineTo3pm
  /\ inputText (next o)
     = lit "schedule a demo next Tuesday 2pm" ++ [10] ++ lineTo3pm
  /\ draftAt (next o) 0 = []
  /\ spawned o = [AwaitRun (Some 0%nat)].
Proof.
  intros o.
  assert (normalizedLine (lang previewed) (dataOf adjustedTo3pm) (str "move to 3pm")
          = Some lineTo3pm) as Hline by (vm_compute; reflexivity).
  destruct (handleReschedule_merges previewed 0 (str "move to 3pm") adjustedTo3pm
              previewed lineTo3pm Hline) as (_ & Hmerge & _).
  destruct Hmerge as (Hin & Hdr & _ & Hsp); [discriminate|].
  split; [exact Hline|]. split; [exact Hin|]. split; [exact Hdr|exact Hsp].
Defined.

(** ** More on the reply renderer *)

Lemma unescape_plain c s :
  c <> 38 -> unescape_skip 0 (c :: s) = c :: unescape_skip 0 s.
Proof.
  intros Hc. cbn [unescape_skip].
  assert (forall p, isPrefix (38 :: p) (c :: s) = false) as Hp.
  { intros p. cbn [isPrefix]. by rewrite (proj2 (N.eqb_neq 38 c)). }
  change (lit "&amp;") with (38 :: lit "amp;").
  change (lit "&lt;") with (38 :: lit "lt;").
  change (lit "&gt;") with (38 :: lit "gt;").
  change (lit "&quot;") with (38 :: lit "quot;").
  change (lit "&#039;") with (38 :: lit "#039;").
  by rewrite !Hp.
Qed.

Lemma unescape_entity c s :
  unescape_skip 0 (entity c ++ s) = c :: unescape_skip 0 s.
Proof.
  unfold entity.
  destruct (N.eqb_spec c 38) as [->|H38]; [reflexivity|].
  destruct (N.eqb_spec c 60) as [->|H60]; [reflexivity|].
  destruct (N.eqb_spec c 62) as [->|H62]; [reflexivity|].
  destruct (N.eqb_spec c 34) as [->|H34]; [reflexivity|].
  destruct (N.eqb_spec c 39) as [->|H39]; [reflexivity|].
  by apply unescape_plain.
Qed.

Lemma unescapeHtml_escapeHtml s : unescapeHtml (escapeHtml s) = s.
Proof.
  rewrite escapeHtml_entities. unfold unescapeHtml.
  induction s as [|c s IH]; [done|].
  cbn [flat_map]. by rewrite unescape_entity, IH.
Qed.

(** X1. [escapeHtml] loses nothing: two strings with the same escaped
    form are the same string. *)
Theorem escapeHtml_injective s1 s2 : escapeHtml s1 = escapeHtml s2 -> s1 = s2.
Proof.
  intros H. rewrite <- (unescapeHtml_escapeHtml s1), <- (unescapeHtml_escapeHtml s2).
  by rewrite H.
Qed.

Lemma length_entity c :
  (1 <= length (entity c))%nat /\ (special c = true -> 1 < length (entity c))%nat.
Proof.
  unfold entity, special.
  destruct (c =? 38); [simpl; lia|]. destruct (c =? 60); [simpl; lia|].
  destruct (c =? 62); [simpl; lia|]. destruct (c =? 34); [simpl; lia|].
  destruct (c =? 39); [simpl; lia|]. simpl. split; [lia|done].
Qed.

Lemma entity_plain c : special c = false -> entity c = [c].
Proof.
  unfold special, entity. intros H.
  repeat (apply orb_false_iff in H as [H ?]).
  by repeat match goal with H : (_ =? _) = false |- _ => rewrite H; clear H end.
Qed.

Lemma length_entities s :
  (length s <= length (flat_map entity s))%nat
  /\ (plain s = false -> length s < length (flat_map entity s))%nat.
Proof.
  induction s as [|c s [IH1 IH2]]; [done|].
  cbn [flat_map plain forallb]. rewrite length_app. cbn [length].
  destruct (length_entity c) as [H1 H2]. split; [lia|].
  intros H. apply andb_false_iff in H as [H|H].
  - apply negb_false_iff in H. specialize (H2 H). lia.
  - specialize (IH2 H). lia.
Qed.

Lemma entities_plain s : plain s = true -> flat_map entity s = s.
Proof.
  induction s as [|c s IH]; [done|]. cbn [plain forallb flat_map].
  intros H. apply andb_true_iff in H as [Hc Hs]. apply negb_true_iff in Hc.
  by rewrite (entity_plain c Hc), (IH Hs).
Qed.

(** X2. [escapeHtml] never shortens a string, and it returns the string
    as it is exactly when the string has none of the five special
    characters. *)
Theorem escapeHtml_fixed s :
  (length s <= length (escapeHtml s))%nat
  /\ (escapeHtml s = s <-> plain s = true).
Proof.
  rewrite escapeHtml_entities. destruct (length_entities s) as [H1 H2].
  split; [exact H1|]. split.
  - intros H. destruct (plain s) eqn:Hp; [done|].
    specialize (H2 eq_refl). rewrite H in H2. lia.
  - apply entities_plain.
Qed.

Lemma trimStart_blank s : blank s = true -> trimStart s = [].
Proof.
  induction s as [|c s IH]; [done|]. cbn [blank forallb trimStart].
  intros H. apply andb_true_iff in H as [-> Hs]. by apply IH.
Qed.

Lemma trimStart_head s :
  trimStart s = [] \/ exists c r, trimStart s = c :: r /\ isWhiteSpace c = false.
Proof.
  induction s as [|c s IH]; [by left|]. cbn [trimStart].
  destruct (isWhiteSpace c) eqn:Hc; [exact IH|]. right. by exists c, s.
Qed.

Lemma trimEnd_head c s :
  trimEnd (c :: s) = [] \/ exists r, trimEnd (c :: s) = c :: r.
Proof.
  cbn [trimEnd]. destruct (trimEnd s) as [|a r].
  - destruct (isWhiteSpace c); [by left|right; by exists []].
  - right. by eexists.
Qed.

Lemma trimEnd_idemp s : trimEnd (trimEnd s) = trimEnd s.
Proof.
  induction s as [|c s IH]; [done|]. cbn [trimEnd].
  destruct (trimEnd s) as [|a r] eqn:E.
  - destruct (isWhiteSpace c) eqn:Hc; [done|]. cbn [trimEnd]. by rewrite Hc.
  - cbn [trimEnd]. cbn [trimEnd] in IH. by rewrite IH.
Qed.

(** Trimming twice is trimming once. *)
Lemma trim_idemp s : trim (trim s) = trim s.
Proof.
  unfold trim.
  assert (trimStart (trimEnd (trimStart s)) = trimEnd (trimStart s)) as ->;
    [|apply trimEnd_idemp].
  destruct (trimStart_head s) as [->|(c & r & -> & Hc)]; [done|].
  destruct (trimEnd_head c r) as [->|[r' ->]]; [done|].
  by apply trimStart_keeps.
Qed.

Lemma split_skip_absent a sep s :
  a ∉ s -> split_skip (a :: sep) 0 s = [s].
Proof.
  induction s as [|c s IH]; [done|]. intros H.
  apply not_elem_of_cons in H as [Hac Hs].
  cbn [split_skip isPrefix]. rewrite (proj2 (N.eqb_neq a c)) by done.
  cbn [andb]. by rewrite (IH Hs).
Qed.

Lemma formatPlainTextAsHtml_trimmed c text :
  formatPlainTextAsHtml (c :: text)
  = concat (map paragraph (map (split [10]) (split [10; 10] (trim (c :: text))))).
Proof. apply (formatPlainTextAsHtml_paragraphs (c :: text)). Qed.

(** X3. A text that is not empty and has no line break after trimming is
    rendered as one paragraph holding the escaped trimmed text. *)
Theorem formatPlainTextAsHtml_one_line text :
  text <> [] -> 10 ∉ trim text ->
  formatPlainTextAsHtml text = lit "<p>" ++ escapeHtml (trim text) ++ lit "</p>".
Proof.
  intros Hne Hnl. destruct text as [|c text]; [done|].
  rewrite formatPlainTextAsHtml_trimmed. unfold split.
  rewrite (split_skip_absent 10 [10] _ Hnl). cbn [map].
  rewrite (split_skip_absent 10 [] _ Hnl). cbn [concat].
  rewrite app_nil_r. unfold paragraph. cbn [map join].
  by rewrite escapeHtml_entities.
Qed.

(** X4. A text that is not empty but all white space is rendered as an
    empty paragraph, where the empty text is rendered as nothing. *)
Theorem formatPlainTextAsHtml_blank text :
  text <> [] -> blank text = true -> formatPlainTextAsHtml text = lit "<p></p>".
Proof.
  intros Hne Hb. destruct text as [|c text]; [done|].
  rewrite formatPlainTextAsHtml_trimmed. unfold trim.
  by rewrite (trimStart_blank _ Hb).
Qed.

(** X5. White space around the text does not show: a text whose trimmed
    form is not empty is rendered as its trimmed form is. *)
Theorem formatPlainTextAsHtml_trim text :
  trim text <> [] ->
  formatPlainTextAsHtml text = formatPlainTextAsHtml (trim text).
Proof.
  intros Hne. destruct text as [|c text]; [done|].
  rewrite formatPlainTextAsHtml_trimmed.
  destruct (trim (c :: text)) as [|d rest] eqn:E; [done|].
  rewrite formatPlainTextAsHtml_trimmed. by rewrite <- E, trim_idemp.
Qed.

(** ** More on the action-preview registry *)

Lemma handleActionPayloadEdit_cases i f v (prev : list jsval) :
  match prev !! i with
  | Some a =>
      if nullish a then handleActionPayloadEdit i f v prev = None
      else handleActionPayloadEdit i f v prev = Some (<[i := edited a f v]> prev)
  | None => handleActionPayloadEdit i f v prev = None
  end.
Proof.
  unfold handleActionPayloadEdit, get, edited.
  destruct (prev !! i) as [a|]; simpl; [|done].
  by destruct (nullish a).
Qed.

Lemma prop_payload_edited a f v :
  prop (edited a f v) "payload" = VObj (<[f := v]> (own_props (prop a "payload"))).
Proof. unfold prop, edited. simpl. by rewrite lookup_insert_eq. Qed.

(** X6. An edit that goes through can be read back: the action at the
    index then has the value in the named payload field, and the list is
    as long as before. *)
Theorem handleActionPayloadEdit_read_back i f v (prev l : list jsval) :
  handleActionPayloadEdit i f v prev = Some l ->
  length l = length prev
  /\ exists a', l !! i = Some a' /\ prop (prop a' "payload") f = v.
Proof.
  intros H. pose proof (handleActionPayloadEdit_cases i f v prev) as Hc.
  destruct (prev !! i) as [a|] eqn:Ha; [|congruence].
  destruct (nullish a); [congruence|].
  rewrite Hc in H. injection H as <-. split; [apply length_insert|].
  exists (edited a f v). split.
  - apply list_lookup_insert_eq. by eapply lookup_lt_Some.
  - rewrite prop_payload_edited. unfold prop. simpl. by rewrite lookup_insert_eq.
Qed.

Lemma edited_edited_same a f v u : edited (edited a f v) f u = edited a f u.
Proof.
  unfold edited at 1. rewrite prop_payload_edited. unfold edited. simpl.
  by rewrite !insert_insert_eq.
Qed.

Lemma edited_edited_ne a f g v u :
  f <> g -> edited (edited a f v) g u = edited (edited a g u) f v.
Proof.
  intros Hfg. unfold edited at 1 3. rewrite !prop_payload_edited.
  unfold edited. simpl. rewrite !insert_insert_eq. do 3 f_equal.
  by apply insert_insert_ne.
Qed.

Lemma nullish_edited a f v : nullish (edited a f v) = false.
Proof. done. Qed.

(** X7. Two edits of the same payload field: the later value wins, the
    result is that of the later edit alone. *)
Theorem handleActionPayloadEdit_last_write_wins i f v u (prev : list jsval) :
  handleActionPayloadEdit i f v prev ≫= handleActionPayloadEdit i f u
  = handleActionPayloadEdit i f u prev.
Proof.
  pose proof (handleActionPayloadEdit_cases i f v prev) as Hv.
  pose proof (handleActionPayloadEdit_cases i f u prev) as Hu.
  destruct (prev !! i) as [a|] eqn:Ha; [|by rewrite Hv, Hu].
  destruct (nullish a); [by rewrite Hv, Hu|].
  rewrite Hv, Hu. simpl.
  pose proof (handleActionPayloadEdit_cases i f u (<[i := edited a f v]> prev)) as H2.
  rewrite list_lookup_insert_eq in H2 by by eapply lookup_lt_Some.
  rewrite nullish_edited in H2. rewrite H2.
  by rewrite list_insert_insert_eq, edited_edited_same.
Qed.

(** X8. Edits of different payload fields, or at different indices,
    commute: either order gives the same list, or raises in both. *)
Theorem handleActionPayloadEdit_commute i j f g v u (prev : list jsval) :
  i <> j \/ f <> g ->
  handleActionPayloadEdit i f v prev ≫= handleActionPayloadEdit j g u
  = handleActionPayloadEdit j g u prev ≫= handleActionPayloadEdit i f v.
Proof.
  intros Hne.
  pose proof (handleActionPayloadEdit_cases i f v prev) as Hi.
  pose proof (handleActionPayloadEdit_cases j g u prev) as Hj.
  destruct (decide (i = j)) as [<-|Hij].
  - destruct Hne as [|Hfg]; [done|].
    destruct (prev !! i) as [a|] eqn:Ha; [|by rewrite Hi, Hj].
    destruct (nullish a); [by rewrite Hi, Hj|].
    rewrite Hi, Hj. simpl.
    pose proof (handleActionPayloadEdit_cases i g u (<[i := edited a f v]> prev)) as H1.
    pose proof (handleActionPayloadEdit_cases i f v (<[i := edited a g u]> prev)) as H2.
    rewrite list_lookup_insert_eq in H1, H2 by by eapply lookup_lt_Some.
    rewrite nullish_edited in H1, H2. rewrite H1, H2.
    by rewrite !list_insert_insert_eq, edited_edited_ne.
  - destruct (prev !! i) as [a|] eqn:Ha, (prev !! j) as [b|] eqn:Hb.
    + pose proof (handleActionPayloadEdit_cases j g u (<[i := edited a f v]> prev)) as H1.
      pose proof (handleActionPayloadEdit_cases i f v (<[j := edited b g u]> prev)) as H2.
      rewrite list_lookup_insert_ne, Hb in H1 by done.
      rewrite list_lookup_insert_ne, Ha in H2 by done.
      destruct (nullish a), (nullish b); rewrite ?Hi, ?Hj; simpl; rewrite ?H1, ?H2;
        try done.
      by rewrite list_insert_insert_ne.
    + pose proof (handleActionPayloadEdit_cases j g u (<[i := edited a f v]> prev)) as H1.
      rewrite list_lookup_insert_ne, Hb in H1 by done.
      rewrite Hj. destruct (nullish a); rewrite Hi; simpl; by rewrite ?H1.
    + pose proof (handleActionPayloadEdit_cases i f v (<[j := edited b g u]> prev)) as H2.
      rewrite list_lookup_insert_ne, Ha in H2 by done.
      rewrite Hi. destruct (nullish b); rewrite Hj; simpl; by rewrite ?H2.
    + by rewrite Hi, Hj.
Qed.

(** X9. Switching action [i] on or off changes what is submitted for
    [i] only: its entry carries the new flag as [confirmed] and its
    negation as [skip], every other entry is as before. *)
Theorem toggle_serializeForConfirmation i b st :
  (forall j, j <> i ->
     serializeForConfirmation (toggle i b st) !! j = serializeForConfirmation st !! j)
  /\ (forall a, editedActions st !! i = Some a ->
        exists m,
          serializeForConfirmation (toggle i b st) !! i = Some (VObj m)
          /\ m !! "confirmed" = Some (VBool b)
          /\ m !! "skip" = Some (VBool (negb b))).
Proof.
  unfold serializeForConfirmation. split.
  - intros j Hj. rewrite !list_lookup_imap. simpl.
    destruct (editedActions st !! j) as [a|]; [|done]. simpl.
    unfold confirmEntry, enabledAt. simpl. by rewrite lookup_insert_ne.
  - intros a Ha. rewrite list_lookup_imap. simpl. rewrite Ha. simpl.
    eexists. split; [reflexivity|]. unfold enabledAt. simpl.
    rewrite lookup_insert_eq. simpl. split.
    + by rewrite lookup_insert_ne, lookup_insert_eq.
    + by rewrite lookup_insert_eq.
Qed.

(** ** Invariants of the page *)

Lemma run_app es1 es2 w :
  run (es1 ++ es2) w = run es1 w ≫= run es2.
Proof.
  revert w. induction es1 as [|e es1 IH]; intros w; simpl; [done|].
  destruct (step e w) as [w1|]; [apply IH|done].
Qed.

Lemma reachable_step e w w' : reachable w -> step e w = Some w' -> reachable w'.
Proof.
  intros (l & d & es & Hr) Hs. exists l, d, (es ++ [e]).
  rewrite run_app, Hr. simpl. by rewrite Hs.
Qed.

(** What holds at the start and is kept by every step holds in every
    world the page reaches. *)
Lemma reachable_invariant (P : world -> Prop) :
  (forall l d, P (boot l d)) ->
  (forall e w w', reachable w -> P w -> step e w = Some w' -> P w') ->
  forall w, reachable w -> P w.
Proof.
  intros Hboot Hstep w (l & d & es & Hr).
  assert (forall es w0, reachable w0 -> P w0 -> run es w0 = Some w -> P w) as Hgen.
  { clear es Hr. intros es. induction es as [|e es IH]; intros w0 Hw0 HP Hr; simpl in Hr.
    - by injection Hr as <-.
    - destruct (step e w0) as [w1|] eqn:Hs; [|done].
      eapply (IH w1); [by eapply reachable_step|by eapply Hstep|done]. }
  eapply (Hgen es (boot l d)); [by exists l, d, []|apply Hboot|exact Hr].
Qed.

Lemma same_registry_refl st : same_registry st st.
Proof. done. Qed.

Lemma same_registry_handleRun snap mode a o st :
  same_registry st (next (handleRun snap mode a o st)).
Proof. done. Qed.

Lemma same_registry_handleConfirm st : same_registry st (next (handleConfirm st)).
Proof. unfold handleConfirm. by destruct (truthy _). Qed.

Lemma same_registry_handleConfirm_settled r st :
  same_registry st (handleConfirm_settled r st).1.
Proof.
  unfold handleConfirm_settled. destruct r as [res|]; [|done].
  destruct (or_else _ _); try done. by destruct (calendarFailed l) as [[]|].
Qed.

Lemma same_registry_handleReschedule snap i mode a st :
  same_registry st (next (handleReschedule snap i mode a st)).
Proof. unfold handleReschedule. by destruct (truthy _). Qed.

Lemma same_registry_handleReschedule_settled snap i t r st :
  same_registry st (next (handleReschedule_settled snap i t r st)).
Proof.
  unfold handleReschedule_settled. destruct r as [res|]; [|done].
  by destruct (normalizedLine _ _ _) as [[|c line]|].
Qed.

Lemma aligned_same st st' : aligned st -> same_registry st st' -> aligned st'.
Proof. unfold aligned. intros H [H1 H2] i. rewrite H1, H2. apply H. Qed.

Lemma allChecked_beyond (l : list jsval) i :
  (length l <= i)%nat -> allChecked l !! i = None.
Proof.
  intros Hi. unfold allChecked. apply not_elem_of_list_to_map_1.
  intros Hin. apply list_elem_of_fmap in Hin as (p & Hp1 & Hp).
  apply elem_of_lookup_imap_1 in Hp as (k & x & -> & Hk).
  apply lookup_lt_Some in Hk. simpl in Hp1. lia.
Qed.

Lemma aligned_allChecked l st :
  aligned (setEditedActions l (setActionChecks (allChecked l) st)).
Proof.
  intros i. simpl. split.
  - intros Hs. destruct (decide (i < length l)%nat); [done|].
    rewrite allChecked_beyond in Hs by lia. by destruct Hs.
  - intros Hi. rewrite allChecked_lookup by done. by eexists.
Qed.

Lemma aligned_handleRun_settled r st :
  aligned st -> aligned (handleRun_settled r st).1.
Proof.
  intros H. unfold handleRun_settled. destruct r as [res|]; [|done].
  destruct (or_else (prop (dataOf res) "actions_preview") (VArr [])) eqn:E;
    try (by eapply aligned_same; [exact H|]).
  simpl. intros i. apply (aligned_allChecked l st i).
Qed.

Lemma aligned_reader_settled s snap b64 w :
  aligned (ui w) -> aligned (ui (reader_settled s snap b64 w)).
Proof.
  intros H. destruct s as [|i]; unfold reader_settled; rewrite ui_commit.
  - done.
  - eapply aligned_same; [exact H|apply same_registry_handleReschedule].
Qed.

Lemma aligned_resume p r w : aligned (ui w) -> aligned (ui (resume p r w)).
Proof.
  intros H. destruct p as [after| |i t snap|s snap|s snap]; cbn [resume].
  - assert (aligned (ui (commit_settled (handleRun_settled r (ui w)) w))) as H'
      by by apply aligned_handleRun_settled.
    by destruct after.
  - eapply aligned_same; [exact H|apply same_registry_handleConfirm_settled].
  - rewrite ui_commit.
    eapply aligned_same; [exact H|apply same_registry_handleReschedule_settled].
  - unfold startRecording_settled. destruct (bool_decide _); [|done]. by destruct s.
  - destruct r as [b64|]; [|done]. by apply aligned_reader_settled.
Qed.

Lemma aligned_step e w w' : aligned (ui w) -> step e w = Some w' -> aligned (ui w').
Proof.
  intros H Hs.
  destruct e as [v| | | |i b|i k v|i v|i|i|i|id r]; cbn [step] in Hs;
    try (apply guard_Some in Hs as [Hg ->]).
  - done.
  - by rewrite ui_commit.
  - destruct (isRecording (ui w)).
    + unfold handleStopRecording. destruct (mediaRecorderRef w); [|done].
      unfold aligned. simpl. rewrite ui_stopRecorder. exact H.
    + unfold handleStartRecording. by destruct (mediaDevices w).
  - rewrite ui_commit. eapply aligned_same; [exact H|apply same_registry_handleConfirm].
  - apply andb_true_iff in Hg as [_ Hi]. apply bool_decide_eq_true in Hi.
    intros j. simpl. destruct (decide (i = j)) as [<-|Hne].
    + rewrite lookup_insert_eq. split; [done|by eexists].
    + rewrite lookup_insert_ne by done. apply H.
  - destruct (editedActions (ui w) !! i) as [a|] eqn:Ha; [|done].
    destruct (_ && _); [|done].
    pose proof (handleActionPayloadEdit_cases i k (VStr v) (editedActions (ui w))) as Hc.
    rewrite Ha in Hc. destruct (nullish a); rewrite Hc in Hs; [done|].
    injection Hs as <-. intros j. simpl. rewrite length_insert. apply H.
  - done.
  - destruct (nonBlank _); [|done].
    rewrite ui_commit. eapply aligned_same; [exact H|apply same_registry_handleReschedule].
  - rewrite ui_commit. eapply aligned_same; [exact H|apply same_registry_handleReschedule].
  - destruct (bool_decide _).
    + unfold handleRescheduleStopRecording. destruct (rescheduleRecorderRef w); [|done].
      unfold aligned. simpl. rewrite ui_stopRecorder. exact H.
    + unfold handleRescheduleStartRecording. by destruct (mediaDevices w).
  - destruct (lookup_id id (inflight w)) as [p|]; [|done].
    injection Hs as <-. by apply aligned_resume.
Qed.

(** X10. The flags stay in step with the action list: in every world
    the page reaches there is an enabled flag for index [i] exactly when
    [i] is an index of the action list. *)
Theorem reachable_aligned w : reachable w -> aligned (ui w).
Proof.
  apply (reachable_invariant (fun w => aligned (ui w))).
  - intros l d i. simpl. rewrite lookup_empty. split; [by intros []|lia].
  - intros e w0 w' _. apply aligned_step.
Qed.

Lemma anyChecked_spec st :
  anyChecked st = true <-> exists i, actionChecks st !! i = Some true.
Proof.
  unfold anyChecked. rewrite existsb_exists. split.
  - intros ([i b] & Hin & Hb). simpl in Hb. subst b. exists i.
    apply elem_of_map_to_list. by apply list_elem_of_In.
  - intros (i & Hi). exists (i, true). split; [|done].
    apply list_elem_of_In. by apply elem_of_map_to_list.
Qed.

(** X11. The confirm button can be clicked exactly when a run is shown,
    no analyze and no confirm is under way, and some action is switched
    on: with every action switched off nothing can be submitted. *)
Theorem confirm_button_enabled w :
  is_Some (step ClickConfirm w)
  <-> truthy (runResult (ui w)) = true
      /\ isProcessing (ui w) = false
      /\ isConfirming (ui w) = false
      /\ exists i, actionChecks (ui w) !! i = Some true.
Proof.
  cbn [step]. unfold guard, resultsShown. rewrite <- anyChecked_spec.
  destruct (truthy (runResult (ui w))), (isProcessing (ui w)),
    (anyChecked (ui w)), (isConfirming (ui w)); simpl;
    split; try (intros [? ?]; done); try (intros (?&?&?&?); done);
    try (by intros; eexists); try (by intros; repeat split).
Qed.

(** ** Busy marks *)

Lemma waits_suspend K p w : waits K (suspend p w) = waits K w || K p.
Proof. unfold waits. simpl. rewrite existsb_app. simpl. by rewrite orb_false_r. Qed.

Lemma waits_suspends K ps w :
  waits K (foldl (fun w p => suspend p w) w ps) = waits K w || existsb K ps.
Proof.
  revert w. induction ps as [|p ps IH]; intros w; simpl; [by rewrite orb_false_r|].
  by rewrite IH, waits_suspend, orb_assoc.
Qed.

Lemma waits_commit K o w : waits K (commit o w) = waits K w || existsb K (spawned o).
Proof. unfold commit. by rewrite waits_suspends. Qed.

Lemma existsb_remove_id {A} (K : A -> bool) id (l : list (nat * A)) p :
  lookup_id id l = Some p -> K p = false ->
  existsb (fun q => K q.2) (remove_id id l) = existsb (fun q => K q.2) l.
Proof.
  intros Hl Hp. induction l as [|[k x] l IH]; [done|]. simpl in *.
  destruct (Nat.eqb k id).
  - injection Hl as ->. by rewrite Hp.
  - simpl. by rewrite IH.
Qed.

Lemma waits_removed K id w p :
  lookup_id id (inflight w) = Some p -> K p = false ->
  waits K (set_inflight (remove_id id (inflight w)) w) = waits K w.
Proof. intros Hl Hp. unfold waits. simpl. by eapply existsb_remove_id. Qed.

Lemma loadingAt_setLoadingAt j b st i :
  loadingAt (setLoadingAt j b st) i = if decide (j = i) then b else loadingAt st i.
Proof.
  unfold loadingAt, setLoadingAt. simpl. destruct (decide (j = i)) as [->|Hne].
  - by rewrite lookup_insert_eq.
  - by rewrite lookup_insert_ne.
Qed.

Lemma isProcessing_handleRun_settled r st : isProcessing (handleRun_settled r st).1 = false.
Proof.
  unfold handleRun_settled. destruct r as [res|]; [|done].
  by destruct (or_else (prop (dataOf res) "actions_preview") (VArr [])).
Qed.

Lemma flags_handleRun_settled r st :
  isConfirming (handleRun_settled r st).1 = isConfirming st
  /\ rescheduleLoading (handleRun_settled r st).1 = rescheduleLoading st.
Proof.
  unfold handleRun_settled. destruct r as [res|]; [|done].
  by destruct (or_else (prop (dataOf res) "actions_preview") (VArr [])).
Qed.

Lemma flags_handleConfirm_settled r st :
  isConfirming (handleConfirm_settled r st).1 = false
  /\ isProcessing (handleConfirm_settled r st).1 = isProcessing st
  /\ rescheduleLoading (handleConfirm_settled r st).1 = rescheduleLoading st.
Proof.
  unfold handleConfirm_settled. destruct r as [res|]; [|done].
  destruct (or_else _ _); try done. by destruct (calendarFailed l) as [[]|].
Qed.

(** The busy marks are kept by a change that leaves the three marks
    alone and drops no call in flight. *)
Lemma busy_ok_keep w w' :
  isProcessing (ui w') = isProcessing (ui w) ->
  isConfirming (ui w') = isConfirming (ui w) ->
  rescheduleLoading (ui w') = rescheduleLoading (ui w) ->
  (forall K, tracked K -> waits K w = true -> waits K w' = true) ->
  busy_ok w -> busy_ok w'.
Proof.
  intros HP HC HL Hw (H1 & H2 & H3). unfold busy_ok, loadingAt.
  rewrite HP, HC, HL. repeat split; intros; apply Hw; auto.
  - by left.
  - right. by left.
  - right. right. by eexists.
Qed.

Lemma tracked_not_media K p :
  tracked K ->
  match p with
  | AwaitMedia _ _ | AwaitReader _ _ => K p = false
  | _ => True
  end.
Proof. intros [->|[->|[i ->]]]; by destruct p. Qed.

Lemma busy_ok_handleRun snap mode a o w :
  busy_ok w -> busy_ok (commit (handleRun snap mode a o (ui w)) w).
Proof.
  intros (H1 & H2 & H3). unfold busy_ok. rewrite ui_commit.
  split; [|split].
  - intros _. rewrite waits_commit. simpl. by rewrite orb_true_r.
  - intros H. rewrite waits_commit. by rewrite (H2 H).
  - intros i H. rewrite waits_commit. by rewrite (H3 i H).
Qed.

Lemma busy_ok_handleConfirm w : busy_ok w -> busy_ok (commit (handleConfirm (ui w)) w).
Proof.
  intros (H1 & H2 & H3). unfold busy_ok. rewrite ui_commit.
  unfold handleConfirm. destruct (truthy _); simpl.
  - split; [|split].
    + intros H. rewrite waits_commit. by rewrite (H1 H).
    + intros _. rewrite waits_commit. simpl. by rewrite orb_true_r.
    + intros i H. rewrite waits_commit. by rewrite (H3 i H).
  - split; [|split]; intros; rewrite waits_commit; simpl; rewrite orb_false_r; auto.
Qed.

Lemma busy_ok_handleReschedule snap i mode a w :
  busy_ok w -> busy_ok (commit (handleReschedule snap i mode a (ui w)) w).
Proof.
  intros (H1 & H2 & H3). unfold busy_ok. rewrite ui_commit.
  unfold handleReschedule. destruct (truthy _); cbn [next quiet].
  - split; [|split].
    + intros H. rewrite waits_commit. by rewrite (H1 H).
    + intros H. rewrite waits_commit. by rewrite (H2 H).
    + intros j H. rewrite waits_commit. rewrite loadingAt_setLoadingAt in H.
      cbn [spawned existsb loads]. destruct (decide (i = j)) as [->|Hne].
      * rewrite bool_decide_eq_true_2 by done. by rewrite !orb_true_r.
      * by rewrite (H3 j H).
  - split; [|split]; intros; rewrite waits_commit; simpl; rewrite orb_false_r; auto.
Qed.

Lemma busy_ok_adjust_settled snap j t r id w :
  lookup_id id (inflight w) = Some (AwaitAdjust j t snap) ->
  busy_ok w ->
  busy_ok (commit (handleReschedule_settled snap j t r (ui w))
             (set_inflight (remove_id id (inflight w)) w)).
Proof.
  intros Hl (H1 & H2 & H3).
  set (w1 := set_inflight (remove_id id (inflight w)) w).
  assert (forall K, K (AwaitAdjust j t snap) = false -> waits K w1 = waits K w) as Hrem
    by (intros K HK; by eapply waits_removed).
  assert (busy_ok (commit (quiet (setLoadingAt j false (ui w))) w1)
          /\ forall es, busy_ok (commit {| next := setLoadingAt j false (ui w);
                                           effects := es; spawned := [] |} w1))
    as [Hquiet Hfail].
  { assert (forall es, busy_ok (commit {| next := setLoadingAt j false (ui w);
                                          effects := es; spawned := [] |} w1)) as Hf.
    { intros es. unfold busy_ok. rewrite ui_commit. cbn [next].
      split; [|split].
      - intros H. rewrite waits_commit, Hrem by done. by rewrite (H1 H).
      - intros H. rewrite waits_commit, Hrem by done. by rewrite (H2 H).
      - intros i H. rewrite loadingAt_setLoadingAt in H.
        destruct (decide (j = i)) as [->|Hne]; [done|].
        rewrite waits_commit, Hrem; [by rewrite (H3 i H)|].
        simpl. by rewrite bool_decide_eq_false_2. }
    split; [apply Hf|exact Hf]. }
  unfold handleReschedule_settled. destruct r as [res|]; [|apply Hfail].
  destruct (normalizedLine _ _ _) as [[|c line]|]; [exact Hquiet| |apply Hfail].
  unfold busy_ok. rewrite ui_commit. cbn [next spawned effects].
  unfold appendToAnalyzeInput. cbn [next handleRun spawned map awaitedBy].
  split; [|split].
  - intros _. rewrite waits_commit. simpl. by rewrite orb_true_r.
  - intros H. rewrite waits_commit, Hrem by done. by rewrite (H2 H).
  - intros i H. rewrite waits_commit. cbn [spawned existsb loads].
    destruct (decide (j = i)) as [->|Hne].
    + rewrite bool_decide_eq_true_2 by done. by rewrite !orb_true_r.
    + rewrite Hrem; [by rewrite (H3 i H)|]. simpl. by rewrite bool_decide_eq_false_2.
Qed.

Lemma busy_ok_run_settled after r id w :
  lookup_id id (inflight w) = Some (AwaitRun after) ->
  busy_ok w ->
  busy_ok (resume (AwaitRun after) r (set_inflight (remove_id id (inflight w)) w)).
Proof.
  intros Hl (H1 & H2 & H3).
  set (w1 := set_inflight (remove_id id (inflight w)) w).
  assert (forall K, K (AwaitRun after) = false -> waits K w1 = waits K w) as Hrem
    by (intros K HK; by eapply waits_removed).
  destruct (flags_handleRun_settled r (ui w)) as [HC HL].
  pose proof (isProcessing_handleRun_settled r (ui w)) as HP.
  cbn [resume]. change (ui w1) with (ui w).
  destruct after as [j|]; unfold busy_ok; simpl; rewrite ?HP, ?HC.
  - split; [done|]. split.
    + intros H. change (waits isConfirm w1 = true). rewrite Hrem by done. auto.
    + intros i H. change (waits (loads i) w1 = true).
      change (loadingAt (setLoadingAt j false (handleRun_settled r (ui w)).1) i = true) in H.
      rewrite loadingAt_setLoadingAt in H.
      destruct (decide (j = i)) as [->|Hne]; [done|].
      unfold loadingAt in H. rewrite HL in H.
      rewrite Hrem; [by apply H3|]. simpl. by rewrite bool_decide_eq_false_2.
  - split; [done|]. split.
    + intros H. change (waits isConfirm w1 = true). rewrite Hrem by done. auto.
    + intros i H. change (waits (loads i) w1 = true).
      unfold loadingAt in H. rewrite HL in H. rewrite Hrem by done. by apply H3.
Qed.

Lemma busy_ok_resume p r id w :
  lookup_id id (inflight w) = Some p ->
  busy_ok w ->
  busy_ok (resume p r (set_inflight (remove_id id (inflight w)) w)).
Proof.
  intros Hl H.
  destruct p as [after| |j t snap|s snap|s snap].
  - by apply busy_ok_run_settled.
  - destruct H as (H1 & H2 & H3).
    set (w1 := set_inflight (remove_id id (inflight w)) w).
    assert (forall K, K AwaitConfirm = false -> waits K w1 = waits K w) as Hrem
      by (intros K HK; by eapply waits_removed).
    destruct (flags_handleConfirm_settled r (ui w)) as (HC & HP & HL).
    cbn [resume]. change (ui w1) with (ui w).
    unfold busy_ok, loadingAt. simpl. rewrite HC, HP, HL.
    split; [|split; [done|]].
    + intros Hp. change (waits isRun w1 = true). rewrite Hrem by done. auto.
    + intros i Hi. change (waits (loads i) w1 = true). rewrite Hrem by done.
      by apply H3.
  - cbn [resume].
    change (ui (set_inflight (remove_id id (inflight w)) w)) with (ui w).
    by apply busy_ok_adjust_settled.
  - assert (busy_ok (set_inflight (remove_id id (inflight w)) w)) as H1.
    { apply (busy_ok_keep w); [done|done|done| |exact H].
      intros K HT HK. erewrite waits_removed; [done|exact Hl|].
      apply (tracked_not_media K (AwaitMedia s snap) HT). }
    cbn [resume]. unfold startRecording_settled.
    destruct (bool_decide _); [|done]. by destruct s.
  - assert (busy_ok (set_inflight (remove_id id (inflight w)) w)) as H1.
    { apply (busy_ok_keep w); [done|done|done| |exact H].
      intros K HT HK. erewrite waits_removed; [done|exact Hl|].
      apply (tracked_not_media K (AwaitReader s snap) HT). }
    cbn [resume]. destruct r as [b64|]; [|done].
    destruct s as [|j]; unfold reader_settled.
    + by apply busy_ok_handleRun.
    + by apply busy_ok_handleReschedule.
Qed.

Lemma busy_ok_stopRecorder id w : busy_ok w -> busy_ok (stopRecorder id w).
Proof.
  intros H. unfold stopRecorder.
  destruct (lookup_id id (recorders w)) as [[s snap]|]; [|done].
  apply (busy_ok_keep w); [done|done|done| |exact H].
  intros K _ HK. rewrite waits_suspend. unfold waits in *. simpl. by rewrite HK.
Qed.

Lemma busy_ok_step e w w' : busy_ok w -> step e w = Some w' -> busy_ok w'.
Proof.
  intros H Hs.
  destruct e as [v| | | |i b|i k v|i v|i|i|i|id r]; cbn [step] in Hs;
    try (apply guard_Some in Hs as [Hg ->]).
  - done.
  - by apply busy_ok_handleRun.
  - destruct (isRecording (ui w)).
    + unfold handleStopRecording. destruct (mediaRecorderRef w) as [id|]; [|done].
      by apply (busy_ok_stopRecorder id) in H.
    + unfold handleStartRecording. destruct (mediaDevices w); [|done].
      apply (busy_ok_keep w); [done|done|done| |exact H].
      intros K _ HK. rewrite waits_suspend. by rewrite HK.
  - by apply busy_ok_handleConfirm.
  - done.
  - destruct (editedActions (ui w) !! i) as [a|]; [|done].
    destruct (_ && _); [|done].
    destruct (handleActionPayloadEdit _ _ _ _); [|done].
    by injection Hs as <-.
  - done.
  - destruct (nonBlank _); [|done]. by apply busy_ok_handleReschedule.
  - by apply busy_ok_handleReschedule.
  - destruct (bool_decide _).
    + unfold handleRescheduleStopRecording.
      destruct (rescheduleRecorderRef w) as [id|]; [|done].
      by apply (busy_ok_stopRecorder id) in H.
    + unfold handleRescheduleStartRecording. destruct (mediaDevices w); [|done].
      apply (busy_ok_keep w); [done|done|done| |exact H].
      intros K _ HK. rewrite waits_suspend. by rewrite HK.
  - destruct (lookup_id id (inflight w)) as [p|] eqn:Hl; [|done].
    injection Hs as <-. by apply busy_ok_resume.
Qed.

Lemma reachable_busy_ok w : reachable w -> busy_ok w.
Proof.
  apply (reachable_invariant busy_ok).
  - intros l d. by repeat split.
  - intros e w0 w' _. apply busy_ok_step.
Qed.

Lemma waits_elem K w : waits K w = true -> exists id p, (id, p) ∈ inflight w /\ K p = true.
Proof.
  unfold waits. rewrite existsb_exists. intros ([id p] & Hin & HK).
  exists id, p. split; [by apply list_elem_of_In|done].
Qed.

(** X12. The processing indicator is never left on by itself: in every
    world the page reaches in which it is on, an analyze request is in
    flight. *)
Theorem processing_has_request w :
  reachable w -> isProcessing (ui w) = true ->
  exists id after, (id, AwaitRun after) ∈ inflight w.
Proof.
  intros Hr Hp. apply reachable_busy_ok in Hr as (H & _ & _).
  apply waits_elem in H as (id & p & Hin & HK); [|exact Hp].
  destruct p; try done. by eexists _, _.
Qed.

(** X13. Likewise for the confirm button's loading mark: when it is on,
    a confirm request is in flight. *)
Theorem confirming_has_request w :
  reachable w -> isConfirming (ui w) = true ->
  exists id, (id, AwaitConfirm) ∈ inflight w.
Proof.
  intros Hr Hp. apply reachable_busy_ok in Hr as (_ & H & _).
  apply waits_elem in H as (id & p & Hin & HK); [|exact Hp].
  destruct p; try done. by eexists.
Qed.

(** X14. And for the loading mark of a reschedule index: when it is on,
    the correction request of that index is in flight, or the analyze
    its handler waits for. *)
Theorem loading_has_request w i :
  reachable w -> loadingAt (ui w) i = true ->
  exists id, (exists t snap, (id, AwaitAdjust i t snap) ∈ inflight w)
             \/ (id, AwaitRun (Some i)) ∈ inflight w.
Proof.
  intros Hr Hp. apply reachable_busy_ok in Hr as (_ & _ & H).
  specialize (H i Hp). apply waits_elem in H as (id & p & Hin & HK).
  exists id. destruct p as [[j|]| |j t snap| |]; try done; simpl in HK;
    apply bool_decide_eq_true in HK; subst j.
  - by right.
  - left. by eexists _, _.
Qed.

(** ** Requests *)

Lemma trimStart_nil_blank s : trimStart s = [] -> blank s = true.
Proof.
  induction s as [|c s IH]; [done|]. cbn [trimStart blank forallb].
  destruct (isWhiteSpace c); [exact IH|done].
Qed.

Lemma trimEnd_nil c s : isWhiteSpace c = false -> trimEnd (c :: s) <> [].
Proof. intros Hc. cbn [trimEnd]. destruct (trimEnd s); [by rewrite Hc|done]. Qed.

(** Trimming leaves nothing exactly of the blank strings. *)
Lemma trim_nil_blank s : trim s = [] <-> blank s = true.
Proof.
  unfold trim. split.
  - intros H. destruct (trimStart_head s) as [E|(c & r & E & Hc)].
    + by apply trimStart_nil_blank.
    + rewrite E in H. by apply trimEnd_nil in H.
  - intros H. by rewrite trimStart_blank.
Qed.

Lemma nonBlank_blank s : nonBlank s = true <-> blank s = false.
Proof.
  unfold nonBlank. pose proof (trim_nil_blank s) as [H1 H2].
  destruct (trim s) as [|c r], (blank s); split; try done.
  - intros _. by specialize (H1 eq_refl).
  - intros _. by specialize (H2 eq_refl).
Qed.

Lemma nonBlank_app_r a b : nonBlank b = true -> nonBlank (a ++ b) = true.
Proof.
  rewrite !nonBlank_blank. unfold blank. rewrite forallb_app.
  intros ->. apply andb_false_r.
Qed.

Lemma nonBlank_trimmed s : s <> [] -> trim s = s -> nonBlank s = true.
Proof. unfold nonBlank. intros Hne ->. by destruct s. Qed.

Lemma normalizedLine_trimmed l data t line :
  normalizedLine l data t = Some line -> trim line = line.
Proof.
  unfold normalizedLine. destruct (trim_val _) as [raw|] eqn:E; [|done].
  intros [= <-]. destruct (truthy (prop data "action")).
  - rewrite buildRescheduleLine_template. apply trim_rescheduleTemplate.
  - unfold trim_val in E. destruct (or_else _ _); try done.
    injection E as <-. apply trim_idemp.
Qed.

Lemma well_sent_runBody_text snap s :
  nonBlank s = true ->
  well_sent (Post "/autopilot/run" (runBody snap Text VNull (VStr s))).
Proof.
  intros Hs. split; [done|]. split; [done|]. intros _ _. exists s. split; [|done].
  unfold runBody, prop. simpl. by rewrite lookup_insert_eq.
Qed.

Lemma well_sent_runBody_input snap :
  nonBlank (inputText snap) = true ->
  well_sent (Post "/autopilot/run" (runBody snap Text VNull VNull)).
Proof.
  intros Hs. split; [done|]. split; [done|]. intros _ _. exists (inputText snap).
  split; [|done]. unfold runBody, prop. simpl. by rewrite lookup_insert_eq.
Qed.

Lemma well_sent_runBody_audio snap b64 o :
  well_sent (Post "/autopilot/run" (runBody snap Audio b64 o)).
Proof.
  split; [done|]. split; [done|]. intros _ H. exfalso.
  unfold runBody, prop in H. simpl in H.
  rewrite lookup_insert_ne, lookup_insert_ne, lookup_insert_eq in H by done.
  simpl in H. destruct (lang snap); discriminate.
Qed.

Lemma sent_ok_commit o w :
  sent_ok w -> Forall well_sent (effects o) -> sent_ok (commit o w).
Proof. unfold sent_ok. rewrite log_commit. intros. by apply Forall_app. Qed.

Lemma sent_ok_commit_settled (r : state * list effect) w :
  sent_ok w -> Forall well_sent r.2 -> sent_ok (commit_settled r w).
Proof. unfold sent_ok. simpl. intros. by apply Forall_app. Qed.

Lemma log_stopRecorder id w : log (stopRecorder id w) = log w.
Proof. unfold stopRecorder. by destruct (lookup_id id (recorders w)) as [[s snap]|]. Qed.

Lemma well_sent_handleConfirm st : Forall well_sent (effects (handleConfirm st)).
Proof.
  unfold handleConfirm. destruct (truthy (get_opt (runResult st) "run_id")) eqn:E;
    [|constructor].
  cbn [effects]. constructor; [|constructor].
  split; [|split; done]. intros _.
  unfold prop at 1 3. simpl.
  rewrite lookup_insert_ne, lookup_insert_eq, lookup_insert_eq by done. simpl.
  split; [|by eexists].
  unfold get_opt in E. by destruct (nullish (runResult st)).
Qed.

Lemma well_sent_handleReschedule_text snap i a st :
  nonBlank (draftAt snap i) = true ->
  Forall well_sent (effects (handleReschedule snap i Text a st)).
Proof.
  intros Hd. unfold handleReschedule.
  destruct (truthy (default VUndef (editedActions snap !! i))) eqn:E; [|constructor].
  cbn [effects]. constructor; [|constructor].
  split; [done|]. split; [|done]. intros _. unfold prop. simpl.
  rewrite lookup_insert_eq. simpl.
  rewrite lookup_insert_ne, lookup_insert_eq by done. simpl. split; [done|].
  intros _. eexists. split; [reflexivity|]. split; [|apply trim_idemp].
  unfold nonBlank in Hd. by destruct (trim (draftAt snap i)).
Qed.

Lemma well_sent_handleReschedule_audio snap i a st :
  Forall well_sent (effects (handleReschedule snap i Audio a st)).
Proof.
  unfold handleReschedule.
  destruct (truthy (default VUndef (editedActions snap !! i))) eqn:E; [|constructor].
  cbn [effects]. constructor; [|constructor].
  split; [done|]. split; [|done]. intros _. unfold prop. simpl.
  rewrite lookup_insert_ne, lookup_insert_eq by done. simpl. split; [done|].
  rewrite lookup_insert_ne, lookup_insert_ne, lookup_insert_ne, lookup_insert_eq by done.
  simpl. intros H. exfalso. discriminate.
Qed.

Lemma well_sent_handleReschedule_settled snap i t r st :
  Forall well_sent (effects (handleReschedule_settled snap i t r st)).
Proof.
  unfold handleReschedule_settled. destruct r as [res|]; [|by repeat constructor].
  destruct (normalizedLine _ _ _) as [[|c line]|] eqn:E; [constructor| |by repeat constructor].
  unfold appendToAnalyzeInput. cbn [effects handleRun].
  constructor; [|constructor]. apply well_sent_runBody_text.
  assert (nonBlank (c :: line) = true) as Hl.
  { apply nonBlank_trimmed; [done|]. by eapply normalizedLine_trimmed. }
  destruct (inputText snap) as [|d input]; [done|].
  rewrite (app_assoc (d :: input) [10]). by apply nonBlank_app_r.
Qed.

Lemma well_sent_handleRun_settled r st : Forall well_sent (handleRun_settled r st).2.
Proof.
  unfold handleRun_settled. destruct r as [res|]; [|by repeat constructor].
  destruct (or_else _ _); by repeat constructor.
Qed.

Lemma well_sent_handleConfirm_settled r st : Forall well_sent (handleConfirm_settled r st).2.
Proof.
  unfold handleConfirm_settled. destruct r as [res|]; [|by repeat constructor].
  destruct (or_else _ _); try by repeat constructor.
  destruct (calendarFailed l) as [[]|]; by repeat constructor.
Qed.

Lemma sent_ok_resume p r w : sent_ok w -> sent_ok (resume p r w).
Proof.
  intros H. destruct p as [after| |i t snap|s snap|s snap]; cbn [resume].
  - assert (sent_ok (commit_settled (handleRun_settled r (ui w)) w)) as H'
      by (apply sent_ok_commit_settled; [done|apply well_sent_handleRun_settled]).
    by destruct after.
  - apply sent_ok_commit_settled; [done|apply well_sent_handleConfirm_settled].
  - apply sent_ok_commit; [done|apply well_sent_handleReschedule_settled].
  - unfold startRecording_settled. destruct (bool_decide _).
    + by destruct s.
    + unfold sent_ok. simpl. apply Forall_app. split; [done|by repeat constructor].
  - destruct r as [b64|]; [|done]. destruct s as [|i]; unfold reader_settled.
    + apply sent_ok_commit; [done|]. constructor; [|constructor].
      apply well_sent_runBody_audio.
    + apply sent_ok_commit; [done|apply well_sent_handleReschedule_audio].
Qed.

Lemma sent_ok_step e w w' : sent_ok w -> step e w = Some w' -> sent_ok w'.
Proof.
  intros H Hs.
  destruct e as [v| | | |i b|i k v|i v|i|i|i|id r]; cbn [step] in Hs;
    try (apply guard_Some in Hs as [Hg ->]).
  - done.
  - apply andb_true_iff in Hg as [Hg _].
    apply sent_ok_commit; [done|]. constructor; [|constructor].
    by apply well_sent_runBody_input.
  - destruct (isRecording (ui w)).
    + unfold handleStopRecording. destruct (mediaRecorderRef w) as [id|]; [|done].
      unfold sent_ok. simpl. by rewrite log_stopRecorder.
    + unfold handleStartRecording. destruct (mediaDevices w); [done|].
      unfold sent_ok. simpl. apply Forall_app. split; [done|by repeat constructor].
  - apply sent_ok_commit; [done|apply well_sent_handleConfirm].
  - done.
  - destruct (editedActions (ui w) !! i) as [a|]; [|done].
    destruct (_ && _); [|done].
    destruct (handleActionPayloadEdit _ _ _ _); [|done].
    by injection Hs as <-.
  - done.
  - destruct (nonBlank (draftAt (ui w) i)) eqn:Hd; [|done].
    apply sent_ok_commit; [done|]. by apply well_sent_handleReschedule_text.
  - apply andb_true_iff in Hg as [Hg _]. apply andb_true_iff in Hg as [_ Hd].
    apply sent_ok_commit; [done|]. by apply well_sent_handleReschedule_text.
  - destruct (bool_decide _).
    + unfold handleRescheduleStopRecording.
      destruct (rescheduleRecorderRef w) as [id|]; [|done].
      unfold sent_ok. simpl. by rewrite log_stopRecorder.
    + unfold handleRescheduleStartRecording. destruct (mediaDevices w); [done|].
      unfold sent_ok. simpl. apply Forall_app. split; [done|by repeat constructor].
  - destruct (lookup_id id (inflight w)) as [p|] eqn:Hl; [|done].
    injection Hs as <-. by apply sent_ok_resume.
Qed.

Lemma reachable_sent_ok w : reachable w -> sent_ok w.
Proof.
  apply (reachable_invariant sent_ok).
  - intros l d. constructor.
  - intros e w0 w' _. apply sent_ok_step.
Qed.

Lemma posts_elem url body w :
  body ∈ posts url w -> Post url body ∈ log w.
Proof.
  unfold posts. intros H. apply list_elem_of_omap in H as (e & He & Hb).
  destruct e as [u b|n]; [|done]. case_bool_decide; [|done].
  injection Hb as ->. by subst u.
Qed.

Lemma reachable_well_sent url body w :
  reachable w -> body ∈ posts url w -> well_sent (Post url body).
Proof.
  intros Hr Hb. apply reachable_sent_ok in Hr. apply posts_elem in Hb.
  unfold sent_ok in Hr. rewrite Forall_forall in Hr. by apply Hr.
Qed.

(** X15. No confirm request is ever sent without a run: every body the
    page has posted to [/autopilot/confirm] has a truthy [run_id] and a
    list of actions. *)
Theorem confirm_requests_name_run w body :
  reachable w -> body ∈ posts "/autopilot/confirm" w ->
  truthy (prop body "run_id") = true /\ exists l, prop body "actions" = VArr l.
Proof.
  intros Hr Hb. by destruct (reachable_well_sent _ _ _ Hr Hb) as (H & _ & _); apply H.
Qed.

(** X16. No blank text is ever analyzed: every text-mode body the page
    has posted to [/autopilot/run], from the analyze button or from a
    merged correction, has a text with a character that is no white
    space. *)
Theorem analyze_requests_not_blank w body :
  reachable w -> body ∈ posts "/autopilot/run" w ->
  prop body "mode" = str "text" ->
  exists s, prop body "text" = VStr s /\ nonBlank s = true.
Proof.
  intros Hr Hb. by destruct (reachable_well_sent _ _ _ Hr Hb) as (_ & _ & H); apply H.
Qed.

(** X17. Every correction request names the action it corrects, and a
    typed correction is sent trimmed and never empty. *)
Theorem correction_requests_well_formed w body :
  reachable w -> body ∈ posts "/autopilot/adjust-time" w ->
  truthy (prop body "action") = true
  /\ (prop body "mode" = str "text" ->
      exists s, prop body "text" = VStr s /\ s <> [] /\ trim s = s).
Proof.
  intros Hr Hb. by destruct (reachable_well_sent _ _ _ Hr Hb) as (_ & H & _); apply H.
Qed.

(** ** Confirm results *)

Lemma calendarFailed_spec l :
  Forall (fun r => nullish r = false) l ->
  calendarFailed l = Some (existsb meetingFailed l).
Proof.
  induction 1 as [|r l Hr _ IH]; [done|]. cbn [calendarFailed existsb].
  unfold get. rewrite Hr. fold (meetingFailed r).
  destruct (meetingFailed r); [done|exact IH].
Qed.

(** X18. On a confirm response whose results are a list without [null]
    entries the page stores the response, ends the confirming mark, and
    shows the calendar warning exactly when some [create_meeting] result
    failed or is blocked; otherwise it shows the success notice. *)
Theorem handleConfirm_settled_notice res l st :
  or_else (get_opt (dataOf res) "results") (VArr []) = VArr l ->
  Forall (fun r => nullish r = false) l ->
  handleConfirm_settled (Some res) st
  = (setIsConfirming false (setConfirmResult (dataOf res) st),
     [Notify (if existsb meetingFailed l
              then confirmCalendarFailed else confirmSuccess)]).
Proof.
  intros Hl Hobj. unfold handleConfirm_settled. rewrite Hl.
  rewrite (calendarFailed_spec l Hobj). by destruct (existsb meetingFailed l).
Qed.

Lemma calendarFailed_blocked l i r :
  l !! i = Some r ->
  is_str (prop r "status") (lit "blocked")
  && is_str (prop r "action_type") (lit "create_meeting") = true ->
  calendarFailed l <> Some false.
Proof.
  revert i. induction l as [|r0 l IH]; intros i Hi Hr; [done|].
  cbn [calendarFailed]. unfold get.
  destruct (nullish r0) eqn:Hn; [done|].
  destruct (is_str (prop r0 "action_type") (lit "create_meeting")
            && (is_str (prop r0 "status") (lit "failed")
                || is_str (prop r0 "status") (lit "blocked"))) eqn:E; [done|].
  destruct i as [|i]; [|by eapply IH].
  injection Hi as ->. apply andb_true_iff in Hr as [Hs Ht].
  rewrite Ht, Hs, orb_true_r in E. done.
Qed.

(** X19. The reschedule controls never come with the success notice: if
    a confirm response makes the controls of some result appear, the
    notice shown for it is not [confirmSuccess]. *)
Theorem reschedule_controls_not_success res st i :
  rescheduleShown (handleConfirm_settled (Some res) st).1 i = true ->
  (handleConfirm_settled (Some res) st).2 <> [Notify confirmSuccess].
Proof.
  intros Hshown.
  assert (confirmResult (handleConfirm_settled (Some res) st).1 = dataOf res) as Hc.
  { unfold handleConfirm_settled. destruct (or_else _ _); try done.
    by destruct (calendarFailed l) as [[]|]. }
  unfold rescheduleShown in Hshown. rewrite Hc in Hshown.
  apply andb_true_iff in Hshown as [_ Hshown].
  destruct (prop (dataOf res) "results") as [| | | | |l|] eqn:El; try done.
  destruct (l !! i) as [r|] eqn:Hi; [|done].
  pose proof (calendarFailed_blocked l i r Hi Hshown) as Hcf.
  unfold handleConfirm_settled, get_opt. rewrite dataOf_not_nullish, El. simpl.
  destruct (calendarFailed l) as [[]|]; done.
Qed.

(** ** Recorders *)

Lemma refs_suspends ps w :
  let w' := foldl (fun w p => suspend p w) w ps in
  recorders w' = recorders w /\ mediaRecorderRef w' = mediaRecorderRef w
  /\ rescheduleRecorderRef w' = rescheduleRecorderRef w
  /\ (issued w <= issued w')%nat.
Proof.
  revert w. induction ps as [|p ps IH]; intros w; simpl; [by repeat split|].
  destruct (IH (suspend p w)) as (H1 & H2 & H3 & H4). simpl in *.
  repeat split; try done. lia.
Qed.

Lemma rec_move_commit o w :
  isRecording (next o) = isRecording (ui w) ->
  rescheduleRecordingIndex (next o) = rescheduleRecordingIndex (ui w) ->
  rec_move w (commit o w).
Proof.
  intros H1 H2.
  destruct (refs_suspends (spawned o) (emit (effects o) (with_ui (fun _ => next o) w)))
    as (Hr & Hm & Hs & Hi).
  apply rec_same; rewrite ?ui_commit; try done.
Qed.

Lemma marks_handleConfirm st :
  isRecording (next (handleConfirm st)) = isRecording st
  /\ rescheduleRecordingIndex (next (handleConfirm st)) = rescheduleRecordingIndex st.
Proof. unfold handleConfirm. by destruct (truthy _). Qed.

Lemma marks_handleReschedule snap i mode a st :
  isRecording (next (handleReschedule snap i mode a st)) = isRecording st
  /\ rescheduleRecordingIndex (next (handleReschedule snap i mode a st))
     = rescheduleRecordingIndex st.
Proof. unfold handleReschedule. by destruct (truthy _). Qed.

Lemma marks_handleReschedule_settled snap i t r st :
  isRecording (next (handleReschedule_settled snap i t r st)) = isRecording st
  /\ rescheduleRecordingIndex (next (handleReschedule_settled snap i t r st))
     = rescheduleRecordingIndex st.
Proof.
  unfold handleReschedule_settled. destruct r as [res|]; [|done].
  by destruct (normalizedLine _ _ _) as [[|c line]|].
Qed.

Lemma marks_handleRun_settled r st :
  isRecording (handleRun_settled r st).1 = isRecording st
  /\ rescheduleRecordingIndex (handleRun_settled r st).1 = rescheduleRecordingIndex st.
Proof.
  unfold handleRun_settled. destruct r as [res|]; [|done].
  by destruct (or_else (prop (dataOf res) "actions_preview") (VArr [])).
Qed.

Lemma marks_handleConfirm_settled r st :
  isRecording (handleConfirm_settled r st).1 = isRecording st
  /\ rescheduleRecordingIndex (handleConfirm_settled r st).1 = rescheduleRecordingIndex st.
Proof.
  unfold handleConfirm_settled. destruct r as [res|]; [|done].
  destruct (or_else _ _); try done. by destruct (calendarFailed l) as [[]|].
Qed.

Lemma remove_id_absent {A} id (l : list (nat * A)) :
  lookup_id id l = None -> remove_id id l = l.
Proof.
  induction l as [|[k x] l IH]; [done|]. simpl.
  destruct (Nat.eqb k id); [done|]. intros H. by rewrite IH.
Qed.

Lemma stopRecorder_view id w :
  recorders (stopRecorder id w) = remove_id id (recorders w)
  /\ mediaRecorderRef (stopRecorder id w) = mediaRecorderRef w
  /\ rescheduleRecorderRef (stopRecorder id w) = rescheduleRecorderRef w
  /\ (issued w <= issued (stopRecorder id w))%nat.
Proof.
  unfold stopRecorder. destruct (lookup_id id (recorders w)) as [[s snap]|] eqn:E.
  - simpl. repeat split; try done. lia.
  - by rewrite remove_id_absent.
Qed.

Lemma rec_move_set_inflight ps w w' :
  rec_move (set_inflight ps w) w' -> rec_move w w'.
Proof.
  intros [H1 H2 H3 H4 H5 H6|snap H1 H2 H3 H4 H5 H6|i snap H1 H2 H3 H4 H5 H6
         |id H0 H1 H2 H3 H4 H5 H6|id H0 H1 H2 H3 H4 H5 H6]; simpl in *.
  - by apply rec_same.
  - by apply (rec_start_primary _ _ snap).
  - by apply (rec_start_index _ _ i snap).
  - by apply (rec_stop_primary _ _ id).
  - by apply (rec_stop_index _ _ id).
Qed.

Lemma rec_move_settle p r ps w :
  rec_move w (resume p r (set_inflight ps w)).
Proof.
  apply (rec_move_set_inflight ps). set (w1 := set_inflight ps w).
  destruct p as [after| |i t snap|s snap|s snap]; cbn [resume].
  - destruct (marks_handleRun_settled r (ui w1)) as [H1 H2].
    destruct after; apply rec_same; simpl; try done.
  - destruct (marks_handleConfirm_settled r (ui w1)) as [H1 H2].
    apply rec_same; simpl; done.
  - destruct (marks_handleReschedule_settled snap i t r (ui w1)) as [H1 H2].
    by apply rec_move_commit.
  - unfold startRecording_settled. destruct (bool_decide _); [|by apply rec_same].
    destruct s as [|i].
    + apply (rec_start_primary _ _ snap); simpl; try done. lia.
    + apply (rec_start_index _ _ i snap); simpl; try done. lia.
  - destruct r as [b64|]; [|by apply rec_same].
    destruct s as [|i]; unfold reader_settled.
    + by apply rec_move_commit.
    + destruct (marks_handleReschedule snap i Audio b64 (ui w1)) as [H1 H2].
      by apply rec_move_commit.
Qed.

(** What a step does to the recorders. *)
Lemma step_rec_move e w w' : step e w = Some w' -> rec_move w w'.
Proof.
  intros Hs.
  destruct e as [v| | | |i b|i k v|i v|i|i|i|id r]; cbn [step] in Hs;
    try (apply guard_Some in Hs as [Hg ->]).
  - by apply rec_same.
  - by apply rec_move_commit.
  - destruct (isRecording (ui w)) eqn:Hrec.
    + unfold handleStopRecording. destruct (mediaRecorderRef w) as [id|] eqn:Href;
        [|by apply rec_same].
      destruct (stopRecorder_view id w) as (H1 & H2 & H3 & H4).
      apply (rec_stop_primary _ _ id); simpl; try done.
      by rewrite ui_stopRecorder.
    + unfold handleStartRecording. destruct (mediaDevices w); apply rec_same; simpl;
        try done. lia.
  - destruct (marks_handleConfirm (ui w)) as [H1 H2]. by apply rec_move_commit.
  - by apply rec_same.
  - destruct (editedActions (ui w) !! i) as [a|]; [|done].
    destruct (_ && _); [|done].
    destruct (handleActionPayloadEdit _ _ _ _); [|done].
    injection Hs as <-. by apply rec_same.
  - by apply rec_same.
  - destruct (nonBlank _); [|by apply rec_same].
    destruct (marks_handleReschedule (ui w) i Text VNull (ui w)) as [H1 H2].
    by apply rec_move_commit.
  - destruct (marks_handleReschedule (ui w) i Text VNull (ui w)) as [H1 H2].
    by apply rec_move_commit.
  - destruct (bool_decide _).
    + unfold handleRescheduleStopRecording.
      destruct (rescheduleRecorderRef w) as [id|] eqn:Href; [|by apply rec_same].
      destruct (stopRecorder_view id w) as (H1 & H2 & H3 & H4).
      apply (rec_stop_index _ _ id); simpl; try done.
      by rewrite ui_stopRecorder.
    + unfold handleRescheduleStartRecording. destruct (mediaDevices w); apply rec_same;
        simpl; try done. lia.
  - destruct (lookup_id id (inflight w)) as [p|] eqn:Hl; [|done].
    injection Hs as <-. apply rec_move_settle.
Qed.

Lemma lookup_id_app_l {A} k (l l' : list (nat * A)) x :
  lookup_id k l = Some x -> lookup_id k (l ++ l') = Some x.
Proof.
  induction l as [|[j y] l IH]; [done|]. simpl.
  destruct (Nat.eqb j k); [done|exact IH].
Qed.

Lemma lookup_id_Some_lt {A} n k (l : list (nat * A)) x :
  Forall (fun p => (p.1 < n)%nat) l -> lookup_id k l = Some x -> (k < n)%nat.
Proof.
  induction 1 as [|[j y] l Hj _ IH]; [done|]. simpl in *.
  destruct (Nat.eqb_spec j k) as [<-|Hne]; [done|exact IH].
Qed.

Lemma Forall_lt_weaken {A} n m (l : list (nat * A)) :
  (n <= m)%nat -> Forall (fun p => (p.1 < n)%nat) l -> Forall (fun p => (p.1 < m)%nat) l.
Proof. intros Hnm H. eapply Forall_impl; [exact H|]. simpl. lia. Qed.

Lemma recorders_ok_move w w' : recorders_ok w -> rec_move w w' -> recorders_ok w'.
Proof.
  intros (Hn & Hrec & Hm & Hr & Hnone)
    [H1 H2 H3 H4 H5 H6|snap H1 H2 H3 H4 H5 H6|i snap H1 H2 H3 H4 H5 H6
    |id H0 H1 H2 H3 H4 H5 H6|id H0 H1 H2 H3 H4 H5 H6];
    unfold recorders_ok; rewrite H1, H2, H3, H4, H5.
  - split; [by eapply Forall_lt_weaken|done].
  - split; [|split; [|split; [|split]]].
    + apply Forall_app. split; [eapply Forall_lt_weaken; [|exact Hn]; lia|].
      repeat constructor. simpl. lia.
    + split; [by eexists|done].
    + intros id [= <-]. exists snap. by apply lookup_id_fresh.
    + intros id Hid. destruct (Hr id Hid) as (i & s & Hl & Hi).
      exists i, s. split; [by apply lookup_id_app_l|done].
    + done.
  - split; [|split; [|split; [|split]]].
    + apply Forall_app. split; [eapply Forall_lt_weaken; [|exact Hn]; lia|].
      repeat constructor. simpl. lia.
    + done.
    + intros id Hid. destruct (Hm id Hid) as (s & Hl).
      exists s. by apply lookup_id_app_l.
    + intros id [= <-]. exists i, snap. split; [by apply lookup_id_fresh|done].
    + done.
  - destruct (Hm id H0) as (s0 & Hl0).
    split; [|split; [|split; [|split]]].
    + eapply Forall_lt_weaken; [exact H6|]. by apply Forall_remove_id.
    + split; [done|by intros []].
    + done.
    + intros id' Hid. destruct (Hr id' Hid) as (i & s & Hl & Hi).
      exists i, s. split; [|done]. rewrite lookup_remove_id_ne; [done|].
      intros ->. congruence.
    + done.
  - destruct (Hr id H0) as (i0 & s0 & Hl0 & Hi0).
    split; [|split; [|split; [|split]]].
    + eapply Forall_lt_weaken; [exact H6|]. by apply Forall_remove_id.
    + done.
    + intros id' Hid. destruct (Hm id' Hid) as (s & Hl).
      exists s. rewrite lookup_remove_id_ne; [done|]. intros ->. congruence.
    + done.
    + done.
Qed.

Lemma reachable_recorders_ok w : reachable w -> recorders_ok w.
Proof.
  apply (reachable_invariant recorders_ok).
  - intros l d. split; [constructor|]. split; [|done].
    split; [done|]. by intros [x Hx].
  - intros e w0 w' _ H Hs. eapply recorders_ok_move; [exact H|by eapply step_rec_move].
Qed.

(** X20. The recording marks tell the truth about the refs: in every
    world the page reaches, the main input is marked as recording
    exactly when [mediaRecorderRef] holds a recorder that is recording
    for the main input, and index [i] is marked exactly when
    [rescheduleRecorderRef] holds a recorder that is recording for
    [i]. *)
Theorem recording_marks_agree w :
  reachable w ->
  (isRecording (ui w) = true
   <-> exists id snap,
         mediaRecorderRef w = Some id
         /\ lookup_id id (recorders w) = Some (primary, snap))
  /\ (forall i,
        rescheduleRecordingIndex (ui w) = Some i
        <-> exists id snap,
              rescheduleRecorderRef w = Some id
              /\ lookup_id id (recorders w) = Some (at_index i, snap)).
Proof.
  intros Hr. apply reachable_recorders_ok in Hr as (_ & Hrec & Hm & Hx & Hnone).
  split.
  - split.
    + intros H. apply Hrec in H as [id Hid]. destruct (Hm id Hid) as [snap Hl].
      by exists id, snap.
    + intros (id & snap & Hid & _). apply Hrec. by eexists.
  - intros i. split.
    + intros H. destruct (rescheduleRecorderRef w) as [id|] eqn:Hid.
      * destruct (Hx id eq_refl) as (j & snap & Hl & Hj).
        exists id, snap. split; [done|]. congruence.
      * rewrite Hnone in H; done.
    + intros (id & snap & Hid & Hl). destruct (Hx id Hid) as (j & s & Hl' & Hj).
      congruence.
Qed.

(** X21. Stopping the main recording always has a recorder to stop:
    when the main input is marked as recording and the button is
    enabled, the click stops the recorder the ref holds, starts reading
    its audio exactly once, empties the ref and ends the mark. *)
Theorem stop_recording_reads_once w :
  reachable w ->
  isRecording (ui w) = true -> isProcessing (ui w) = false ->
  exists id snap w',
    mediaRecorderRef w = Some id
    /\ lookup_id id (recorders w) = Some (primary, snap)
    /\ step ClickRecord w = Some w'
    /\ recorders w' = remove_id id (recorders w)
    /\ inflight w' = inflight w ++ [(issued w, AwaitReader primary snap)]
    /\ mediaRecorderRef w' = None
    /\ isRecording (ui w') = false.
Proof.
  intros Hr Hrec Hp. apply reachable_recorders_ok in Hr as (_ & Hok & Hm & _).
  apply Hok in Hrec as Href. destruct Href as [id Hid].
  destruct (Hm id Hid) as [snap Hl]. exists id, snap.
  cbn [step]. rewrite Hp, Hrec. cbn [negb guard].
  unfold handleStopRecording, stopRecorder. rewrite Hid, Hl.
  eexists. split; [reflexivity|]. by repeat split.
Qed.

Lemma orphan_move id w w' : recorders_ok w -> orphan id w -> rec_move w w' -> orphan id w'.
Proof.
  intros (Hn & _) ([x Hx] & Hm & Hr)
    [H1 H2 H3 H4 H5 H6|snap H1 H2 H3 H4 H5 H6|i snap H1 H2 H3 H4 H5 H6
    |id' H0 H1 H2 H3 H4 H5 H6|id' H0 H1 H2 H3 H4 H5 H6];
    unfold orphan; rewrite H1, H2, H3;
    pose proof (lookup_id_Some_lt _ _ _ _ Hn Hx) as Hlt.
  - split; [by eexists|done].
  - split; [exists x; by apply lookup_id_app_l|]. split; [|done].
    intros [= E]. lia.
  - split; [exists x; by apply lookup_id_app_l|]. split; [done|].
    intros [= E]. lia.
  - split; [|done]. exists x. rewrite lookup_remove_id_ne; [done|]. congruence.
  - split; [|done]. exists x. rewrite lookup_remove_id_ne; [done|]. congruence.
Qed.

(** X22. A recorder that neither ref names is never stopped: once a
    recorder is recording and both refs hold something else, it is still
    recording, and still unnamed, after whatever happens on the page. *)
Theorem orphan_recorder_stays id es w w' :
  reachable w -> orphan id w -> run es w = Some w' -> orphan id w'.
Proof.
  revert w. induction es as [|e es IH]; intros w Hr Ho Hrun; simpl in Hrun.
  - by injection Hrun as <-.
  - destruct (step e w) as [w1|] eqn:Hs; [|done].
    apply (IH w1); [by eapply reachable_step| |done].
    eapply orphan_move; [by apply reachable_recorders_ok|done|by eapply step_rec_move].
Qed.

(** ** What the page lets through *)

Lemma guard_false b w : b = false -> guard b w = None.
Proof. by intros ->. Qed.

(** X23. While an analyze is under way the page takes no user action:
    the input, both buttons and everything in the results are disabled
    or hidden, so the only events possible are promises settling. *)
Theorem processing_locks_page e w :
  isProcessing (ui w) = true -> is_settle e = false -> step e w = None.
Proof.
  intros Hp He.
  assert (resultsShown (ui w) = false) as Hres
    by (unfold resultsShown; rewrite Hp; apply andb_false_r).
  assert (forall i, rescheduleShown (ui w) i = false) as Hshown
    by (intros i; unfold rescheduleShown; by rewrite Hres).
  destruct e as [v| | | |i b|i k v|i v|i|i|i|id r]; try done; cbn [step];
    rewrite ?Hp, ?Hres, ?Hshown; cbn [negb andb]; rewrite ?andb_false_r; try done.
  by destruct (editedActions (ui w) !! i).
Qed.









(** X25. An edit reaches the confirm request: after an edit of payload
    field [f] of action [i] has gone through, the entry submitted for
    [i] has a payload whose field [f] is the new value. *)
Theorem edit_reaches_confirmation i f v st l :
  handleActionPayloadEdit i f v (editedActions st) = Some l ->
  exists m p,
    serializeForConfirmation (setEditedActions l st) !! i = Some (VObj m)
    /\ m !! "payload" = Some (VObj p)
    /\ p !! f = Some v.
Proof.
  intros H. pose proof (handleActionPayloadEdit_cases i f v (editedActions st)) as Hc.
  destruct (editedActions st !! i) as [a|] eqn:Ha; [|congruence].
  destruct (nullish a); [congruence|]. rewrite Hc in H. injection H as <-.
  unfold serializeForConfirmation. rewrite list_lookup_imap. simpl.
  rewrite list_lookup_insert_eq by by eapply lookup_lt_Some. simpl.
  eexists _, _. split; [reflexivity|]. split.
  - rewrite lookup_insert_ne, lookup_insert_ne by done. simpl. apply lookup_insert_eq.
  - apply lookup_insert_eq.
Qed.

(** X26. A reschedule for an index past the end of the action list the
    handler sees does nothing: no request, no loading mark, no notice. *)
Theorem handleReschedule_stale_index snap index mode audioB64 st :
  (length (editedActions snap) <= index)%nat ->
  handleReschedule snap index mode audioB64 st = quiet st.
Proof.
  intros Hi. unfold handleReschedule.
  by rewrite (lookup_ge_None_2 (editedActions snap) index Hi).
Qed.

(** X27. The line resolved from a correction response has no white
    space at either end, and with an adjusted action in the response it
    is never empty. *)
Theorem reschedule_line_trimmed l data bodyText line :
  normalizedLine l data bodyText = Some line ->
  trim line = line /\ (truthy (prop data "action") = true -> line <> []).
Proof.
  intros H. split; [by eapply normalizedLine_trimmed|].
  intros Ha. unfold normalizedLine in H. destruct (trim_val _) as [raw|]; [|done].
  rewrite Ha in H. injection H as <-. rewrite buildRescheduleLine_template.
  apply rescheduleTemplate_not_empty.
Qed.

(** ** The language context *)

Lemma splitDots_nonempty key : splitDots key <> [].
Proof.
  induction key as [|c key IH]; [done|]. simpl.
  destruct (Ascii.eqb c "."); [done|]. by destruct (splitDots key).
Qed.

Lemma splitDots_app_dot a b :
  nodot a = true -> splitDots (String.append a (String "." b)) = a :: splitDots b.
Proof.
  induction a as [|c a IH]; [done|]. simpl. intros H.
  apply andb_true_iff in H as [Hc Ha]. apply negb_true_iff in Hc.
  by rewrite Hc, (IH Ha).
Qed.

Lemma splitDots_nodot a : nodot a = true -> splitDots a = [a].
Proof.
  induction a as [|c a IH]; [done|]. simpl. intros H.
  apply andb_true_iff in H as [Hc Ha]. apply negb_true_iff in Hc.
  by rewrite Hc, (IH Ha).
Qed.

Lemma walk_undef parts : walk VUndef parts = VUndef.
Proof. by destruct parts. Qed.

Lemma tableOf_object l : exists m, tableOf l = VObj m.
Proof. destruct l; eexists; vm_compute; reflexivity. Qed.

(** X28. The table has no section [autopilot]: for every key of that
    section, in both languages, [t] returns the key itself, so the
    notices of the Autopilot page show their keys. *)
Theorem t_autopilot_falls_back l name :
  t l (String.append "autopilot." name) = lit (String.append "autopilot." name).
Proof.
  unfold t, resolveKey.
  change (String.append "autopilot." name)
    with (String.append "autopilot" (String "." name)).
  rewrite splitDots_app_dot by done.
  assert (prop (tableOf l) "autopilot" = VUndef) as Hp
    by (destruct l; vm_compute; reflexivity).
  destruct (tableOf_object l) as [m E]. rewrite E in *. cbn [walk].
  by rewrite Hp, walk_undef.
Qed.

(** X29. A key [section.name] whose section is an object of the table
    with a string under [name] is translated to that string. *)
Theorem t_resolves l section name m s :
  nodot section = true -> nodot name = true ->
  prop (tableOf l) section = VObj m -> m !! name = Some (VStr s) ->
  t l (String.append section (String "." name)) = s.
Proof.
  intros Hs Hn Hsec Hname. unfold t, resolveKey.
  rewrite splitDots_app_dot, (splitDots_nodot name) by done.
  destruct (tableOf_object l) as [m0 E]. rewrite E in *. cbn [walk].
  rewrite Hsec. unfold prop. simpl. by rewrite Hname.
Qed.

(** ** The further properties on the scenarios *)

Lemma reachable_recordingPrimary : reachable recordingPrimary.
Proof.
  exists en, true, (toBlocked ++ [ClickRecord; Settle 2 (Some VUndef)]).
  vm_compute. reflexivity.
Defined.

Lemma reachable_doubleStart : reachable doubleStart.
Proof.
  exists en, true,
    [ClickRecord; ClickRecord; Settle 0 (Some VUndef); Settle 1 (Some VUndef)].
  vm_compute. reflexivity.
Defined.

Lemma reachable_analyzing : reachable analyzing.
Proof.
  exists en, true, [TypeInput (lit "schedule a demo"); ClickAnalyze].
  vm_compute. reflexivity.
Defined.

Lemma reachable_confirming : reachable confirming.
Proof. exists en, true, (take 4 toBlocked). vm_compute. reflexivity. Defined.

Lemma reachable_correcting : reachable correcting.
Proof.
  exists en, true,
    (toBlocked ++ [TypeReschedule 0 (lit " move to 3pm "); ClickReschedule 0]).
  vm_compute. reflexivity.
Defined.

Lemma escapeHtml_injective_demo :
  escapeHtml (lit "a<b") = escapeHtml ([97] ++ [60; 98]) /\ lit "a<b" = [97] ++ [60; 98].
Proof.
  assert (escapeHtml (lit "a<b") = escapeHtml ([97] ++ [60; 98])) as H by reflexivity.
  split; [exact H|]. exact (escapeHtml_injective _ _ H).
Defined.

Lemma formatPlainTextAsHtml_one_line_demo :
  lit " a & b " <> [] /\ (10 ∉ trim (lit " a & b "))
  /\ formatPlainTextAsHtml (lit " a & b ") = lit "<p>a &amp; b</p>".
Proof.
  assert (lit " a & b " <> []) as H1 by discriminate.
  assert (10 ∉ trim (lit " a & b ")) as H2
    by (apply (bool_decide_unpack _); vm_compute; reflexivity).
  split; [exact H1|]. split; [exact H2|].
  rewrite (formatPlainTextAsHtml_one_line _ H1 H2). reflexivity.
Defined.

Lemma formatPlainTextAsHtml_blank_demo :
  [32; 10; 9] <> [] /\ blank [32; 10; 9] = true
  /\ formatPlainTextAsHtml [32; 10; 9] = lit "<p></p>".
Proof.
  assert ([32; 10; 9] <> @nil N) as H1 by discriminate.
  assert (blank [32; 10; 9] = true) as H2 by reflexivity.
  split; [exact H1|]. split; [exact H2|].
  exact (formatPlainTextAsHtml_blank _ H1 H2).
Defined.

Lemma formatPlainTextAsHtml_trim_demo :
  trim (lit "  hi  ") <> []
  /\ formatPlainTextAsHtml (lit "  hi  ") = formatPlainTextAsHtml (trim (lit "  hi  ")).
Proof.
  assert (trim (lit "  hi  ") <> []) as H by (vm_compute; discriminate).
  split; [exact H|]. exact (formatPlainTextAsHtml_trim _ H).
Defined.

Lemma handleActionPayloadEdit_read_back_demo :
  let l := [edited demoAction "title" (str "Demo v2")] in
  handleActionPayloadEdit 0 "title" (str "Demo v2") [demoAction] = Some l
  /\ length l = 1%nat
  /\ exists a', l !! 0%nat = Some a' /\ prop (prop a' "payload") "title" = str "Demo v2".
Proof.
  intros l.
  assert (handleActionPayloadEdit 0 "title" (str "Demo v2") [demoAction] = Some l) as H
    by reflexivity.
  split; [exact H|]. exact (handleActionPayloadEdit_read_back _ _ _ _ _ H).
Defined.

Lemma handleActionPayloadEdit_commute_demo :
  ((0%nat <> 0%nat) \/ ("title" <> "date"))
  /\ (handleActionPayloadEdit 0 "title" (str "Demo v2") [demoAction]
        ≫= handleActionPayloadEdit 0 "date" (str "2026-02-11"))
     = (handleActionPayloadEdit 0 "date" (str "2026-02-11") [demoAction]
          ≫= handleActionPayloadEdit 0 "title" (str "Demo v2")).
Proof.
  assert ((0%nat <> 0%nat) \/ ("title" <> "date")) as H by (right; discriminate).
  split; [exact H|]. exact (handleActionPayloadEdit_commute _ _ _ _ _ _ _ H).
Defined.

Lemma reachable_aligned_demo :
  reachable recordingPrimary /\ aligned (ui recordingPrimary).
Proof.
  split; [exact reachable_recordingPrimary|].
  exact (reachable_aligned _ reachable_recordingPrimary).
Defined.

Lemma processing_has_request_demo :
  reachable analyzing /\ isProcessing (ui analyzing) = true
  /\ exists id after, (id, AwaitRun after) ∈ inflight analyzing.
Proof.
  assert (isProcessing (ui analyzing) = true) as H by reflexivity.
  split; [exact reachable_analyzing|]. split; [exact H|].
  exact (processing_has_request _ reachable_analyzing H).
Defined.

Lemma confirming_has_request_demo :
  reachable confirming /\ isConfirming (ui confirming) = true
  /\ exists id, (id, AwaitConfirm) ∈ inflight confirming.
Proof.
  assert (isConfirming (ui confirming) = true) as H by (vm_compute; reflexivity).
  split; [exact reachable_confirming|]. split; [exact H|].
  exact (confirming_has_request _ reachable_confirming H).
Defined.

Lemma loading_has_request_demo :
  reachable correcting /\ loadingAt (ui correcting) 0 = true
  /\ exists id,
       (exists t snap, (id, AwaitAdjust 0 t snap) ∈ inflight correcting)
       \/ (id, AwaitRun (Some 0%nat)) ∈ inflight correcting.
Proof.
  assert (loadingAt (ui correcting) 0 = true) as H by (vm_compute; reflexivity).
  split; [exact reachable_correcting|]. split; [exact H|].
  exact (loading_has_request _ _ reachable_correcting H).
Defined.

Lemma confirm_requests_name_run_demo :
  reachable recordingPrimary
  /\ firstPost "/autopilot/confirm" recordingPrimary
       ∈ posts "/autopilot/confirm" recordingPrimary
  /\ truthy (prop (firstPost "/autopilot/confirm" recordingPrimary) "run_id") = true.
Proof.
  assert (firstPost "/autopilot/confirm" recordingPrimary
            ∈ posts "/autopilot/confirm" recordingPrimary) as H
    by (vm_compute; apply list_elem_of_here).
  split; [exact reachable_recordingPrimary|]. split; [exact H|].
  exact (proj1 (confirm_requests_name_run _ _ reachable_recordingPrimary H)).
Defined.

Lemma analyze_requests_not_blank_demo :
  reachable analyzing
  /\ firstPost "/autopilot/run" analyzing ∈ posts "/autopilot/run" analyzing
  /\ prop (firstPost "/autopilot/run" analyzing) "mode" = str "text"
  /\ exists s,
       prop (firstPost "/autopilot/run" analyzing) "text" = VStr s
       /\ nonBlank s = true.
Proof.
  assert (firstPost "/autopilot/run" analyzing ∈ posts "/autopilot/run" analyzing) as H
    by (vm_compute; apply list_elem_of_here).
  assert (prop (firstPost "/autopilot/run" analyzing) "mode" = str "text") as Hm
    by (vm_compute; reflexivity).
  split; [exact reachable_analyzing|]. split; [exact H|]. split; [exact Hm|].
  exact (analyze_requests_not_blank _ _ reachable_analyzing H Hm).
Defined.

Lemma correction_requests_well_formed_demo :
  reachable correcting
  /\ firstPost "/autopilot/adjust-time" correcting
       ∈ posts "/autopilot/adjust-time" correcting
  /\ prop (firstPost "/autopilot/adjust-time" correcting) "text" = str "move to 3pm"
  /\ truthy (prop (firstPost "/autopilot/adjust-time" correcting) "action") = true.
Proof.
  assert (firstPost "/autopilot/adjust-time" correcting
            ∈ posts "/autopilot/adjust-time" correcting) as H
    by (vm_compute; apply list_elem_of_here).
  split; [exact reachable_correcting|]. split; [exact H|].
  split; [vm_compute; reflexivity|].
  exact (proj1 (correction_requests_well_formed _ _ reachable_correcting H)).
Defined.

Lemma handleConfirm_settled_notice_demo :
  let l := [obj [("action_type", str "create_meeting"); ("status", str "blocked")]] in
  or_else (get_opt (dataOf demoBlocked) "results") (VArr []) = VArr l
  /\ Forall (fun r => nullish r = false) l
  /\ (handleConfirm_settled (Some demoBlocked) previewed).2
     = [Notify confirmCalendarFailed].
Proof.
  intros l.
  assert (or_else (get_opt (dataOf demoBlocked) "results") (VArr []) = VArr l) as H1
    by (vm_compute; reflexivity).
  assert (Forall (fun r => nullish r = false) l) as H2
    by (repeat constructor).
  split; [exact H1|]. split; [exact H2|].
  rewrite (handleConfirm_settled_notice demoBlocked l previewed H1 H2). reflexivity.
Defined.

Lemma reschedule_controls_not_success_demo :
  rescheduleShown (handleConfirm_settled (Some demoBlocked) previewed).1 0 = true
  /\ (handleConfirm_settled (Some demoBlocked) previewed).2 <> [Notify confirmSuccess].
Proof.
  assert (rescheduleShown (handleConfirm_settled (Some demoBlocked) previewed).1 0 = true)
    as H by (vm_compute; reflexivity).
  split; [exact H|]. exact (reschedule_controls_not_success _ _ _ H).
Defined.

Lemma recording_marks_agree_demo :
  reachable doubleStart
  /\ isRecording (ui doubleStart) = true
  /\ exists id snap,
       mediaRecorderRef doubleStart = Some id
       /\ lookup_id id (recorders doubleStart) = Some (primary, snap).
Proof.
  split; [exact reachable_doubleStart|]. split; [reflexivity|].
  apply (proj1 (recording_marks_agree _ reachable_doubleStart)). reflexivity.
Defined.

(** Of the two recorders started for the main input, the click stops
    the later one, which is the one the ref holds. *)
Lemma stop_recording_reads_once_demo :
  reachable doubleStart
  /\ isRecording (ui doubleStart) = true
  /\ isProcessing (ui doubleStart) = false
  /\ recordingSites doubleStart = [primary; primary]
  /\ exists snap w',
       mediaRecorderRef doubleStart = Some 3%nat
       /\ lookup_id 3 (recorders doubleStart) = Some (primary, snap)
       /\ step ClickRecord doubleStart = Some w'
       /\ recorders w' = remove_id 3 (recorders doubleStart)
       /\ inflight w'
          = inflight doubleStart ++ [(issued doubleStart, AwaitReader primary snap)]
       /\ mediaRecorderRef w' = None
       /\ isRecording (ui w') = false.
Proof.
  assert (isRecording (ui doubleStart) = true) as H1 by (vm_compute; reflexivity).
  assert (isProcessing (ui doubleStart) = false) as H2 by (vm_compute; reflexivity).
  split; [exact reachable_doubleStart|]. split; [exact H1|]. split; [exact H2|].
  split; [reflexivity|].
  destruct (stop_recording_reads_once _ reachable_doubleStart H1 H2)
    as (id & snap & w' & Hid & Hrest).
  assert (id = 3%nat) as -> by (vm_compute in Hid; congruence).
  exists snap, w'. split; [exact Hid|exact Hrest].
Defined.

Lemma orphan_recorder_stays_demo :
  reachable doubleStart
  /\ orphan 2 doubleStart
  /\ run [ClickRecord] doubleStart = Some afterStop
  /\ recordingSites afterStop = [primary]
  /\ isRecording (ui afterStop) = false
  /\ orphan 2 afterStop.
Proof.
  assert (orphan 2 doubleStart) as Ho.
  { split; [by eexists|]. split; discriminate. }
  assert (run [ClickRecord] doubleStart = Some afterStop) as Hr
    by (vm_compute; reflexivity).
  split; [exact reachable_doubleStart|]. split; [exact Ho|]. split; [exact Hr|].
  split; [reflexivity|]. split; [reflexivity|].
  exact (orphan_recorder_stays 2 [ClickRecord] doubleStart afterStop
           reachable_doubleStart Ho Hr).
Defined.


Lemma processing_locks_page_demo :
  isProcessing (ui analyzing) = true /\ is_settle ClickAnalyze = false
  /\ step ClickAnalyze analyzing = None.
Proof.
  assert (isProcessing (ui analyzing) = true) as H by reflexivity.
  split; [exact H|]. split; [reflexivity|].
  exact (processing_locks_page ClickAnalyze analyzing H eq_refl).
Defined.

Lemma edit_reaches_confirmation_demo :
  let l := [edited demoAction "title" (str "Demo v2")] in
  handleActionPayloadEdit 0 "title" (str "Demo v2") (editedActions previewed) = Some l
  /\ exists m p,
       serializeForConfirmation (setEditedActions l previewed) !! 0%nat = Some (VObj m)
       /\ m !! "payload" = Some (VObj p)
       /\ p !! "title" = Some (str "Demo v2").
Proof.
  intros l.
  assert (handleActionPayloadEdit 0 "title" (str "Demo v2") (editedActions previewed)
          = Some l) as H by reflexivity.
  split; [exact H|]. exact (edit_reaches_confirmation _ _ _ _ _ H).
Defined.

Lemma handleReschedule_stale_index_demo :
  (length (editedActions previewed) <= 1)%nat
  /\ handleReschedule previewed 1 Text VNull previewed = quiet previewed.
Proof.
  assert (length (editedActions previewed) <= 1)%nat as H by (simpl; lia).
  split; [exact H|]. exact (handleReschedule_stale_index _ _ _ _ _ H).
Defined.

Lemma reschedule_line_trimmed_demo :
  normalizedLine en (dataOf adjustedTo3pm) (str " move to 3pm ") = Some lineTo3pm
  /\ trim lineTo3pm = lineTo3pm.
Proof.
  assert (normalizedLine en (dataOf adjustedTo3pm) (str " move to 3pm ")
          = Some lineTo3pm) as H by (vm_compute; reflexivity).
  split; [exact H|]. exact (proj1 (reschedule_line_trimmed _ _ _ _ H)).
Defined.

Lemma t_resolves_demo :
  nodot "errors" = true /\ nodot "micDenied" = true
  /\ prop (tableOf en) "errors" = VObj enErrors
  /\ enErrors !! "micDenied"
     = Some (str "Microphone access denied. Please check permissions.")
  /\ t en "errors.micDenied"
     = lit "Microphone access denied. Please check permissions.".
Proof.
  assert (prop (tableOf en) "errors" = VObj enErrors) as H1 by (vm_compute; reflexivity).
  assert (enErrors !! "micDenied"
          = Some (str "Microphone access denied. Please check permissions.")) as H2
    by (vm_compute; reflexivity).
  split; [reflexivity|]. split; [reflexivity|]. split; [exact H1|]. split; [exact H2|].
  exact (t_resolves en "errors" "micDenied" enErrors _ eq_refl eq_refl H1 H2).
Defined.
